(** * Trading dashboard backend: session cache, capture cycle and
      prediction engine

    A shallow embedding of the backend services of the dashboard
    (session manager, screen-capture service, prediction service and the
    data routes) together with the properties their specification states.

    Conventions of the embedding:
    - instants ([Date], [Date.now()]) are milliseconds since the epoch, in [Z];
    - a MongoDB collection is the list of its documents in insertion order;
    - a JavaScript number is held by its exact value, a rational ([Q]). The
      prices the capture service generates go through the roundings of
      IEEE-754 double arithmetic, written out on the exact values
      ([Binary64]); the counts and ratios that decide a confidence are
      computed on rationals, and their one rounding is also given on
      primitive doubles and shown to agree;
    - every reading of the clock, every [Math.random()] draw and every answer
      of an external collaborator (browser automation, visual analysis,
      image upload) is an explicit argument of the function that consumes it;
    - queries always answer; a [save] runs the validators of the schema and
      throws when one fails; whether the database then takes the write is a
      parameter of the functions that save, and a refused write throws too;
    - a sort keeps documents with equal keys in insertion order. *)

From Stdlib Require Import ZArith QArith Qround Qminmax Qpower Qabs List Sorted String Bool.
From Stdlib Require Import Lia Lqa.
From Stdlib Require Import Floats Uint63.
Import ListNotations.

Local Open Scope Z_scope.

(** ** Small list helpers shared by the collections *)

(** [updateFirst p f l] rewrites the first element of [l] that satisfies [p],
    the effect of [findOneAndUpdate] and of [save] on an existing document. *)
Fixpoint updateFirst {A : Type} (p : A -> bool) (f : A -> A) (l : list A) : list A :=
  match l with
  | [] => []
  | x :: rest => if p x then f x :: rest else x :: updateFirst p f rest
  end.

(** A call that either returns a value or throws. *)
Inductive Attempt (A : Type) : Type :=
| Returned (a : A)
| Threw.
Arguments Returned {A} a.
Arguments Threw {A}.

(** ** models/SessionData.js *)

Module SessionDataModel.

Inductive Status : Type := active | expired | invalid | pending.

Definition Status_eqb (a b : Status) : bool :=
  match a, b with
  | active, active | expired, expired | invalid, invalid | pending, pending => true
  | _, _ => false
  end.

Inductive Method : Type := puppeteer | cache | manual | system.

Record HistoryEntry : Type := mkHistoryEntry {
  timestamp : Z;
  success : bool;
  message : string;
  method : Method
}.

Record SessionData : Type := mkSessionData {
  sessionId : string;
  isValidated : bool;
  lastValidationCheck : Z;
  validationAttempts : Z;
  lastActivity : Z;
  loginTimestamp : Z;
  status : Status;
  validationHistory : list HistoryEntry;
  expiresAt : Z
}.

Definition hours (h : Z) : Z := h * 60 * 60 * 1000.

(** The query of [findValidatedSession]:
    [{ sessionId, isValidated: true, status: 'active', expiresAt: { $gt: now } }]. *)
Definition validatedQuery (sid : string) (now : Z) (d : SessionData) : bool :=
  String.eqb (sessionId d) sid
  && isValidated d
  && Status_eqb (status d) active
  && (now <? expiresAt d).

Definition findValidatedSession (coll : list SessionData) (sid : string) (now : Z)
  : option SessionData :=
  find (validatedQuery sid now) coll.

(** [maxAge] of [needsRevalidation]: two hours. *)
Definition maxAge : Z := 2 * 60 * 60 * 1000.

Definition needsRevalidation (d : SessionData) (now : Z) : bool :=
  let timeSinceValidation := now - lastValidationCheck d in
  negb (isValidated d)
  || (maxAge <? timeSinceValidation)
  || negb (Status_eqb (status d) active).

Definition hasSessionId (sid : string) (d : SessionData) : bool :=
  String.eqb (sessionId d) sid.

(** [updateActivity]: [findOneAndUpdate({sessionId},
    {lastActivity: now, $inc: {validationAttempts: 1}})]. *)
Definition updateActivity (coll : list SessionData) (sid : string) (now : Z)
  : list SessionData :=
  updateFirst (hasSessionId sid)
    (fun d => mkSessionData (sessionId d) (isValidated d) (lastValidationCheck d)
                (validationAttempts d + 1) now (loginTimestamp d) (status d)
                (validationHistory d) (expiresAt d))
    coll.

(** [refreshExpiration(hours)] followed by [save]: only the two modified
    paths, [expiresAt] and [lastActivity], are written back. *)
Definition refreshExpiration (coll : list SessionData) (d : SessionData) (h : Z) (now : Z)
  : list SessionData :=
  updateFirst (hasSessionId (sessionId d))
    (fun s => mkSessionData (sessionId s) (isValidated s) (lastValidationCheck s)
                (validationAttempts s) now (loginTimestamp s) (status s)
                (validationHistory s) (now + hours h))
    coll.

Definition validatedEntry (now : Z) : HistoryEntry :=
  mkHistoryEntry now true "Session validated successfully" puppeteer.

(** The object handed to [storeValidatedSession]: the fields the collection
    keeps, and [validationDetails] when the caller supplies that key (the
    message of its [lastValidationResult]). *)
Record SessionInput : Type := mkSessionInput {
  givenSessionId : string;
  givenLoginTimestamp : Z;
  givenValidationDetails : option string
}.

(** [storeValidatedSession]: an upsert keyed by [sessionId]. Its update
    spreads the given object, whose keys are set as they are, next to a
    [$push] into [validationDetails.validationHistory]. When the object has
    the key [validationDetails] the update writes a path and a path below
    it; MongoDB refuses such an update (the two paths conflict) and the call
    throws, nothing being written. Otherwise an existing document keeps its
    [expiresAt] and [validationAttempts], and a new one takes the schema
    defaults (24 hours from now, zero attempts). *)
Definition storeValidatedSession (coll : list SessionData) (sessionData : SessionInput)
    (now : Z) : Attempt (list SessionData) :=
  match givenValidationDetails sessionData with
  | Some _ => Threw
  | None =>
      let sid := givenSessionId sessionData in
      Returned
        (if existsb (hasSessionId sid) coll then
           updateFirst (hasSessionId sid)
             (fun d => mkSessionData (sessionId d) true now (validationAttempts d) now
                         (givenLoginTimestamp sessionData) active
                         (validationHistory d ++ [validatedEntry now]) (expiresAt d))
             coll
         else
           coll ++ [mkSessionData sid true now 0 now (givenLoginTimestamp sessionData)
                      active [validatedEntry now] (now + hours 24)])
  end.

End SessionDataModel.

(** ** services/sessionManager.js *)

Module SessionManager.
Import SessionDataModel.

(** [details.source] of a validation result. *)
Inductive Source : Type := database_cache | fresh_puppeteer_validation.

(** A validation result; [source] is [None] when [details] is an error
    message rather than an object. *)
Record ValidationResult : Type := mkValidationResult {
  isLoggedIn : bool;
  sessionValid : bool;
  resultMessage : string;
  source : option Source
}.

(** Calls made to the browser-automation collaborator. *)
Inductive ExternalCall : Type :=
| RunPuppeteerValidation (sid : string).

(** The clock readings of one call of [validateQuotexSession], in the order
    the code takes them. *)
Record Clock : Type := mkClock {
  atLookup : Z;     (* [new Date()] in [findValidatedSession] *)
  atAgeCheck : Z;   (* [Date.now()] in [needsRevalidation] *)
  atTouch : Z;      (* [updateActivity] and [refreshExpiration] *)
  atStore : Z       (* [storeValidatedSession] after a fresh validation *)
}.

Record Outcome : Type := mkOutcome {
  result : ValidationResult;
  sessions : list SessionData;
  calls : list ExternalCall
}.

Section Validate.

(** The answer of [runPuppeteerValidation], the slow path. *)
Variable runPuppeteerValidation : string -> ValidationResult.

(** The answer of the catch-all of [validateQuotexSession]. *)
Definition validationFailed : ValidationResult :=
  mkValidationResult false false "Session validation failed" None.

(** The queries and updates of the cached path are taken to succeed; the
    store after a fresh validation throws as [storeValidatedSession] does,
    and the catch-all then answers [validationFailed]. *)
Definition validateQuotexSession (clk : Clock) (coll : list SessionData) (sid : string)
  : Outcome :=
  (* STEP 2 and 3: fresh validation, cached in the database on success *)
  let freshValidation :=
    let puppeteerResult := runPuppeteerValidation sid in
    if isLoggedIn puppeteerResult then
      let sessionData :=
        mkSessionInput sid (atStore clk) (Some (resultMessage puppeteerResult)) in
      match storeValidatedSession coll sessionData (atStore clk) with
      | Returned stored => mkOutcome puppeteerResult stored [RunPuppeteerValidation sid]
      | Threw => mkOutcome validationFailed coll [RunPuppeteerValidation sid]
      end
    else mkOutcome puppeteerResult coll [RunPuppeteerValidation sid] in
  (* STEP 1: the database cache *)
  match findValidatedSession coll sid (atLookup clk) with
  | Some cachedSession =>
      if negb (needsRevalidation cachedSession (atAgeCheck clk)) then
        let coll1 := updateActivity coll sid (atTouch clk) in
        let coll2 := refreshExpiration coll1 cachedSession 24 (atTouch clk) in
        mkOutcome
          (mkValidationResult true true "User is logged into Quotex (cached)"
             (Some database_cache))
          coll2 []
      else freshValidation
  | None => freshValidation
  end.

End Validate.

End SessionManager.

(** ** Candle directions *)

Inductive Direction : Type := up | down.

Definition Direction_eqb (a b : Direction) : bool :=
  match a, b with
  | up, up | down, down => true
  | _, _ => false
  end.

Definition directionName (d : Direction) : string :=
  match d with up => "up" | down => "down" end.

(** Stable insertion sort on an integer key: [sort({ key: 1 })]. *)
Fixpoint insertBy {A : Type} (key : A -> Z) (x : A) (l : list A) : list A :=
  match l with
  | [] => [x]
  | y :: rest => if key y <=? key x then y :: insertBy key x rest else x :: l
  end.

Definition sortAscending {A : Type} (key : A -> Z) (l : list A) : list A :=
  fold_left (fun acc x => insertBy key x acc) l [].

(** [sort({ key: -1 })]. *)
Definition sortDescending {A : Type} (key : A -> Z) (l : list A) : list A :=
  sortAscending (fun x => - key x) l.

(** [.limit(n)] of a query: zero means no limit. *)
Definition limitTo {A : Type} (n : nat) (l : list A) : list A :=
  if (n =? 0)%nat then l else firstn n l.

(** [array.slice(i, j)] for [0 <= i <= j]. *)
Definition slice {A : Type} (i j : nat) (l : list A) : list A :=
  firstn (j - i) (skipn i l).

(** [array.slice(-n)]: the last [n] elements. *)
Definition sliceLast {A : Type} (n : nat) (l : list A) : list A :=
  skipn (List.length l - n) l.

(** ** models/CandleData.js *)

Module CandleDataModel.

(** The fields of a candle document the services read or write; [change],
    [changePercent], the screenshot references and the visual-analysis
    payload are carried along by the code and never inspected. *)
Record CandleData : Type := mkCandleData {
  timestamp : Z;
  tradingPair : string;
  timeframe : Z;
  open : Q;
  high : Q;
  low : Q;
  close : Q;
  direction : Direction;
  extractionMethod : string;
  confidenceScore : Z;
  sessionId : string
}.

(** The [enum] of [captureData.extractionMethod]. *)
Definition extractionMethods : list string :=
  ["tesseract"%string; "opencv"%string; "mock"%string].

(** The validators of the schema that a document of the record above can
    fail: the [enum] of the extraction method and the bounds of the
    confidence score. [save] runs them and throws when one fails. *)
Definition validCandle (c : CandleData) : bool :=
  existsb (String.eqb (extractionMethod c)) extractionMethods
  && (0 <=? confidenceScore c) && (confidenceScore c <=? 100).

End CandleDataModel.

(** ** models/Prediction.js *)

Module PredictionModel.

Record ActualResult : Type := mkActualResult {
  actualDirection : Direction;
  actualClose : Q;
  verifiedAt : Z;
  correct : bool
}.

(** An entry of [similarPatternsFound] as the prediction service builds
    it. *)
Record PatternDetail : Type := mkPatternDetail {
  detailTimestamp : Z;
  detailNextDirection : Direction;
  detailSimilarity : Z
}.

(** A stored prediction. Of each entry of [similarPatternsFound] the
    schema has [candleId], [similarity] and [outcome]; of what the service
    supplies it keeps the [similarity]. *)
Record Prediction : Type := mkPrediction {
  _id : nat;
  timestamp : Z;
  tradingPair : string;
  direction : Direction;
  confidence : Z;
  algorithmUsed : string;
  patternId : option string;
  similarPatternsFound : list Z;
  sessionId : string;
  actualResult : option ActualResult;
  accuracy : option Z;
  isProcessed : bool
}.

(** The [enum] of [algorithmUsed]. *)
Definition algorithms : list string :=
  ["logistic_regression"%string; "decision_tree"%string; "neural_network"%string;
   "pattern_matching"%string].

Definition withinPercent (x : Z) : bool := (0 <=? x) && (x <=? 100).

(** The validators of the schema that a document of the record above can
    fail: the [enum] of [algorithmUsed] and the bounds of [confidence] and of
    [accuracy]. [save] runs them on the whole document, new or loaded, and
    throws when one fails. *)
Definition validPrediction (p : Prediction) : bool :=
  existsb (String.eqb (algorithmUsed p)) algorithms
  && withinPercent (confidence p)
  && match accuracy p with
     | Some a => withinPercent a
     | None => true
     end.

End PredictionModel.

(** [Math.round]: the nearest integer, halves rounded up. *)
Definition mathRound (x : Q) : Z := Qfloor (x + (1 # 2))%Q.

(** The exact value of a finite IEEE-754 double. *)
Definition doubleValue (f : float) : option Q :=
  match Prim2SF f with
  | S754_zero _ => Some 0%Q
  | S754_finite negative m e =>
      let magnitude := (inject_Z (Z.pos m) * Qpower 2 e)%Q in
      Some (if negative then (- magnitude)%Q else magnitude)
  | S754_infinity _ | S754_nan => None
  end.

(** A count held in a JavaScript number. *)
Definition doubleOfCount (n : Z) : float := PrimFloat.of_uint63 (Uint63.of_Z n).


(** ** IEEE-754 double arithmetic on exact values *)

Module Binary64.

Local Open Scope Q_scope.

(** The exponent [e] with [2^e <= x < 2^(e+1)], for a positive [x]. *)
Definition binade (x : Q) : Z :=
  let k := (Z.log2 (Qnum x) - Z.log2 (Z.pos (Qden x)))%Z in
  if Qle_bool (2 ^ k) x then k else (k - 1)%Z.

(** The nearest integer, a half going to the even neighbour. *)
Definition roundHalfEven (x : Q) : Z :=
  let f := Qfloor x in
  match Qcompare (x - inject_Z f) (1 # 2) with
  | Lt => f
  | Gt => (f + 1)%Z
  | Eq => if Z.even f then f else (f + 1)%Z
  end.

(** The exponent of the unit in the last place at [x]: 52 below the binade
    for a normal number, [-1074] throughout the subnormal range. *)
Definition ulpExponent (x : Q) : Z := (Z.max (binade x) (-1022) - 52)%Z.

Definition nearestPositive (x : Q) : Q :=
  inject_Z (roundHalfEven (x / 2 ^ ulpExponent x)) * 2 ^ ulpExponent x.

(** Round to nearest, ties to even: the double nearest to [x], subnormal
    range included. Overflow to infinity is left out: the sums and products
    below add less than a hundredth to a finite double, or multiply draws
    below one by such constants, and cannot reach it. *)
Definition nearestDouble (x : Q) : Q :=
  match Qcompare x 0 with
  | Eq => 0
  | Gt => nearestPositive x
  | Lt => - nearestPositive (- x)
  end.

(** A numeric literal, or a value that reaches the code as a finite
    number. *)
Definition number (x : Q) : Q := nearestDouble x.

(** [a + b], [a - b] and [a * b] on numbers. *)
Definition jsAdd (a b : Q) : Q := nearestDouble (a + b).
Definition jsSub (a b : Q) : Q := nearestDouble (a - b).
Definition jsMul (a b : Q) : Q := nearestDouble (a * b).

End Binary64.

(** ** services/predictionService.js *)

Module PredictionService.
Abbreviation CandleData := CandleDataModel.CandleData.

Definition minCandlesRequired : nat := 10.

(** One element of the array [findSimilarPatterns] returns. *)
Record SimilarPattern : Type := mkSimilarPattern {
  matchTimestamp : Z;
  pattern : list Direction;
  nextDirection : Direction;
  similarity : Z
}.

(** The object a prediction method returns. *)
Record PredictionData : Type := mkPredictionData {
  direction : Direction;
  confidence : Z;
  algorithmUsed : string;
  patternId : option string;
  similarPatternsFound : list PredictionModel.PatternDetail;
  last5CandlesPattern : list Direction
}.

Definition directionsOf (candles : list CandleData) : list Direction :=
  map CandleDataModel.direction candles.

(** *** findSimilarPatterns *)

(** [{ tradingPair: recentCandles[0].tradingPair,
       timestamp: { $lt: recentCandles[0].timestamp } }] *)
Definition historicalQuery (first c : CandleData) : bool :=
  String.eqb (CandleDataModel.tradingPair c) (CandleDataModel.tradingPair first)
  && (CandleDataModel.timestamp c <? CandleDataModel.timestamp first).

(** [.sort({ timestamp: 1 }).limit(1000)] *)
Definition historicalCandles (coll : list CandleData) (first : CandleData)
  : list CandleData :=
  firstn 1000 (sortAscending CandleDataModel.timestamp (filter (historicalQuery first) coll)).

(** [targetPattern.every((dir, index) => dir === windowPattern[index])] *)
Definition isMatch (targetPattern windowPattern : list Direction) : bool :=
  forallb
    (fun entry : nat * Direction =>
       match nth_error windowPattern (fst entry) with
       | Some w => Direction_eqb (snd entry) w
       | None => false
       end)
    (combine (seq 0 (List.length targetPattern)) targetPattern).

(** The body of the sliding-window loop at index [i]: what it pushes. *)
Definition windowAt (historical : list CandleData) (targetPattern : list Direction)
    (i : nat) : list SimilarPattern :=
  let patternLength := List.length targetPattern in
  let windowCandles := slice i (i + patternLength) historical in
  let windowPattern := directionsOf windowCandles in
  if isMatch targetPattern windowPattern then
    match nth_error historical (i + patternLength), windowCandles with
    | Some nextCandle, w0 :: _ =>
        [mkSimilarPattern (CandleDataModel.timestamp w0) windowPattern
           (CandleDataModel.direction nextCandle) 100]
    | _, _ => []
    end
  else [].

(** [for (let i = 0; i <= historicalCandles.length - patternLength - 1; i++)] *)
Definition slidingWindow (historical : list CandleData) (targetPattern : list Direction)
  : list SimilarPattern :=
  flat_map (windowAt historical targetPattern)
    (seq 0 (List.length historical - List.length targetPattern)).

Definition findSimilarPatterns (coll : list CandleData) (recentCandles : list CandleData)
  : list SimilarPattern :=
  match recentCandles with
  | [] => []  (* [recentCandles[0]] is undefined; the TypeError is caught *)
  | first :: _ =>
      let targetPattern := directionsOf recentCandles in
      let historical := historicalCandles coll first in
      slice 0 20 (slidingWindow historical targetPattern)
  end.

(** *** predictFromPatterns *)

Record Outcomes : Type := mkOutcomes { ups : Z; downs : Z }.

(** [outcomes[pattern.nextDirection]++] *)
Definition tally (outcomes : Outcomes) (p : SimilarPattern) : Outcomes :=
  match nextDirection p with
  | up => mkOutcomes (ups outcomes + 1) (downs outcomes)
  | down => mkOutcomes (ups outcomes) (downs outcomes + 1)
  end.

Definition patternSignature (recentCandles : list CandleData) : string :=
  String.concat "-" (map directionName (directionsOf recentCandles)).

(** The part of [predictFromPatterns] after the history search. *)
Definition predictFromSimilar (recentCandles : list CandleData)
    (similar : list SimilarPattern) : option PredictionData :=
  if (List.length similar =? 0)%nat then None
  else
    let outcomes := fold_left tally similar (mkOutcomes 0 0) in
    let patternDetails :=
      map (fun p => PredictionModel.mkPatternDetail (matchTimestamp p) (nextDirection p) (similarity p))
          similar in
    let totalPatterns := ups outcomes + downs outcomes in
    let winningDirection := if downs outcomes <? ups outcomes then up else down in
    let winningCount := Z.max (ups outcomes) (downs outcomes) in
    let confidence :=
      Z.min 95 (mathRound (inject_Z winningCount / inject_Z totalPatterns * 100)%Q) in
    Some (mkPredictionData winningDirection confidence "pattern_matching"
            (Some ("pattern_" ++ patternSignature recentCandles)%string)
            patternDetails (directionsOf recentCandles)).

(** The confidence expression of [predictFromPatterns] as JavaScript
    evaluates it, on doubles:
    [Math.min(95, Math.round((winningCount / totalPatterns) * 100))]. *)
Definition confidenceOnDoubles (winningCount totalPatterns : Z) : option Z :=
  option_map (fun v => Z.min 95 (mathRound v))
    (doubleValue
       (PrimFloat.mul
          (PrimFloat.div (doubleOfCount winningCount) (doubleOfCount totalPatterns))
          (doubleOfCount 100))).

Definition predictFromPatterns (coll : list CandleData) (recentCandles : list CandleData)
  : option PredictionData :=
  predictFromSimilar recentCandles (findSimilarPatterns coll recentCandles).

(** *** predictFromTrend *)

Definition countDirection (d : Direction) (directions : list Direction) : Z :=
  Z.of_nat (List.length (filter (Direction_eqb d) directions)).

(** [directions[i] === lastDirection], where [lastDirection] is undefined
    for an empty array. *)
Definition sameAsLast (lastDirection : option Direction) (d : Direction) : bool :=
  match lastDirection with
  | Some l => Direction_eqb d l
  | None => false
  end.

(** The loop [for (i = length - 2; i >= 0; i--)], walking [earlier], the
    directions before the last one, from the most recent backwards. *)
Fixpoint countConsecutive (lastDirection : option Direction) (earlier : list Direction)
    (consecutiveCount : Z) : Z :=
  match earlier with
  | [] => consecutiveCount
  | d :: older =>
      if sameAsLast lastDirection d
      then countConsecutive lastDirection older (consecutiveCount + 1)
      else consecutiveCount
  end.

Definition trendOf (directions : list Direction) : PredictionData :=
  let upCount := countDirection up directions in
  let downCount := countDirection down directions in
  let lastDirection := hd_error (rev directions) in
  let consecutiveCount := countConsecutive lastDirection (tl (rev directions)) 1 in
  let direction :=
    if 3 <=? consecutiveCount then
      match lastDirection with Some up => down | _ => up end
    else if downCount <? upCount then up else down in
  let confidence :=
    if 3 <=? consecutiveCount then 60 + consecutiveCount * 5
    else 55 + Z.abs (upCount - downCount) * 5 in
  mkPredictionData direction (Z.min 95 confidence) "trend_analysis"
    None [] directions.

Definition predictFromTrend (recentCandles : list CandleData) : PredictionData :=
  trendOf (directionsOf recentCandles).

(** *** combinePredictions *)

Definition withConfidence (p : PredictionData) (c : Z) (tag : string) : PredictionData :=
  mkPredictionData (direction p) c tag (patternId p) (similarPatternsFound p)
    (last5CandlesPattern p).

Definition combinePredictions (patternPred trendPred : option PredictionData)
  : option PredictionData :=
  match patternPred, trendPred with
  | Some p, Some t =>
      if Direction_eqb (direction p) (direction t) then
        Some (withConfidence p (Z.min 95 (confidence p + 10))
                "pattern_matching_trend_confirmed")
      else
        Some (withConfidence p (Z.max 50 (confidence p - 15))
                "pattern_matching_trend_conflict")
  | Some p, None => Some p
  | None, t => t
  end.

(** *** generatePrediction *)

Definition generatePrediction (coll : list CandleData) (recentCandles : list CandleData)
  : option PredictionData :=
  if (List.length recentCandles <? minCandlesRequired)%nat then None
  else
    let chronologicalCandles := rev recentCandles in
    let last5Candles := sliceLast 5 chronologicalCandles in
    let patternPrediction := predictFromPatterns coll last5Candles in
    let trendPrediction := predictFromTrend last5Candles in
    combinePredictions patternPrediction (Some trendPrediction).

(** *** Persistence of predictions *)

Section Store.

(** Whether the database accepts the write of a document that has passed
    the validators of its schema; a [save] that fails either throws. *)
Variable saveSucceeds : PredictionModel.Prediction -> bool.

Definition saved (prediction : PredictionModel.Prediction) : bool :=
  PredictionModel.validPrediction prediction && saveSucceeds prediction.

Definition storePrediction (now : Z) (coll : list PredictionModel.Prediction)
    (predictionData : option PredictionData) (sid : string)
  : Attempt (option PredictionModel.Prediction) * list PredictionModel.Prediction :=
  match predictionData with
  | None => (Returned None, coll)
  | Some data =>
      let prediction :=
        PredictionModel.mkPrediction (List.length coll) now "EUR/USD OTC"
          (direction data) (confidence data) (algorithmUsed data) (patternId data)
          (map PredictionModel.detailSimilarity (similarPatternsFound data))
          sid None None false in
      if saved prediction
      then (Returned (Some prediction), coll ++ [prediction])
      else (Threw, coll)
  end.

Definition hasId (predictionId : nat) (p : PredictionModel.Prediction) : bool :=
  (PredictionModel._id p =? predictionId)%nat.

Definition graded (now : Z) (prediction : PredictionModel.Prediction)
    (actualCandle : CandleData) : PredictionModel.Prediction :=
  let isCorrect :=
    Direction_eqb (PredictionModel.direction prediction)
      (CandleDataModel.direction actualCandle) in
  PredictionModel.mkPrediction (PredictionModel._id prediction)
    (PredictionModel.timestamp prediction) (PredictionModel.tradingPair prediction)
    (PredictionModel.direction prediction) (PredictionModel.confidence prediction)
    (PredictionModel.algorithmUsed prediction) (PredictionModel.patternId prediction)
    (PredictionModel.similarPatternsFound prediction)
    (PredictionModel.sessionId prediction)
    (Some (PredictionModel.mkActualResult (CandleDataModel.direction actualCandle)
             (CandleDataModel.close actualCandle) now isCorrect))
    (Some (if isCorrect then 100 else 0))
    true.

(** [verifyPrediction]: the returned document ([None] for [null]) and the
    collection afterwards. *)
Definition verifyPrediction (now : Z) (coll : list PredictionModel.Prediction) (predictionId : nat)
    (actualCandle : CandleData)
  : option PredictionModel.Prediction * list PredictionModel.Prediction :=
  match find (hasId predictionId) coll with
  | None => (None, coll)
  | Some prediction =>
      let updatedPrediction := graded now prediction actualCandle in
      if saved updatedPrediction
      then (Some updatedPrediction,
            updateFirst (hasId predictionId) (fun _ => updatedPrediction) coll)
      else (None, coll)
  end.

End Store.


End PredictionService.

(** ** services/visualAnalysisService.js, at its interface *)

Module VisualAnalysisService.

(** What [determineCandleDirection] and [generateTradingSignal] report. *)
Inductive Reading : Type := sees_up | sees_down | unknown.

(** The parts of [visualAnalysis.analysis] that [extractCandleData] reads;
    [None] stands for an absent (or failed) component. *)
Record Analysis : Type := mkAnalysis {
  colorsDirection : option Reading;   (* [analysis.colors?.direction] *)
  signalDirection : option Reading;   (* [analysis.signal?.direction] *)
  currentPrice : option Q             (* [analysis.prices?.currentPrice] *)
}.

(** The result of [analyzeScreenshot]: either it carries [error], or the
    analysis and its overall confidence. *)
Inductive VisualAnalysis : Type :=
| Failed
| Analysed (analysis : Analysis) (confidence : Z).

End VisualAnalysisService.

(** ** services/screenCaptureService.js *)

Module ScreenCaptureService.
Import CandleDataModel VisualAnalysisService Binary64.

(** The [Math.random()] draws of one extraction, each in [[0, 1)]. *)
Record Draws : Type := mkDraws {
  priceDraw : Q;    (* [generateMockPrice] *)
  changeDraw : Q;   (* [change] *)
  highDraw : Q;     (* upper wick *)
  lowDraw : Q       (* lower wick *)
}.

Local Open Scope Q_scope.

(** [x.toFixed(5)]: the decimal with five fractional digits nearest to the
    exact value of [x], a half rounded away from zero. *)
Definition toFixed5 (x : Q) : Q :=
  if Qle_bool 0 x
  then Qfloor (x * 100000 + (1 # 2)) # 100000
  else - (Qfloor (- x * 100000 + (1 # 2)) # 100000).

(** [parseFloat(x.toFixed(5))]: the double nearest to that decimal. *)
Definition storedPrice (x : Q) : Q := number (toFixed5 x).

(** [a > b] on numbers. *)
Definition Qgtb (a b : Q) : bool := negb (Qle_bool a b).

(** [1.0800 + (Math.random() - 0.5) * 0.01] *)
Definition generateMockPrice (r : Q) : Q :=
  jsAdd (number (108 # 100)) (jsMul (jsSub (number r) (number (1 # 2))) (number (1 # 100))).

Definition generateFallbackData (sid : string) (timestamp : Z) (d : Draws) : CandleData :=
  let mockPrice := generateMockPrice (priceDraw d) in
  let change := jsMul (jsSub (number (changeDraw d)) (number (1 # 2))) (number (2 # 1000)) in
  let open := mockPrice in
  let close := jsAdd mockPrice change in
  let high := jsAdd (Qmax open close) (jsMul (number (highDraw d)) (number (1 # 1000))) in
  let low := jsSub (Qmin open close) (jsMul (number (lowDraw d)) (number (1 # 1000))) in
  mkCandleData timestamp "EUR/USD OTC" 60
    (storedPrice open) (storedPrice high) (storedPrice low) (storedPrice close)
    (if Qgtb close open then up else down)
    "fallback_mock" 30 sid.

(** [a || b] on optional prices: zero is falsy. *)
Definition truthyPrice (p : option Q) : option Q :=
  match p with
  | Some x => if Qeq_bool x 0 then None else Some x
  | None => None
  end.

(** [analysis.colors?.direction || analysis.signal?.direction || 'unknown'];
    every reading, ['unknown'] included, is a non-empty string. *)
Definition readDirection (a : Analysis) : Reading :=
  match colorsDirection a with
  | Some r => r
  | None => match signalDirection a with
            | Some r => r
            | None => unknown
            end
  end.

Definition extractCandleData (sid : string) (visualAnalysis : VisualAnalysis)
    (timestamp : Z) (d : Draws) : CandleData :=
  match visualAnalysis with
  | Failed => generateFallbackData sid timestamp d
  | Analysed analysis confidence =>
      let currentPrice :=
        match truthyPrice (option_map number (currentPrice analysis)) with
        | Some p => p
        | None => generateMockPrice (priceDraw d)
        end in
      let direction := readDirection analysis in
      let priceVariation := number (1 # 1000) in
      let basePrice := currentPrice in
      let change :=
        jsMul (jsSub (number (changeDraw d)) (number (1 # 2))) (number (2 # 1000)) in
      let open := basePrice in
      let close := jsAdd basePrice change in
      let high := jsAdd (Qmax open close) (jsMul (number (highDraw d)) priceVariation) in
      let low := jsSub (Qmin open close) (jsMul (number (lowDraw d)) priceVariation) in
      let confidenceScore := if (confidence =? 0)%Z then 50%Z else confidence in
      mkCandleData timestamp "EUR/USD OTC" 60
        (storedPrice open) (storedPrice high) (storedPrice low) (storedPrice close)
        (match direction with
         | unknown => if Qgtb close open then up else down
         | sees_up => up
         | sees_down => down
         end)
        "advanced_visual_ml" confidenceScore sid
  end.

Local Close Scope Q_scope.

(** The duplicate query of [saveCandleData]: same pair and session, and a
    timestamp between 30 seconds before and 30 seconds after, both bounds
    included. *)
Definition duplicateQuery (candleData c : CandleData) : bool :=
  (timestamp candleData - 30000 <=? timestamp c)
  && (timestamp c <=? timestamp candleData + 30000)
  && String.eqb (tradingPair c) (tradingPair candleData)
  && String.eqb (sessionId c) (sessionId candleData).

(** [getRecentCandles(limit)] *)
Definition getRecentCandles (coll : list CandleData) (sid : string) (limit : nat)
  : list CandleData :=
  rev (limitTo limit
         (sortDescending timestamp
            (filter (fun c => String.eqb (sessionId c) sid
                              && String.eqb (tradingPair c) "EUR/USD OTC") coll))).

(** The service object and the two collections it writes. *)
Record Service : Type := mkService {
  page : bool;          (* [this.page] is set *)
  isCapturing : bool;
  serviceSession : string
}.

Record Database : Type := mkDatabase {
  candles : list CandleData;
  predictions : list PredictionModel.Prediction
}.

(** What one cycle receives from outside. *)
Record Cycle : Type := mkCycle {
  now : Z;                      (* [timestamp = new Date()] *)
  uploaded : bool;              (* screenshot and upload both returned *)
  visual : VisualAnalysis;
  draws : Draws;
  predictionTime : Z            (* [new Date()] in [storePrediction] *)
}.

Section Store.

(** Whether the database accepts the write of a document that has passed
    the validators of its schema; a [save] that fails either throws. *)
Variable candleSaved : CandleData -> bool.
Variable predictionSaved : PredictionModel.Prediction -> bool.

Definition saveCandleData (coll : list CandleData) (candleData : CandleData)
  : Attempt CandleData * list CandleData :=
  match find (duplicateQuery candleData) coll with
  | Some recentDuplicate => (Returned recentDuplicate, coll)
  | None =>
      if validCandle candleData && candleSaved candleData
      then (Returned candleData, coll ++ [candleData])
      else (Threw, coll)
  end.

(** [captureAndProcess]: the [candleData] of the returned object ([None]
    when the function returns [null]) and the database afterwards. *)
Definition captureAndProcess (svc : Service) (env : Cycle) (db : Database)
  : option CandleData * Database :=
  if negb (page svc) || negb (isCapturing svc) then (None, db)
  else if negb (uploaded env) then (None, db)
  else
    let candleData :=
      extractCandleData (serviceSession svc) (visual env) (now env) (draws env) in
    match saveCandleData (candles db) candleData with
    | (Threw, _) => (None, db)
    | (Returned savedData, candles') =>
        let recentCandles := getRecentCandles candles' (serviceSession svc) 20 in
        let predictions' :=
          if (10 <=? List.length recentCandles)%nat then
            match PredictionService.generatePrediction candles' recentCandles with
            | Some prediction =>
                (* a throw of [storePrediction] is caught and logged *)
                snd (PredictionService.storePrediction predictionSaved
                       (predictionTime env) (predictions db) (Some prediction)
                       (serviceSession svc))
            | None => predictions db
            end
          else predictions db in
        (Some savedData, mkDatabase candles' predictions')
    end.

(** *** Cycles that overlap *)

(** [startCapture] runs one cycle and then one per tick of [setInterval],
    without waiting for the cycle before; a manual capture runs one more.
    Cycles therefore overlap, interleaved at their accesses to the database.
    [Pending] tells where a cycle stands between two accesses. *)
Inductive Pending : Type :=
| FindDuplicate (candleData : CandleData)            (* before [findOne] *)
| SaveCandle (candleData : CandleData)               (* before the [save] of the candle *)
| ReadRecent (savedData : CandleData)                (* before [getRecentCandles] *)
| ReadHistory (savedData : CandleData) (recentCandles : list CandleData)
                                                     (* before the query of [findSimilarPatterns] *)
| SavePrediction (savedData : CandleData) (prediction : PredictionService.PredictionData)
                                                     (* before the [save] of the prediction *)
| Finished (result : option CandleData).

(** The cycle up to its first access to the database. *)
Definition begin (svc : Service) (env : Cycle) : Pending :=
  if negb (page svc) || negb (isCapturing svc) then Finished None
  else if negb (uploaded env) then Finished None
  else
    FindDuplicate
      (extractCandleData (serviceSession svc) (visual env) (now env) (draws env)).

(** One access to the database, on the database as it is at that moment. *)
Definition advance (svc : Service) (env : Cycle) (p : Pending) (db : Database)
  : Pending * Database :=
  match p with
  | FindDuplicate candleData =>
      match find (duplicateQuery candleData) (candles db) with
      | Some recentDuplicate => (ReadRecent recentDuplicate, db)
      | None => (SaveCandle candleData, db)
      end
  | SaveCandle candleData =>
      if validCandle candleData && candleSaved candleData
      then (ReadRecent candleData,
            mkDatabase (candles db ++ [candleData]) (predictions db))
      else (Finished None, db)
  | ReadRecent savedData =>
      let recentCandles := getRecentCandles (candles db) (serviceSession svc) 20 in
      if (10 <=? List.length recentCandles)%nat
      then (ReadHistory savedData recentCandles, db)
      else (Finished (Some savedData), db)
  | ReadHistory savedData recentCandles =>
      match PredictionService.generatePrediction (candles db) recentCandles with
      | Some prediction => (SavePrediction savedData prediction, db)
      | None => (Finished (Some savedData), db)
      end
  | SavePrediction savedData prediction =>
      (Finished (Some savedData),
       mkDatabase (candles db)
         (snd (PredictionService.storePrediction predictionSaved
                 (predictionTime env) (predictions db) (Some prediction)
                 (serviceSession svc))))
  | Finished result => (Finished result, db)
  end.

(** A cycle in flight. *)
Record InFlight : Type := mkInFlight {
  tick : Cycle;
  pending : Pending
}.

Definition begun (svc : Service) (env : Cycle) : InFlight :=
  mkInFlight env (begin svc env).

Definition finished (c : InFlight) : Prop := exists result, pending c = Finished result.

(** [Overlapping pool db final]: the cycles of [pool], advanced one access
    at a time in any order until all have finished, take the database from
    [db] to [final]. *)
Inductive Overlapping (svc : Service) : list InFlight -> Database -> Database -> Prop :=
| all_finished (pool : list InFlight) (db : Database) :
    Forall finished pool -> Overlapping svc pool db db
| one_advances (before : list InFlight) (c : InFlight) (after : list InFlight)
    (db final : Database) :
    Overlapping svc
      (before ++ mkInFlight (tick c) (fst (advance svc (tick c) (pending c) db)) :: after)
      (snd (advance svc (tick c) (pending c) db)) final ->
    Overlapping svc (before ++ c :: after) db final.

(** A cycle that no other one interrupts: its accesses in a row. *)
Fixpoint advanceBy (n : nat) (svc : Service) (env : Cycle) (p : Pending) (db : Database)
  : Pending * Database :=
  match n with
  | O => (p, db)
  | S k => advanceBy k svc env (fst (advance svc env p db)) (snd (advance svc env p db))
  end.

End Store.

End ScreenCaptureService.

(** ** routes/data.js *)

Module DataRoutes.
Import SessionManager.

Abbreviation CandleData := CandleDataModel.CandleData.
Abbreviation Prediction := PredictionModel.Prediction.

(** The JSON answer of a route: the HTTP status and the fields the
    handlers set; an absent list is empty and an absent or [null] prediction
    is [None]. *)
Record Response : Type := mkResponse {
  statusCode : Z;
  success : bool;
  message : string;
  requiresAuth : bool;
  candles : list CandleData;
  predictions : list Prediction;
  prediction : option Prediction
}.

(** [req.query] of the three routes. *)
Record Query : Type := mkQuery {
  limit : nat;                    (* [parseInt(limit)] *)
  tradingPair : string;
  sessionId : option string;
  startDate : option Z;
  endDate : option Z
}.

(** [!sessionId]: the parameter is missing or the empty string. *)
Definition givenSession (q : Query) : option string :=
  match sessionId q with
  | Some sid => if String.eqb sid "" then None else Some sid
  | None => None
  end.

Definition atLeast (bound : option Z) (t : Z) : bool :=
  match bound with Some b => b <=? t | None => true end.

Definition atMost (bound : option Z) (t : Z) : bool :=
  match bound with Some b => t <=? b | None => true end.

Section Routes.

Variable runPuppeteerValidation : string -> ValidationResult.

(** GET /api/data/candles *)
Definition getCandles (clk : Clock) (sessionColl : list SessionDataModel.SessionData)
    (candleColl : list CandleData) (q : Query)
  : Response * list SessionDataModel.SessionData :=
  match givenSession q with
  | None =>
      (mkResponse 401 false
         "Session ID required to view candle data - please connect to Quotex first"
         true [] [] None, sessionColl)
  | Some sid =>
      let validation :=
        validateQuotexSession runPuppeteerValidation clk sessionColl sid in
      if negb (isLoggedIn (result validation)) then
        (mkResponse 401 false "You must be logged into Quotex to view candle data"
           true [] [] None, sessions validation)
      else
        let found :=
          limitTo (limit q)
            (sortDescending CandleDataModel.timestamp
               (filter
                  (fun c =>
                     String.eqb (CandleDataModel.tradingPair c) (tradingPair q)
                     && String.eqb (CandleDataModel.sessionId c) sid
                     && atLeast (startDate q) (CandleDataModel.timestamp c)
                     && atMost (endDate q) (CandleDataModel.timestamp c))
                  candleColl)) in
        (mkResponse 200 true "" false found [] None, sessions validation)
  end.

(** GET /api/data/predictions *)
Definition getPredictions (predictionColl : list Prediction) (q : Query) : Response :=
  let found :=
    limitTo (limit q)
      (sortDescending PredictionModel.timestamp
         (filter
            (fun p =>
               String.eqb (PredictionModel.tradingPair p) (tradingPair q)
               && match givenSession q with
                  | Some sid => String.eqb (PredictionModel.sessionId p) sid
                  | None => true
                  end)
            predictionColl)) in
  mkResponse 200 true "" false [] found None.

(** GET /api/data/prediction; the accuracy statistics of the answer are
    left out. *)
Definition getPrediction (clk : Clock) (sessionColl : list SessionDataModel.SessionData)
    (predictionColl : list Prediction) (q : Query)
  : Response * list SessionDataModel.SessionData :=
  match givenSession q with
  | None =>
      (mkResponse 401 false
         "Session ID required for predictions - please connect to Quotex first"
         true [] [] None, sessionColl)
  | Some sid =>
      let validation :=
        validateQuotexSession runPuppeteerValidation clk sessionColl sid in
      if negb (isLoggedIn (result validation)) then
        (mkResponse 401 false "You must be logged into Quotex to view predictions"
           true [] [] None, sessions validation)
      else
        let latestPrediction :=
          hd_error
            (sortDescending PredictionModel.timestamp
               (filter
                  (fun p =>
                     String.eqb (PredictionModel.tradingPair p) (tradingPair q)
                     && String.eqb (PredictionModel.sessionId p) sid)
                  predictionColl)) in
        match latestPrediction with
        | None =>
            (mkResponse 200 true
               "No predictions available yet - start the bot to generate predictions"
               false [] [] None, sessions validation)
        | Some p =>
            (mkResponse 200 true "" false [] [] (Some p), sessions validation)
        end
  end.

End Routes.

(** A response carries observation or prediction data. *)
Definition carriesData (r : Response) : Prop :=
  candles r <> [] \/ predictions r <> [] \/ prediction r <> None.

(** The explicit rejection of the guarded routes. *)
Definition authenticationRequired (r : Response) : Prop :=
  statusCode r = 401 /\ success r = false /\ requiresAuth r = true.

End DataRoutes.

(** * Properties *)

(** ** Session cache *)

Module SessionCacheProperties.
Import SessionDataModel SessionManager.

(** The conditions under which the code serves a stored record from the
    cache: active, validated, not yet expired at the lookup, and validated
    no longer than [maxAge] ago at the age check. *)
Definition usableFromCache (clk : Clock) (d : SessionData) : Prop :=
  status d = active
  /\ isValidated d = true
  /\ atLookup clk < expiresAt d
  /\ atAgeCheck clk - lastValidationCheck d <= maxAge.

(** The same with the age strictly under the window, as the specification
    words it. *)
Definition usableWithinWindow (clk : Clock) (d : SessionData) : Prop :=
  status d = active
  /\ isValidated d = true
  /\ atLookup clk < expiresAt d
  /\ atAgeCheck clk - lastValidationCheck d < maxAge.

Lemma Status_eqb_eq (a b : Status) : Status_eqb a b = true <-> a = b.
Proof. destruct a, b; simpl; split; intro H; try reflexivity; discriminate H. Qed.

Lemma validatedQuery_true (sid : string) (now : Z) (d : SessionData) :
  validatedQuery sid now d = true <->
  sessionId d = sid /\ isValidated d = true /\ status d = active /\ now < expiresAt d.
Proof.
  unfold validatedQuery.
  rewrite !andb_true_iff, String.eqb_eq, Status_eqb_eq, Z.ltb_lt.
  tauto.
Qed.

Lemma needsRevalidation_false (d : SessionData) (now : Z) :
  needsRevalidation d now = false <->
  isValidated d = true /\ now - lastValidationCheck d <= maxAge /\ status d = active.
Proof.
  unfold needsRevalidation.
  rewrite !orb_false_iff, !negb_false_iff, Status_eqb_eq, Z.ltb_ge.
  tauto.
Qed.

(** What a validation that consults the browser answers. The browser's
    answer is returned when it says that the user is not logged in; when it
    says logged in, the store of the session throws and the catch-all
    answers. *)
Definition freshAnswer (puppeteerResult : ValidationResult) : ValidationResult :=
  if isLoggedIn puppeteerResult then validationFailed else puppeteerResult.

(** The two ways out of [validateQuotexSession]. *)
Lemma validateQuotexSession_cases pup clk coll sid :
  (exists d,
      findValidatedSession coll sid (atLookup clk) = Some d
      /\ needsRevalidation d (atAgeCheck clk) = false
      /\ validateQuotexSession pup clk coll sid
         = mkOutcome
             (mkValidationResult true true "User is logged into Quotex (cached)"
                (Some database_cache))
             (refreshExpiration (updateActivity coll sid (atTouch clk)) d 24
                (atTouch clk))
             [])
  \/ ((forall d, findValidatedSession coll sid (atLookup clk) = Some d ->
                 needsRevalidation d (atAgeCheck clk) = true)
      /\ validateQuotexSession pup clk coll sid
         = mkOutcome (freshAnswer (pup sid)) coll [RunPuppeteerValidation sid]).
Proof.
  assert (Hfresh :
            (if isLoggedIn (pup sid) then
               match
                 storeValidatedSession coll
                   (mkSessionInput sid (atStore clk) (Some (resultMessage (pup sid))))
                   (atStore clk)
               with
               | Returned stored => mkOutcome (pup sid) stored [RunPuppeteerValidation sid]
               | Threw => mkOutcome validationFailed coll [RunPuppeteerValidation sid]
               end
             else mkOutcome (pup sid) coll [RunPuppeteerValidation sid])
            = mkOutcome (freshAnswer (pup sid)) coll [RunPuppeteerValidation sid]).
  { unfold freshAnswer. destruct (isLoggedIn (pup sid)); reflexivity. }
  unfold validateQuotexSession.
  destruct (findValidatedSession coll sid (atLookup clk)) as [d|] eqn:Hfind.
  - destruct (needsRevalidation d (atAgeCheck clk)) eqn:Hage; cbn [negb].
    + right. split; [|exact Hfresh].
      intros d' Hd'. injection Hd' as <-. exact Hage.
    + left. exists d. split; [reflexivity|]. split; [exact Hage | reflexivity].
  - right. split; [|exact Hfresh].
    intros d' Hd'. discriminate Hd'.
Qed.

Lemma freshAnswer_not_logged_in (puppeteerResult : ValidationResult) :
  isLoggedIn (freshAnswer puppeteerResult) = false.
Proof.
  unfold freshAnswer. destruct (isLoggedIn puppeteerResult) eqn:E; [reflexivity | exact E].
Qed.

(** C1, as amended: a session is answered from the cache, with no call to
    the browser validation, only when a stored record of that session is
    active, validated, unexpired and was validated at most two hours ago
    (the window's end included); when no stored record of the session meets
    these conditions the answer never comes from the cache: the browser
    validation runs, and the session is not reported as logged in unless
    that validation says so. *)
Theorem cache_hit_only_for_usable_record pup clk coll sid :
  (calls (validateQuotexSession pup clk coll sid) = [] ->
   exists d, In d coll /\ sessionId d = sid /\ usableFromCache clk d)
  /\ ((forall d, In d coll -> sessionId d = sid -> ~ usableFromCache clk d) ->
      calls (validateQuotexSession pup clk coll sid) = [RunPuppeteerValidation sid]
      /\ (isLoggedIn (result (validateQuotexSession pup clk coll sid)) = true ->
          isLoggedIn (pup sid) = true)
      /\ (isLoggedIn (pup sid) = false ->
          result (validateQuotexSession pup clk coll sid) = pup sid)).
Proof.
  assert (Hhit : forall d,
             findValidatedSession coll sid (atLookup clk) = Some d ->
             needsRevalidation d (atAgeCheck clk) = false ->
             In d coll /\ sessionId d = sid /\ usableFromCache clk d).
  { intros d Hfind Hage.
    apply find_some in Hfind. destruct Hfind as [Hin Hq].
    apply validatedQuery_true in Hq. apply needsRevalidation_false in Hage.
    unfold usableFromCache. intuition. }
  destruct (validateQuotexSession_cases pup clk coll sid)
    as [(d & Hfind & Hage & Hout) | (Hstale & Hout)]; rewrite Hout; cbn [calls result].
  - split.
    + intros _. exists d. apply Hhit; assumption.
    + intros Hnone. exfalso.
      destruct (Hhit d Hfind Hage) as (Hin & Hsid & Hok).
      exact (Hnone d Hin Hsid Hok).
  - split.
    + intros Hempty. discriminate Hempty.
    + intros _. split; [reflexivity|].
      split.
      * rewrite freshAnswer_not_logged_in. discriminate.
      * intros Hout'. unfold freshAnswer. rewrite Hout'. reflexivity.
Qed.

(** With one record per session (the unique index on [sessionId]), a
    record that meets the conditions is indeed answered from the cache. *)
Lemma usable_record_is_cache_hit pup clk coll sid d :
  In d coll ->
  (forall d', In d' coll -> sessionId d' = sid -> d' = d) ->
  sessionId d = sid ->
  usableFromCache clk d ->
  calls (validateQuotexSession pup clk coll sid) = []
  /\ isLoggedIn (result (validateQuotexSession pup clk coll sid)) = true.
Proof.
  intros Hin Huniq Hsid (Hst & Hval & Hexp & Hage).
  destruct (validateQuotexSession_cases pup clk coll sid)
    as [(d' & _ & _ & Hout) | (Hstale & _)].
  - rewrite Hout. split; reflexivity.
  - exfalso.
    destruct (findValidatedSession coll sid (atLookup clk)) as [d'|] eqn:Hfind.
    + pose proof (Hstale d' eq_refl) as Hneeds.
      apply find_some in Hfind. destruct Hfind as [Hin' Hq].
      apply validatedQuery_true in Hq.
      assert (d' = d) by (apply Huniq; tauto). subst d'.
      assert (Hfresh : needsRevalidation d (atAgeCheck clk) = false)
        by (apply needsRevalidation_false; tauto).
      rewrite Hfresh in Hneeds. discriminate Hneeds.
    + unfold findValidatedSession in Hfind.
      apply (find_none _ _ Hfind) in Hin.
      assert (Hq : validatedQuery sid (atLookup clk) d = true)
        by (apply validatedQuery_true; tauto).
      rewrite Hq in Hin. discriminate Hin.
Qed.

(** A record validated exactly two hours before the age check. *)
Definition boundarySession : SessionData :=
  mkSessionData "quotex-session-1" true 0 0 0 0 active [] 86400000.

Definition boundaryClock : Clock := mkClock 7200000 7200000 7200000 7200000.

Definition notLoggedIn (_ : string) : ValidationResult :=
  mkValidationResult false true "User is not logged into Quotex"
    (Some fresh_puppeteer_validation).

(** C1, as stated, fails: the record validated exactly two hours ago is
    answered from the cache although its age is not under the window. *)
Lemma cache_hit_at_window_end :
  ~ (forall pup clk coll sid,
        calls (validateQuotexSession pup clk coll sid) = [] ->
        exists d, In d coll /\ sessionId d = sid /\ usableWithinWindow clk d).
Proof.
  intros Hclaim.
  destruct (Hclaim notLoggedIn boundaryClock [boundarySession] "quotex-session-1"%string
              eq_refl) as (d & Hin & _ & _ & _ & _ & Hage).
  destruct Hin as [<- | []].
  vm_compute in Hage. discriminate Hage.
Qed.

End SessionCacheProperties.

(** ** Prediction engine: tally, trend and fusion *)

Module PredictionProperties.
Import PredictionService.

Definition Direction_eq_dec (a b : Direction) : {a = b} + {a <> b}.
Proof. decide equality. Defined.

Lemma Direction_eqb_eq (a b : Direction) : Direction_eqb a b = true <-> a = b.
Proof. destruct a, b; simpl; split; intro H; try reflexivity; discriminate H. Qed.

Lemma Direction_eqb_neq (a b : Direction) : Direction_eqb a b = false <-> a <> b.
Proof. destruct a, b; simpl; split; intro H; congruence. Qed.

(** The number of outcomes equal to [d], counted independently of the
    code's running tally. *)
Definition occurrences (d : Direction) (outcomes : list Direction) : Z :=
  Z.of_nat (count_occ Direction_eq_dec outcomes d).

Definition outcomesOf (similar : list SimilarPattern) : list Direction :=
  map nextDirection similar.

Lemma tally_counts (similar : list SimilarPattern) (a b : Z) :
  fold_left tally similar (mkOutcomes a b)
  = mkOutcomes (a + occurrences up (outcomesOf similar))
               (b + occurrences down (outcomesOf similar)).
Proof.
  revert a b.
  induction similar as [|m rest IH]; intros a b.
  - unfold occurrences. simpl. f_equal; lia.
  - simpl fold_left. unfold tally at 2.
    unfold occurrences, outcomesOf in *. simpl map.
    destruct (nextDirection m); simpl ups; simpl downs; rewrite IH; simpl count_occ;
      f_equal; lia.
Qed.

Lemma occurrences_total (outcomes : list Direction) :
  occurrences up outcomes + occurrences down outcomes = Z.of_nat (List.length outcomes).
Proof.
  unfold occurrences.
  induction outcomes as [|[|] rest IH]; simpl count_occ; simpl List.length; lia.
Qed.

(** [Math.round(w / t * 100)] in integer arithmetic. *)
Lemma mathRound_ratio (w t : Z) :
  0 < t ->
  mathRound (inject_Z w / inject_Z t * 100)%Q = (200 * w + t) / (2 * t).
Proof.
  intros Ht. destruct t as [|p|p]; try lia.
  unfold mathRound.
  assert (E : (inject_Z w / inject_Z (Z.pos p) * 100 + (1 # 2)
               == (200 * w + Z.pos p) # (2 * p))%Q).
  { unfold Qeq, Qdiv, Qmult, Qplus, Qinv, inject_Z.
    cbn -[Z.mul Z.add Pos.mul]. rewrite ?Pos2Z.inj_mul. ring. }
  rewrite E. unfold Qfloor. reflexivity.
Qed.

Definition countsUpTo (n : nat) : list Z := map Z.of_nat (seq 0 (S n)).

Lemma in_countsUpTo (n : nat) (z : Z) : 0 <= z <= Z.of_nat n -> In z (countsUpTo n).
Proof.
  intros H. unfold countsUpTo. apply in_map_iff. exists (Z.to_nat z).
  split; [lia|]. apply in_seq. lia.
Qed.

Definition roundingAgrees (t w : Z) : bool :=
  match confidenceOnDoubles w t with
  | Some c => c =? Z.min 95 (mathRound (inject_Z w / inject_Z t * 100)%Q)
  | None => false
  end.

(** For the totals the tally can reach (the search returns at most 20
    matches) the confidence computed on doubles is the one computed on exact
    rationals: every case is evaluated. *)
Lemma rounding_on_doubles (w t : Z) :
  1 <= t <= 20 -> 0 <= w <= t ->
  confidenceOnDoubles w t = Some (Z.min 95 (mathRound (inject_Z w / inject_Z t * 100)%Q)).
Proof.
  intros Ht Hw.
  assert (Hall : forallb (fun t => forallb (roundingAgrees t) (countsUpTo (Z.to_nat t)))
                   (map Z.of_nat (seq 1 20)) = true) by (vm_compute; reflexivity).
  rewrite forallb_forall in Hall.
  assert (Hin : In t (map Z.of_nat (seq 1 20))).
  { apply in_map_iff. exists (Z.to_nat t). split; [lia|]. apply in_seq. lia. }
  specialize (Hall t Hin).
  rewrite forallb_forall in Hall.
  specialize (Hall w (in_countsUpTo (Z.to_nat t) w ltac:(lia))).
  unfold roundingAgrees in Hall.
  destruct (confidenceOnDoubles w t) as [c|]; [|discriminate].
  apply Z.eqb_eq in Hall. congruence.
Qed.

Lemma findSimilarPatterns_at_most_20 (coll recentCandles : list CandleData) :
  (List.length (findSimilarPatterns coll recentCandles) <= 20)%nat.
Proof.
  unfold findSimilarPatterns.
  destruct recentCandles as [|first rest]; simpl List.length; [lia|].
  unfold slice. rewrite length_firstn. lia.
Qed.

(** C3: with no match the pattern method yields no result; otherwise its
    direction is the larger side of the up/down tally of the matched
    outcomes, a tie going to [down], and its confidence is
    [min(95, round(winningCount / totalOutcomes * 100))], on exact numbers
    and on doubles alike. *)
Theorem pattern_prediction_from_tally (coll recentCandles : list CandleData) :
  let outcomes := outcomesOf (findSimilarPatterns coll recentCandles) in
  let upCount := occurrences up outcomes in
  let downCount := occurrences down outcomes in
  let winningCount := Z.max upCount downCount in
  let totalOutcomes := Z.of_nat (List.length outcomes) in
  match predictFromPatterns coll recentCandles with
  | None => outcomes = []
  | Some r =>
      outcomes <> []
      /\ (downCount < upCount -> direction r = up)
      /\ (upCount < downCount -> direction r = down)
      /\ (upCount = downCount -> direction r = down)
      /\ confidence r
         = Z.min 95 (mathRound (inject_Z winningCount / inject_Z totalOutcomes * 100)%Q)
      /\ confidence r = Z.min 95 ((200 * winningCount + totalOutcomes) / (2 * totalOutcomes))
      /\ confidenceOnDoubles winningCount totalOutcomes = Some (confidence r)
  end.
Proof.
  intros outcomes upCount downCount winningCount totalOutcomes.
  unfold predictFromPatterns, predictFromSimilar.
  pose proof (findSimilarPatterns_at_most_20 coll recentCandles) as Hcap.
  subst outcomes upCount downCount winningCount totalOutcomes.
  set (similar := findSimilarPatterns coll recentCandles) in *.
  destruct similar as [|m rest] eqn:Hsim.
  - reflexivity.
  - rewrite <- Hsim in *. replace (List.length similar =? 0)%nat with false
      by (rewrite Hsim; reflexivity).
    rewrite tally_counts. cbn [ups downs direction confidence].
    rewrite !Z.add_0_l.
    rewrite (occurrences_total (outcomesOf similar)).
    assert (Hlen : List.length (outcomesOf similar) = List.length similar)
      by (unfold outcomesOf; apply length_map).
    assert (Hpos : 0 < Z.of_nat (List.length (outcomesOf similar))).
    { rewrite Hsim. simpl. lia. }
    pose proof (occurrences_total (outcomesOf similar)) as Htotal.
    assert (Hup : 0 <= occurrences up (outcomesOf similar))
      by (unfold occurrences; lia).
    assert (Hdown : 0 <= occurrences down (outcomesOf similar))
      by (unfold occurrences; lia).
    split; [rewrite Hsim; discriminate|].
    split; [intros H; apply Z.ltb_lt in H; rewrite H; reflexivity|].
    split; [intros H; replace (_ <? _) with false by (symmetry; apply Z.ltb_ge; lia);
            reflexivity|].
    split; [intros H; replace (_ <? _) with false by (symmetry; apply Z.ltb_ge; lia);
            reflexivity|].
    split; [reflexivity|].
    split; [rewrite mathRound_ratio by exact Hpos; reflexivity|].
    apply rounding_on_doubles; lia.
Qed.

(** *** Trend fallback *)

Definition reversal (d : Direction) : Direction :=
  match d with up => down | down => up end.

(** [streak] is the length of the run of [d] that ends the sequence: the
    sequence is some earlier part, not ending in [d], followed by [streak]
    copies of [d]. *)
Definition endsWithRun (directions : list Direction) (d : Direction) (streak : nat)
  : Prop :=
  (1 <= streak)%nat
  /\ exists earlier,
       directions = earlier ++ repeat d streak
       /\ hd_error (rev earlier) <> Some d.

Lemma rev_repeat {A : Type} (x : A) (n : nat) : rev (repeat x n) = repeat x n.
Proof.
  induction n as [|n IH]; [reflexivity|].
  simpl. rewrite IH. symmetry. apply repeat_cons.
Qed.

Lemma countConsecutive_run (d : Direction) (n : nat) (older : list Direction) (c : Z) :
  hd_error older <> Some d ->
  countConsecutive (Some d) (repeat d n ++ older) c = c + Z.of_nat n.
Proof.
  intros Holder. revert c.
  induction n as [|n IH]; intros c.
  - simpl. destruct older as [|x rest]; simpl; [lia|].
    destruct (Direction_eqb x d) eqn:E; [|lia].
    apply Direction_eqb_eq in E. subst x. exfalso. apply Holder. reflexivity.
  - simpl. replace (Direction_eqb d d) with true
      by (symmetry; apply Direction_eqb_eq; reflexivity).
    rewrite IH. lia.
Qed.

(** The loop of [predictFromTrend] computes the final run. *)
Lemma consecutiveCount_is_streak directions d streak :
  endsWithRun directions d streak ->
  hd_error (rev directions) = Some d
  /\ countConsecutive (Some d) (tl (rev directions)) 1 = Z.of_nat streak.
Proof.
  intros (Hpos & earlier & -> & Hearlier).
  rewrite rev_app_distr, rev_repeat.
  destruct streak as [|n]; [lia|].
  simpl. split; [reflexivity|].
  rewrite countConsecutive_run by exact Hearlier. lia.
Qed.

Lemma countDirection_occurrences (d : Direction) (directions : list Direction) :
  countDirection d directions = occurrences d directions.
Proof.
  unfold countDirection, occurrences. f_equal.
  induction directions as [|x rest IH]; [reflexivity|].
  destruct d, x; simpl; rewrite IH; reflexivity.
Qed.

(** C4: on the last five directions, a final run of three or more predicts
    the reversal of the last direction with confidence
    [min(95, 60 + streak*5)]; a shorter run predicts the majority direction
    with confidence [min(95, 55 + |upCount - downCount|*5)]. *)
Theorem trend_prediction (recentCandles : list CandleData) (d : Direction) (streak : nat) :
  List.length recentCandles = 5%nat ->
  endsWithRun (directionsOf recentCandles) d streak ->
  let directions := directionsOf recentCandles in
  let upCount := occurrences up directions in
  let downCount := occurrences down directions in
  let r := predictFromTrend recentCandles in
  ((3 <= streak)%nat ->
     direction r = reversal d
     /\ confidence r = Z.min 95 (60 + Z.of_nat streak * 5))
  /\ ((streak < 3)%nat ->
      2 * occurrences (direction r) directions > 5
      /\ confidence r = Z.min 95 (55 + Z.abs (upCount - downCount) * 5)).
Proof.
  intros Hlen Hrun directions upCount downCount r.
  destruct (consecutiveCount_is_streak _ _ _ Hrun) as [Hlast Hcount].
  assert (Htotal : upCount + downCount = 5).
  { unfold upCount, downCount. rewrite occurrences_total.
    unfold directions, directionsOf. rewrite length_map, Hlen. reflexivity. }
  unfold r, predictFromTrend, trendOf.
  rewrite Hlast, Hcount, !countDirection_occurrences.
  fold directions. fold upCount. fold downCount.
  cbn [direction confidence].
  split.
  - intros Hlong.
    replace (3 <=? Z.of_nat streak) with true by (symmetry; apply Z.leb_le; lia).
    split; [destruct d; reflexivity | reflexivity].
  - intros Hshort.
    replace (3 <=? Z.of_nat streak) with false by (symmetry; apply Z.leb_gt; lia).
    split; [|reflexivity].
    destruct (downCount <? upCount) eqn:E.
    + apply Z.ltb_lt in E. fold upCount. lia.
    + apply Z.ltb_ge in E. fold downCount. lia.
Qed.


(** Every non-empty sequence ends with a run, so the theorem covers every
    window. *)
Lemma final_run_exists (directions : list Direction) :
  directions <> [] -> exists d streak, endsWithRun directions d streak.
Proof.
  intros Hne.
  destruct (rev directions) as [|d earlier] eqn:Hrev.
  { apply (f_equal (@rev _)) in Hrev. rewrite rev_involutive in Hrev.
    simpl in Hrev. contradiction. }
  assert (Hsplit : exists n older,
             earlier = repeat d n ++ older /\ hd_error older <> Some d).
  { clear Hrev Hne. induction earlier as [|x rest IH].
    - exists 0%nat, []. split; [reflexivity | discriminate].
    - destruct (Direction_eq_dec x d) as [-> | Hx].
      + destruct IH as (n & older & -> & Hold).
        exists (S n), older. split; [reflexivity | exact Hold].
      + exists 0%nat, (x :: rest). split; [reflexivity|].
        simpl. intros E. injection E as E. contradiction. }
  destruct Hsplit as (n & older & -> & Hold).
  exists d, (S n). split; [lia|].
  exists (rev older). split.
  - apply (f_equal (@rev _)) in Hrev. rewrite rev_involutive in Hrev.
    rewrite Hrev. simpl. rewrite rev_app_distr, rev_repeat.
    rewrite <- app_assoc. f_equal. symmetry. apply repeat_cons.
  - rewrite rev_involutive. exact Hold.
Qed.

(** *** Fusion *)

(** The fusion rule with the tags the specification names. *)
Definition fusion_as_specified : Prop :=
  forall p t : PredictionData,
    (direction p = direction t ->
     exists r, combinePredictions (Some p) (Some t) = Some r
               /\ direction r = direction p
               /\ confidence r = Z.min 95 (confidence p + 10)
               /\ algorithmUsed r = "pattern_trend_confirmed"%string)
    /\ (direction p <> direction t ->
        exists r, combinePredictions (Some p) (Some t) = Some r
                  /\ direction r = direction p
                  /\ confidence r = Z.max 50 (confidence p - 15)
                  /\ algorithmUsed r = "pattern_trend_conflict"%string)
    /\ (exists r, combinePredictions None (Some t) = Some r
                  /\ direction r = direction t
                  /\ confidence r = confidence t
                  /\ algorithmUsed r = "trend_only"%string).

Definition samplePattern : PredictionData :=
  mkPredictionData up 67 "pattern_matching" (Some "pattern_up-down-up-down-up"%string)
    [] [up; down; up; down; up].

Definition sampleTrend : PredictionData :=
  mkPredictionData up 60 "trend_analysis" None [] [up; down; up; down; up].

(** C2, as stated, fails: the tags the code emits are not the ones named. *)
Lemma fusion_tags_differ : ~ fusion_as_specified.
Proof.
  intros Hclaim.
  destruct (Hclaim samplePattern sampleTrend) as (Hagree & _ & _).
  destruct (Hagree eq_refl) as (r & Hr & _ & _ & Htag).
  vm_compute in Hr. injection Hr as <-.
  vm_compute in Htag. discriminate Htag.
Qed.

(** C2, as amended: when both methods give a result and agree, the pattern
    direction with confidence [min(95, patternConfidence + 10)], tagged
    [pattern_matching_trend_confirmed]; when they disagree, the pattern
    direction with confidence [max(50, patternConfidence - 15)], tagged
    [pattern_matching_trend_conflict]; without a pattern result, the trend
    result unchanged, which carries the trend method's own tag
    [trend_analysis]. *)
Theorem fusion_rule (p t : PredictionData) :
  (direction p = direction t ->
   exists r, combinePredictions (Some p) (Some t) = Some r
             /\ direction r = direction p
             /\ confidence r = Z.min 95 (confidence p + 10)
             /\ algorithmUsed r = "pattern_matching_trend_confirmed"%string)
  /\ (direction p <> direction t ->
      exists r, combinePredictions (Some p) (Some t) = Some r
                /\ direction r = direction p
                /\ confidence r = Z.max 50 (confidence p - 15)
                /\ algorithmUsed r = "pattern_matching_trend_conflict"%string)
  /\ combinePredictions None (Some t) = Some t
  /\ (forall recentCandles,
        algorithmUsed (predictFromTrend recentCandles) = "trend_analysis"%string).
Proof.
  unfold combinePredictions. repeat split.
  - intros Hsame. apply Direction_eqb_eq in Hsame. rewrite Hsame.
    eexists. split; [reflexivity|]. repeat split.
  - intros Hdiff. apply Direction_eqb_neq in Hdiff. rewrite Hdiff.
    eexists. split; [reflexivity|]. repeat split.
Qed.

(** Twelve matches, eight followed by a rise and four by a fall, against a
    trend result that agrees and one that disagrees. *)
Definition twelveMatches : list SimilarPattern :=
  map (fun entry : nat * Direction =>
         mkSimilarPattern (Z.of_nat (fst entry) * 60000) [up; down; up; down; up]
           (snd entry) 100)
      (combine (seq 1 12) (repeat up 8 ++ repeat down 4)).

Example eight_rises_four_falls :
  option_map (fun r => (direction r, confidence r, algorithmUsed r))
    (predictFromSimilar [] twelveMatches)
  = Some (up, 67, "pattern_matching"%string)
  /\ option_map (fun r => (direction r, confidence r, algorithmUsed r))
       (combinePredictions (predictFromSimilar [] twelveMatches) (Some sampleTrend))
     = Some (up, 77, "pattern_matching_trend_confirmed"%string)
  /\ option_map (fun r => (direction r, confidence r, algorithmUsed r))
       (combinePredictions (predictFromSimilar [] twelveMatches)
          (Some (trendOf [down; up; up; up; up])))
     = Some (up, 52, "pattern_matching_trend_conflict"%string).
Proof. repeat split; vm_compute; reflexivity. Qed.

(** Three rises in a row and no pattern result: the trend fallback alone,
    predicting a fall with confidence 75. *)
Example three_rises_without_history :
  option_map (fun r => (direction r, confidence r, algorithmUsed r))
    (combinePredictions None (Some (trendOf [down; down; up; up; up])))
  = Some (down, 75, "trend_analysis"%string).
Proof. vm_compute. reflexivity. Qed.

(** Inside [generatePrediction] the trend result always exists, so the
    three cases above are the only ones. *)
Lemma generatePrediction_fuses (coll recentCandles : list CandleData) :
  (minCandlesRequired <= List.length recentCandles)%nat ->
  generatePrediction coll recentCandles
  = combinePredictions
      (predictFromPatterns coll (sliceLast 5 (rev recentCandles)))
      (Some (predictFromTrend (sliceLast 5 (rev recentCandles)))).
Proof.
  intros Hlen. unfold generatePrediction.
  replace (List.length recentCandles <? minCandlesRequired)%nat with false
    by (symmetry; apply Nat.ltb_ge; exact Hlen).
  reflexivity.
Qed.


(** *** Pattern search *)

Lemma in_insertBy {A : Type} (key : A -> Z) (x y : A) (l : list A) :
  In y (insertBy key x l) <-> y = x \/ In y l.
Proof.
  induction l as [|z rest IH]; simpl.
  - intuition.
  - destruct (key z <=? key x); simpl; rewrite ?IH; intuition.
Qed.

Lemma in_sortAscending {A : Type} (key : A -> Z) (y : A) (l : list A) :
  In y (sortAscending key l) <-> In y l.
Proof.
  unfold sortAscending.
  assert (H : forall acc, In y (fold_left (fun acc x => insertBy key x acc) l acc)
                          <-> In y l \/ In y acc).
  { induction l as [|x rest IH]; intros acc; simpl.
    - intuition.
    - rewrite IH, in_insertBy. intuition. }
  rewrite H. simpl. intuition.
Qed.

(** Non-decreasing keys along the list. *)
Definition ascending {A : Type} (key : A -> Z) (l : list A) : Prop :=
  StronglySorted (fun a b => key a <= key b) l.

Lemma insertBy_ascending {A : Type} (key : A -> Z) (x : A) (l : list A) :
  ascending key l -> ascending key (insertBy key x l).
Proof.
  unfold ascending.
  induction l as [|z rest IH]; intros Hs; simpl.
  - constructor; constructor.
  - inversion Hs as [|? ? Hrest Hall]; subst.
    destruct (key z <=? key x) eqn:E.
    + constructor; [apply IH; exact Hrest|].
      apply Forall_forall. intros y Hy. apply in_insertBy in Hy.
      destruct Hy as [-> | Hy]; [apply Z.leb_le; exact E|].
      rewrite Forall_forall in Hall. apply Hall. exact Hy.
    + apply Z.leb_gt in E. constructor; [exact Hs|].
      constructor; [lia|].
      rewrite Forall_forall in Hall |- *. intros y Hy. specialize (Hall y Hy). lia.
Qed.

Lemma sortAscending_ascending {A : Type} (key : A -> Z) (l : list A) :
  ascending key (sortAscending key l).
Proof.
  unfold sortAscending.
  assert (H : forall acc, ascending key acc ->
                          ascending key (fold_left (fun acc x => insertBy key x acc) l acc)).
  { induction l as [|x rest IH]; intros acc Hacc; simpl.
    - exact Hacc.
    - apply IH. apply insertBy_ascending. exact Hacc. }
  apply H. constructor.
Qed.

(** The observations the history query selects: same trading pair,
    strictly earlier than the first candle of the current window, in
    ascending time order. *)
Definition priorObservations (coll : list CandleData) (first : CandleData)
  : list CandleData :=
  sortAscending CandleDataModel.timestamp (filter (historicalQuery first) coll).

Lemma priorObservations_spec (coll : list CandleData) (first c : CandleData) :
  In c (priorObservations coll first)
  <-> In c coll
      /\ CandleDataModel.tradingPair c = CandleDataModel.tradingPair first
      /\ CandleDataModel.timestamp c < CandleDataModel.timestamp first.
Proof.
  unfold priorObservations, historicalQuery.
  rewrite in_sortAscending, filter_In, andb_true_iff, String.eqb_eq, Z.ltb_lt.
  tauto.
Qed.

(** The window starting at position [i] equals the signature position by
    position. *)
Definition matchesAt (directions target : list Direction) (i : nat) : Prop :=
  forall j, (j < List.length target)%nat ->
            nth_error directions (i + j) = nth_error target j.

(** The outcome recorded for a match at [i]: the time of the window's first
    observation and the direction of the observation right after the
    window. *)
Definition outcomeAt (historical : list CandleData) (k i : nat)
  : option (Z * Direction) :=
  match nth_error historical i, nth_error historical (i + k) with
  | Some w0, Some nextCandle =>
      Some (CandleDataModel.timestamp w0, CandleDataModel.direction nextCandle)
  | _, _ => None
  end.

Definition recorded (m : SimilarPattern) : option (Z * Direction) :=
  Some (matchTimestamp m, nextDirection m).

Lemma isMatch_from (w : list Direction) (target : list Direction) (s : nat) :
  forallb
    (fun entry : nat * Direction =>
       match nth_error w (fst entry) with
       | Some x => Direction_eqb (snd entry) x
       | None => false
       end)
    (combine (seq s (List.length target)) target) = true
  <-> forall j, (j < List.length target)%nat ->
                nth_error w (s + j) = nth_error target j.
Proof.
  revert s.
  induction target as [|d rest IH]; intros s; simpl.
  - split; [intros _ j Hj; lia | reflexivity].
  - rewrite andb_true_iff, IH. split.
    + intros [Hhead Hrest] [|j] Hj.
      * rewrite Nat.add_0_r. simpl.
        destruct (nth_error w s) as [x|]; [|discriminate].
        apply Direction_eqb_eq in Hhead. congruence.
      * rewrite Nat.add_succ_r. simpl. apply (Hrest j). lia.
    + intros H. split.
      * specialize (H 0%nat ltac:(lia)). rewrite Nat.add_0_r in H. simpl in H.
        rewrite H. apply Direction_eqb_eq. reflexivity.
      * intros j Hj. specialize (H (S j) ltac:(lia)).
        rewrite Nat.add_succ_r in H. exact H.
Qed.

Lemma isMatch_spec (target w : list Direction) :
  isMatch target w = true
  <-> forall j, (j < List.length target)%nat -> nth_error w j = nth_error target j.
Proof. unfold isMatch. rewrite isMatch_from. reflexivity. Qed.

Lemma nth_error_window (historical : list CandleData) (i k j : nat) :
  (j < k)%nat ->
  nth_error (directionsOf (slice i (i + k) historical)) j
  = nth_error (directionsOf historical) (i + j).
Proof.
  intros Hj. unfold directionsOf, slice.
  replace (i + k - i)%nat with k by lia.
  rewrite !nth_error_map, nth_error_firstn.
  replace (j <? k)%nat with true by (symmetry; apply Nat.ltb_lt; exact Hj).
  rewrite nth_error_skipn. reflexivity.
Qed.

Lemma window_matches (historical : list CandleData) (target : list Direction) (i : nat) :
  isMatch target (directionsOf (slice i (i + List.length target) historical)) = true
  <-> matchesAt (directionsOf historical) target i.
Proof.
  rewrite isMatch_spec. unfold matchesAt.
  split; intros H j Hj; specialize (H j Hj).
  - rewrite <- nth_error_window with (k := List.length target) by exact Hj. exact H.
  - rewrite nth_error_window by exact Hj. exact H.
Qed.


(** What the loop body pushes at a position inside the scanned range. *)
Lemma windowAt_recorded (historical : list CandleData) (target : list Direction)
    (i : nat) :
  (1 <= List.length target)%nat ->
  (i + List.length target < List.length historical)%nat ->
  map recorded (windowAt historical target i)
  = if isMatch target
         (directionsOf (slice i (i + List.length target) historical))
    then [outcomeAt historical (List.length target) i]
    else [].
Proof.
  intros Hk Hi. unfold windowAt, outcomeAt.
  destruct (isMatch target _); [|reflexivity].
  destruct (nth_error historical (i + List.length target)) as [nextCandle|] eqn:Hnext.
  2:{ apply nth_error_None in Hnext. lia. }
  unfold slice. replace (i + List.length target - i)%nat with (List.length target) by lia.
  destruct (List.length target) as [|k'] eqn:Hlen; [lia|].
  pose proof (nth_error_skipn i historical 0) as Hskip.
  rewrite Nat.add_0_r in Hskip.
  destruct (skipn i historical) as [|w0 others] eqn:Hsk.
  - simpl in Hskip. symmetry in Hskip. apply nth_error_None in Hskip. lia.
  - simpl in Hskip. rewrite <- Hskip. reflexivity.
Qed.

Lemma flat_map_recorded {A B C : Type} (f : A -> list B) (g : A -> bool)
    (r : B -> C) (o : A -> C) (l : list A) :
  (forall i, In i l -> map r (f i) = if g i then [o i] else []) ->
  map r (flat_map f l) = map o (filter g l).
Proof.
  induction l as [|x rest IH]; intros H; [reflexivity|].
  simpl. rewrite map_app, H by (left; reflexivity).
  rewrite IH by (intros i Hi; apply H; right; exact Hi).
  destruct (g x); reflexivity.
Qed.

Lemma seq_increasing (a n : nat) : StronglySorted lt (seq a n).
Proof.
  revert a. induction n as [|n IH]; intros a; simpl; constructor.
  - apply IH.
  - apply Forall_forall. intros x Hx. apply in_seq in Hx. lia.
Qed.

Lemma filter_increasing (g : nat -> bool) (l : list nat) :
  StronglySorted lt l -> StronglySorted lt (filter g l).
Proof.
  induction 1 as [|x rest Hs IH Hall]; simpl; [constructor|].
  destruct (g x); [|exact IH].
  constructor; [exact IH|].
  rewrite Forall_forall in Hall |- *.
  intros y Hy. apply filter_In in Hy. apply Hall. tauto.
Qed.

(** The positions at which the code finds a match in [historical]. *)
Definition matchPositions (historical : list CandleData) (target : list Direction)
  : list nat :=
  filter
    (fun i => isMatch target
                (directionsOf (slice i (i + List.length target) historical)))
    (seq 0 (List.length historical - List.length target)).

Lemma matchPositions_spec (historical : list CandleData) (target : list Direction)
    (i : nat) :
  In i (matchPositions historical target)
  <-> (i + List.length target < List.length historical)%nat
      /\ matchesAt (directionsOf historical) target i.
Proof.
  unfold matchPositions. rewrite filter_In, in_seq, window_matches.
  split; intros [H1 H2]; (split; [lia | exact H2]).
Qed.

Lemma slidingWindow_recorded (historical : list CandleData) (target : list Direction) :
  (1 <= List.length target)%nat ->
  map recorded (slidingWindow historical target)
  = map (outcomeAt historical (List.length target)) (matchPositions historical target).
Proof.
  intros Hk. unfold slidingWindow, matchPositions.
  apply flat_map_recorded.
  intros i Hi. apply in_seq in Hi.
  apply windowAt_recorded; lia.
Qed.

(** The search as the specification words it: the most recent 1000 prior
    observations are scanned and every match is recorded. *)
Definition sameDirections (a b : list Direction) : bool :=
  if list_eq_dec Direction_eq_dec a b then true else false.

Definition patternSearchAsSpecified (coll : list CandleData)
    (recentCandles : list CandleData) : list (option (Z * Direction)) :=
  match recentCandles with
  | [] => []
  | first :: _ =>
      let target := directionsOf recentCandles in
      let k := List.length target in
      let scanned := sliceLast 1000 (priorObservations coll first) in
      map (outcomeAt scanned k)
        (filter
           (fun i => sameDirections (firstn k (skipn i (directionsOf scanned))) target)
           (seq 0 (List.length scanned - k)))
  end.

Lemma sameDirections_window (historical : list CandleData) (target : list Direction)
    (i : nat) :
  (i + List.length target < List.length historical)%nat ->
  sameDirections (firstn (List.length target) (skipn i (directionsOf historical))) target
  = isMatch target (directionsOf (slice i (i + List.length target) historical)).
Proof.
  intros Hi.
  assert (Hwin : directionsOf (slice i (i + List.length target) historical)
                 = firstn (List.length target) (skipn i (directionsOf historical))).
  { unfold directionsOf, slice.
    replace (i + List.length target - i)%nat with (List.length target) by lia.
    rewrite skipn_map, firstn_map. reflexivity. }
  rewrite Hwin.
  set (w := firstn (List.length target) (skipn i (directionsOf historical))).
  assert (Hlen : List.length w = List.length target).
  { unfold w. rewrite length_firstn, length_skipn.
    unfold directionsOf. rewrite length_map. lia. }
  unfold sameDirections.
  destruct (list_eq_dec Direction_eq_dec w target) as [Heq | Hne].
  - symmetry. apply isMatch_spec. intros j _. rewrite Heq. reflexivity.
  - destruct (isMatch target w) eqn:E; [|reflexivity].
    exfalso. apply Hne. apply nth_error_ext. intros j.
    destruct (Nat.lt_ge_cases j (List.length target)) as [Hj | Hj].
    + rewrite isMatch_spec in E. apply E. exact Hj.
    + assert (H1 : nth_error w j = None) by (apply nth_error_None; lia).
      assert (H2 : nth_error target j = None) by (apply nth_error_None; lia).
      congruence.
Qed.


Lemma sliceLast_all {A : Type} (n : nat) (l : list A) :
  (List.length l <= n)%nat -> sliceLast n l = l.
Proof.
  intros H. unfold sliceLast.
  replace (List.length l - n)%nat with 0%nat by lia. reflexivity.
Qed.

(** C5, as amended: when at most 1000 observations of the pair precede the
    current window, the search slides a window of the signature's length
    over all of them in ascending time order, a position matches exactly
    when the window equals the signature position by position, the outcome
    of a match is the direction of the observation right after the window,
    and the first 20 matches, oldest first, are the ones returned to the
    tally. *)
Theorem pattern_search_within_limit (coll : list CandleData) (first : CandleData)
    (rest : list CandleData) :
  let recentCandles := first :: rest in
  let target := directionsOf recentCandles in
  let k := List.length target in
  let prior := priorObservations coll first in
  (List.length prior <= 1000)%nat ->
  (forall c, In c prior
             <-> In c coll
                 /\ CandleDataModel.tradingPair c = CandleDataModel.tradingPair first
                 /\ CandleDataModel.timestamp c < CandleDataModel.timestamp first)
  /\ ascending CandleDataModel.timestamp prior
  /\ exists positions : list nat,
      StronglySorted lt positions
      /\ (forall i, In i positions
                    <-> (i + k < List.length prior)%nat
                        /\ matchesAt (directionsOf prior) target i)
      /\ patternSearchAsSpecified coll recentCandles = map (outcomeAt prior k) positions
      /\ map recorded (findSimilarPatterns coll recentCandles)
         = map (outcomeAt prior k) (firstn 20 positions).
Proof.
  intros recentCandles target k prior Hlimit.
  assert (Hk : (1 <= List.length target)%nat) by (simpl; lia).
  split; [intros c; apply priorObservations_spec|].
  split; [apply sortAscending_ascending|].
  exists (matchPositions prior target).
  split; [apply filter_increasing, seq_increasing|].
  split; [intros i; apply matchPositions_spec|].
  split.
  - unfold patternSearchAsSpecified, recentCandles. fold recentCandles target prior.
    rewrite sliceLast_all by exact Hlimit. fold k.
    unfold matchPositions. f_equal.
    apply filter_ext_in. intros i Hi. apply in_seq in Hi.
    apply sameDirections_window. fold k. lia.
  - unfold findSimilarPatterns, recentCandles, historicalCandles.
    fold recentCandles target prior. fold (priorObservations coll first). fold prior.
    rewrite firstn_all2 by exact Hlimit.
    unfold slice. rewrite Nat.sub_0_r. simpl skipn.
    rewrite <- firstn_map, slidingWindow_recorded by exact Hk.
    rewrite firstn_map. reflexivity.
Qed.

(** Sample observations, one minute apart. *)
Definition sampleCandle (minute : Z) (d : Direction) : CandleData :=
  CandleDataModel.mkCandleData (minute * 60000) "EUR/USD OTC" 60
    (match d with up => 108 # 100 | down => 10805 # 10000 end)
    (1081 # 1000) (1079 # 1000)
    (match d with up => 10805 # 10000 | down => 108 # 100 end)
    d "mock" 80 "quotex-session-1".

Definition sampleHistory (directions : list Direction) : list CandleData :=
  map (fun entry : nat * Direction => sampleCandle (Z.of_nat (fst entry)) (snd entry))
      (combine (seq 1 (List.length directions)) directions).

Lemma trend_prediction_witness :
  List.length (sampleHistory [down; up; up; up; up]) = 5%nat
  /\ endsWithRun (directionsOf (sampleHistory [down; up; up; up; up])) up 4
  /\ direction (predictFromTrend (sampleHistory [down; up; up; up; up])) = down
  /\ confidence (predictFromTrend (sampleHistory [down; up; up; up; up])) = 80.
Proof.
  assert (Hrun : endsWithRun (directionsOf (sampleHistory [down; up; up; up; up])) up 4).
  { split; [apply Nat.leb_le; reflexivity|].
    exists [down]. split; [reflexivity | discriminate]. }
  split; [reflexivity|]. split; [exact Hrun|].
  apply (proj1 (trend_prediction (sampleHistory [down; up; up; up; up]) up 4
                  eq_refl Hrun)).
  apply Nat.leb_le. reflexivity.
Defined.

(** Eight observations, then the current window of five. *)
Definition shortHistory : list CandleData :=
  sampleHistory [up; down; up; down; up; down; up; down; up; down; up; down; up].

Lemma pattern_search_within_limit_witness :
  (List.length (priorObservations shortHistory (sampleCandle 9 up)) <= 1000)%nat
  /\ exists positions : list nat,
       StronglySorted lt positions
       /\ (forall i,
             In i positions
             <-> (i + 5 < List.length (priorObservations shortHistory (sampleCandle 9 up)))%nat
                 /\ matchesAt
                      (directionsOf (priorObservations shortHistory (sampleCandle 9 up)))
                      [up; down; up; down; up] i)
       /\ patternSearchAsSpecified shortHistory (sliceLast 5 shortHistory)
          = map (outcomeAt (priorObservations shortHistory (sampleCandle 9 up)) 5)
              positions
       /\ map recorded (findSimilarPatterns shortHistory (sliceLast 5 shortHistory))
          = map (outcomeAt (priorObservations shortHistory (sampleCandle 9 up)) 5)
              (firstn 20 positions).
Proof.
  assert (H : (List.length (priorObservations shortHistory (sampleCandle 9 up))
               <= 1000)%nat) by (apply Nat.leb_le; vm_compute; reflexivity).
  split; [exact H|].
  exact (proj2 (proj2 (pattern_search_within_limit shortHistory (sampleCandle 9 up)
                         [sampleCandle 10 down; sampleCandle 11 up; sampleCandle 12 down;
                          sampleCandle 13 up] H))).
Defined.

(** What the search returns on that history: the two earlier occurrences of
    the signature, each followed by a falling observation. *)
Lemma short_history_matches :
  map recorded (findSimilarPatterns shortHistory (sliceLast 5 shortHistory))
  = [Some (60000, down); Some (180000, down)].
Proof. vm_compute. reflexivity. Qed.

(** Thirty rising observations, then a current window of five rising ones:
    twenty-five windows match. *)
Definition risingHistory : list CandleData := sampleHistory (repeat up 35).

(** C5, as stated, fails: only the first 20 matches reach the tally. *)
Lemma search_keeps_first_20_matches :
  ~ (forall coll recentCandles,
        map recorded (findSimilarPatterns coll recentCandles)
        = patternSearchAsSpecified coll recentCandles).
Proof.
  intros Hclaim.
  specialize (Hclaim risingHistory (sliceLast 5 risingHistory)).
  apply (f_equal (@List.length _)) in Hclaim.
  vm_compute in Hclaim. discriminate Hclaim.
Qed.

(** A thousand falling observations, then six rising ones, then a current
    window of five rising ones. *)
Definition longHistory : list CandleData :=
  sampleHistory (repeat down 1000 ++ repeat up 11).

(** Past 1000 prior observations the query keeps the oldest thousand: the
    one match among the most recent observations is not found. *)
Lemma search_beyond_limit :
  findSimilarPatterns longHistory (sliceLast 5 longHistory) = []
  /\ patternSearchAsSpecified longHistory (sliceLast 5 longHistory)
     = [Some (60060000, up)].
Proof. split; vm_compute; reflexivity. Qed.


(** *** Verification *)

Lemma find_updateFirst {A : Type} (p : A -> bool) (x y : A) (l : list A) :
  find p l = Some x -> p y = true ->
  find p (updateFirst p (fun _ => y) l) = Some y.
Proof.
  intros Hfind Hy.
  induction l as [|z rest IH]; simpl in *; [discriminate|].
  destruct (p z) eqn:E; simpl.
  - rewrite Hy. reflexivity.
  - rewrite E. apply IH. exact Hfind.
Qed.

Lemma updateFirst_twice {A : Type} (p : A -> bool) (y z : A) (l : list A) :
  p y = true ->
  updateFirst p (fun _ => z) (updateFirst p (fun _ => y) l)
  = updateFirst p (fun _ => z) l.
Proof.
  intros Hy.
  induction l as [|x rest IH]; simpl; [reflexivity|].
  destruct (p x) eqn:E; simpl.
  - rewrite Hy. reflexivity.
  - rewrite E, IH. reflexivity.
Qed.

Lemma graded_again now1 now2 p c1 c2 :
  graded now2 (graded now1 p c1) c2 = graded now2 p c2.
Proof. reflexivity. Qed.

Lemma find_hasId predictionId coll p :
  find (hasId predictionId) coll = Some p -> hasId predictionId p = true.
Proof. intros H. apply find_some in H. tauto. Qed.

(** Grading leaves the fields the schema checks as they were, and its own
    [accuracy] is 0 or 100: a grading passes the schema exactly when the
    stored record's algorithm tag and confidence do. *)
Lemma validPrediction_graded now p c :
  PredictionModel.validPrediction (graded now p c)
  = existsb (String.eqb (PredictionModel.algorithmUsed p)) PredictionModel.algorithms
    && PredictionModel.withinPercent (PredictionModel.confidence p).
Proof.
  unfold PredictionModel.validPrediction, graded.
  cbn [PredictionModel.algorithmUsed PredictionModel.confidence PredictionModel.accuracy].
  destruct (Direction_eqb _ _); cbn; apply andb_true_r.
Qed.

(** C8, as amended: on a stored record, a verification run whose save is
    accepted (the graded record passes the schema and the database takes
    the write) writes [actualResult] with the actual direction, [correct]
    telling whether the predicted direction equals it, and [verifiedAt] the
    time of the run; a run whose save is refused returns nothing and leaves
    the collection as it was. Every accepted run writes the grading anew,
    so verifying an already graded record again stores the later grading,
    exactly as if the earlier run had not happened. *)
Theorem verification_overwrites (saveSucceeds : PredictionModel.Prediction -> bool)
    (now1 now2 : Z) (coll : list PredictionModel.Prediction) (predictionId : nat)
    (c1 c2 : CandleData) (p : PredictionModel.Prediction) :
  find (hasId predictionId) coll = Some p ->
  let once := verifyPrediction saveSucceeds now1 coll predictionId c1 in
  let again := verifyPrediction saveSucceeds now2 (snd once) predictionId c2 in
  (saved saveSucceeds (graded now1 p c1) = true ->
   fst once = Some (graded now1 p c1)
   /\ find (hasId predictionId) (snd once) = Some (graded now1 p c1)
   /\ PredictionModel.actualResult (graded now1 p c1)
      = Some (PredictionModel.mkActualResult
                (CandleDataModel.direction c1) (CandleDataModel.close c1) now1
                (Direction_eqb (PredictionModel.direction p)
                   (CandleDataModel.direction c1)))
   /\ (Direction_eqb (PredictionModel.direction p) (CandleDataModel.direction c1) = true
       <-> PredictionModel.direction p = CandleDataModel.direction c1))
  /\ (saved saveSucceeds (graded now1 p c1) = false -> once = (None, coll))
  /\ (saved saveSucceeds (graded now2 p c2) = true ->
      fst again = Some (graded now2 p c2)
      /\ snd again = snd (verifyPrediction saveSucceeds now2 coll predictionId c2))
  /\ (saved saveSucceeds (graded now2 p c2) = false -> again = (None, snd once)).
Proof.
  intros Hfind once again.
  pose proof (find_hasId _ _ _ Hfind) as Hid.
  assert (Hid1 : hasId predictionId (graded now1 p c1) = true) by exact Hid.
  assert (Hdirect : forall now c,
             verifyPrediction saveSucceeds now coll predictionId c
             = if saved saveSucceeds (graded now p c)
               then (Some (graded now p c),
                     updateFirst (hasId predictionId) (fun _ => graded now p c) coll)
               else (None, coll)).
  { intros now c. unfold verifyPrediction. rewrite Hfind. reflexivity. }
  assert (Hstored : saved saveSucceeds (graded now1 p c1) = true ->
                    find (hasId predictionId) (snd once) = Some (graded now1 p c1)).
  { intros Hsave. unfold once. rewrite Hdirect, Hsave. cbn [snd].
    apply find_updateFirst with (x := p); assumption. }
  assert (Hagain : again
                   = if saved saveSucceeds (graded now2 p c2)
                     then (Some (graded now2 p c2),
                           updateFirst (hasId predictionId)
                             (fun _ => graded now2 p c2) (snd once))
                     else (None, snd once)).
  { unfold again.
    destruct (saved saveSucceeds (graded now1 p c1)) eqn:Hsave1.
    - unfold verifyPrediction at 1. rewrite (Hstored eq_refl), graded_again.
      reflexivity.
    - unfold once. rewrite (Hdirect now1), Hsave1. cbn [snd]. apply Hdirect. }
  split; [|split; [|split]].
  - intros Hsave. split; [unfold once; rewrite Hdirect, Hsave; reflexivity|].
    split; [exact (Hstored Hsave)|].
    split; [reflexivity | apply Direction_eqb_eq].
  - intros Hsave. unfold once. rewrite Hdirect, Hsave. reflexivity.
  - intros Hsave. rewrite Hagain, Hdirect, Hsave. cbn [fst snd].
    split; [reflexivity|].
    unfold once. rewrite (Hdirect now1).
    destruct (saved saveSucceeds (graded now1 p c1)); cbn [snd]; [|reflexivity].
    apply updateFirst_twice. exact Hid1.
  - intros Hsave. rewrite Hagain, Hsave. reflexivity.
Qed.

(** A database that takes every write. *)
Definition acceptEvery (_ : PredictionModel.Prediction) : bool := true.

(** A stored prediction of [up], not yet graded. *)
Definition openPrediction : PredictionModel.Prediction :=
  PredictionModel.mkPrediction 0 600000 "EUR/USD OTC" up 65 "pattern_matching" None []
    "quotex-session-1" None None false.

Lemma verification_overwrites_witness :
  fst (verifyPrediction acceptEvery 660000 [openPrediction] 0 (sampleCandle 11 down))
  = Some (graded 660000 openPrediction (sampleCandle 11 down))
  /\ PredictionModel.actualResult (graded 660000 openPrediction (sampleCandle 11 down))
     = Some (PredictionModel.mkActualResult down (108 # 100) 660000 false)
  /\ fst (verifyPrediction acceptEvery 720000
            (snd (verifyPrediction acceptEvery 660000 [openPrediction] 0
                    (sampleCandle 11 down)))
            0 (sampleCandle 12 up))
     = Some (graded 720000 openPrediction (sampleCandle 12 up)).
Proof.
  destruct (verification_overwrites acceptEvery 660000 720000 [openPrediction] 0
              (sampleCandle 11 down) (sampleCandle 12 up) openPrediction eq_refl)
    as (Hfirst & _ & Hsecond & _).
  destruct (Hfirst eq_refl) as (H1 & _ & H3 & _).
  destruct (Hsecond eq_refl) as (H5 & _).
  split; [exact H1|]. split; [exact H3|]. exact H5.
Defined.

(** A record whose algorithm tag is not one the schema lists is never
    graded: the save of the grading is refused whatever the database does. *)
Lemma trend_record_is_never_graded saveSucceeds now actualCandle :
  let trendRecord :=
    PredictionModel.mkPrediction 0 600000 "EUR/USD OTC" up 65 "trend_analysis" None []
      "quotex-session-1" None None false in
  verifyPrediction saveSucceeds now [trendRecord] 0 actualCandle = (None, [trendRecord]).
Proof. reflexivity. Qed.

(** C8, as stated, fails: a record graded incorrect against a falling
    observation is regraded correct by a second run against a rising one. *)
Lemma verification_regrades :
  ~ (forall saveSucceeds now coll predictionId actualCandle p,
        find (hasId predictionId) coll = Some p ->
        PredictionModel.actualResult p <> None ->
        snd (verifyPrediction saveSucceeds now coll predictionId actualCandle) = coll).
Proof.
  intros Hclaim.
  specialize (Hclaim acceptEvery 720000
                [graded 660000 openPrediction (sampleCandle 11 down)] 0%nat
                (sampleCandle 12 up)
                (graded 660000 openPrediction (sampleCandle 11 down))
                eq_refl ltac:(discriminate)).
  vm_compute in Hclaim. discriminate Hclaim.
Qed.

End PredictionProperties.

(** ** Double arithmetic: rounding is monotone and idempotent *)

Module Binary64Properties.
Import Binary64.

Lemma two_nonzero : ~ (2 == 0)%Q.
Proof. discriminate. Qed.

Lemma twoTo_positive (e : Z) : (0 < 2 ^ e)%Q.
Proof. apply Qpower_0_lt. reflexivity. Qed.

Lemma twoTo_succ (e : Z) : (2 ^ (e + 1) == 2 * 2 ^ e)%Q.
Proof. rewrite Qpower_plus by exact two_nonzero. simpl (2 ^ 1)%Q. ring. Qed.

Lemma twoTo_inject (a : Z) : 0 <= a -> (inject_Z (2 ^ a) == 2 ^ a)%Q.
Proof. intros H. rewrite Zpower_Qpower by exact H. reflexivity. Qed.

Lemma log2_bounds (n : Z) :
  0 < n -> (2 ^ Z.log2 n <= inject_Z n)%Q /\ (inject_Z n < 2 ^ (Z.log2 n + 1))%Q.
Proof.
  intros Hn. destruct (Z.log2_spec n Hn) as [Hlo Hhi].
  pose proof (Z.log2_nonneg n) as Hnn.
  split.
  - rewrite <- twoTo_inject by exact Hnn. rewrite <- Zle_Qle. exact Hlo.
  - rewrite <- twoTo_inject by lia. rewrite <- Zlt_Qlt.
    replace (Z.log2 n + 1) with (Z.succ (Z.log2 n)) by lia. exact Hhi.
Qed.

Lemma binade_spec (x : Q) :
  (0 < x)%Q -> (2 ^ binade x <= x)%Q /\ (x < 2 ^ (binade x + 1))%Q.
Proof.
  intros Hx. unfold binade.
  destruct x as [n d]. cbn [Qnum Qden].
  assert (Hn : 0 < n) by (unfold Qlt in Hx; simpl in Hx; lia).
  destruct (log2_bounds n Hn) as [Hnlo Hnhi].
  destruct (log2_bounds (Z.pos d) ltac:(lia)) as [Hdlo Hdhi].
  set (a := Z.log2 n) in *. set (b := Z.log2 (Z.pos d)) in *.
  assert (Hval : (n # d == inject_Z n / inject_Z (Z.pos d))%Q)
    by apply Qmake_Qdiv.
  assert (Hdpos : (0 < inject_Z (Z.pos d))%Q) by (unfold Qlt; simpl; lia).
  assert (Hlow : (2 ^ (a - b - 1) <= n # d)%Q).
  { rewrite Hval. apply Qle_shift_div_l; [exact Hdpos|].
    apply Qle_trans with (y := (2 ^ (a - b - 1) * 2 ^ (b + 1))%Q).
    - apply Qmult_le_l; [apply twoTo_positive | apply Qlt_le_weak; exact Hdhi].
    - rewrite <- Qpower_plus by exact two_nonzero.
      replace (a - b - 1 + (b + 1)) with a by lia. exact Hnlo. }
  assert (Hhigh : (n # d < 2 ^ (a - b + 1))%Q).
  { rewrite Hval. apply Qlt_shift_div_r; [exact Hdpos|].
    apply Qlt_le_trans with (y := (2 ^ (a + 1))%Q); [exact Hnhi|].
    replace (a + 1) with (a - b + 1 + b) by lia.
    rewrite Qpower_plus by exact two_nonzero.
    apply Qmult_le_l; [apply twoTo_positive | exact Hdlo]. }
  destruct (Qle_bool (2 ^ (a - b)) (n # d)) eqn:Htest.
  - apply Qle_bool_iff in Htest. split; assumption.
  - split; [exact Hlow|].
    replace (a - b - 1 + 1) with (a - b) by lia.
    apply Qnot_le_lt. intros Hle. apply Qle_bool_iff in Hle. congruence.
Qed.

Lemma binade_unique (x : Q) (e : Z) :
  (2 ^ e <= x)%Q -> (x < 2 ^ (e + 1))%Q -> binade x = e.
Proof.
  intros Hlo Hhi.
  assert (Hx : (0 < x)%Q) by (eapply Qlt_le_trans; [apply twoTo_positive | exact Hlo]).
  destruct (binade_spec x Hx) as [Blo Bhi].
  assert (H1 : e < binade x + 1).
  { apply (Qpower_lt_compat_l_inv 2); [|reflexivity].
    eapply Qle_lt_trans; eassumption. }
  assert (H2 : binade x < e + 1).
  { apply (Qpower_lt_compat_l_inv 2); [|reflexivity].
    eapply Qle_lt_trans; eassumption. }
  lia.
Qed.

Lemma binade_monotone (x y : Q) :
  (0 < x)%Q -> (x <= y)%Q -> binade x <= binade y.
Proof.
  intros Hx Hxy.
  assert (Hy : (0 < y)%Q) by (eapply Qlt_le_trans; eassumption).
  destruct (binade_spec x Hx) as [Xlo _].
  destruct (binade_spec y Hy) as [_ Yhi].
  assert (H : binade x < binade y + 1).
  { apply (Qpower_lt_compat_l_inv 2); [|reflexivity].
    eapply Qle_lt_trans; [exact Xlo|]. eapply Qle_lt_trans; eassumption. }
  lia.
Qed.

(** Rounding to the nearest integer *)

Lemma roundHalfEven_cases (x : Q) :
  roundHalfEven x = Qfloor x \/ roundHalfEven x = Qfloor x + 1.
Proof.
  unfold roundHalfEven.
  destruct (x - inject_Z (Qfloor x) ?= 1 # 2)%Q; [destruct (Z.even (Qfloor x))| |]; tauto.
Qed.

Lemma roundHalfEven_monotone (x y : Q) :
  (x <= y)%Q -> roundHalfEven x <= roundHalfEven y.
Proof.
  intros Hxy.
  pose proof (Qfloor_resp_le x y Hxy) as Hfloor.
  destruct (Z.eq_dec (Qfloor x) (Qfloor y)) as [Heq | Hne].
  - unfold roundHalfEven. rewrite <- Heq.
    destruct (x - inject_Z (Qfloor x) ?= 1 # 2)%Q eqn:Ex;
      destruct (y - inject_Z (Qfloor x) ?= 1 # 2)%Q eqn:Ey;
      repeat match goal with
             | H : (_ ?= _)%Q = Eq |- _ => apply Qeq_alt in H
             | H : (_ ?= _)%Q = Lt |- _ => apply Qlt_alt in H
             | H : (_ ?= _)%Q = Gt |- _ => apply Qgt_alt in H
             end;
      try (destruct (Z.even (Qfloor x))); try lia; exfalso; lra.
  - destruct (roundHalfEven_cases x) as [-> | ->];
      destruct (roundHalfEven_cases y) as [-> | ->]; lia.
Qed.

Lemma roundHalfEven_integer (z : Z) : roundHalfEven (inject_Z z) = z.
Proof.
  unfold roundHalfEven. rewrite Qfloor_Z.
  replace (inject_Z z - inject_Z z ?= 1 # 2)%Q with Lt; [reflexivity|].
  symmetry. apply Qlt_alt.
  setoid_replace (inject_Z z - inject_Z z)%Q with 0%Q by ring. reflexivity.
Qed.

Lemma roundHalfEven_comp (x y : Q) : (x == y)%Q -> roundHalfEven x = roundHalfEven y.
Proof.
  intros H. apply Z.le_antisymm; apply roundHalfEven_monotone; rewrite H; apply Qle_refl.
Qed.

Lemma roundHalfEven_at_least (z : Z) (x : Q) :
  (inject_Z z <= x)%Q -> z <= roundHalfEven x.
Proof.
  intros H. rewrite <- (roundHalfEven_integer z). apply roundHalfEven_monotone. exact H.
Qed.

Lemma roundHalfEven_at_most (z : Z) (x : Q) :
  (x <= inject_Z z)%Q -> roundHalfEven x <= z.
Proof.
  intros H. rewrite <- (roundHalfEven_integer z). apply roundHalfEven_monotone. exact H.
Qed.

Lemma ulpExponent_monotone (x y : Q) :
  (0 < x)%Q -> (x <= y)%Q -> ulpExponent x <= ulpExponent y.
Proof.
  intros Hx Hxy. unfold ulpExponent.
  pose proof (binade_monotone x y Hx Hxy). lia.
Qed.

Lemma scaled_by_power (x : Q) (u : Z) : (x / 2 ^ u * 2 ^ u == x)%Q.
Proof. field. apply Qpower_not_0. exact two_nonzero. Qed.

Lemma power_quotient (a b : Z) : (2 ^ a / 2 ^ b == 2 ^ (a - b))%Q.
Proof. symmetry. apply Qpower_minus. exact two_nonzero. Qed.

Lemma divide_le (x y : Q) (u : Z) : (x <= y)%Q -> (x / 2 ^ u <= y / 2 ^ u)%Q.
Proof.
  intros H. unfold Qdiv. apply Qmult_le_compat_r; [exact H|].
  apply Qlt_le_weak, Qinv_lt_0_compat, twoTo_positive.
Qed.

Lemma nearestPositive_nonnegative (x : Q) : (0 < x)%Q -> (0 <= nearestPositive x)%Q.
Proof.
  intros Hx. unfold nearestPositive.
  apply Qmult_le_0_compat; [|apply Qlt_le_weak, twoTo_positive].
  change 0%Q with (inject_Z 0). rewrite <- Zle_Qle.
  apply roundHalfEven_at_least. change (inject_Z 0) with 0%Q.
  apply Qle_shift_div_l; [apply twoTo_positive|]. lra.
Qed.

(** A positive number is at most the power of two above its binade, and
    its nearest double too. *)
Lemma nearestPositive_below (x : Q) (e : Z) :
  (0 < x)%Q -> (x <= 2 ^ e)%Q -> ulpExponent x <= e ->
  (nearestPositive x <= 2 ^ e)%Q.
Proof.
  intros Hx Hle Hu. unfold nearestPositive.
  set (u := ulpExponent x) in *.
  assert (Hscaled : (x / 2 ^ u <= inject_Z (2 ^ (e - u)))%Q).
  { rewrite twoTo_inject by lia. rewrite <- power_quotient. apply divide_le. exact Hle. }
  apply roundHalfEven_at_most in Hscaled.
  apply Qle_trans with (y := (inject_Z (2 ^ (e - u)) * 2 ^ u)%Q).
  - apply Qmult_le_compat_r; [|apply Qlt_le_weak, twoTo_positive].
    rewrite <- Zle_Qle. exact Hscaled.
  - rewrite twoTo_inject by lia. rewrite <- Qpower_plus by exact two_nonzero.
    replace (e - u + u) with e by lia. apply Qle_refl.
Qed.

Lemma nearestPositive_above (x : Q) (e : Z) :
  (2 ^ e <= x)%Q -> ulpExponent x <= e ->
  (2 ^ e <= nearestPositive x)%Q.
Proof.
  intros Hle Hu. unfold nearestPositive.
  set (u := ulpExponent x) in *.
  assert (Hscaled : (inject_Z (2 ^ (e - u)) <= x / 2 ^ u)%Q).
  { rewrite twoTo_inject by lia. rewrite <- power_quotient. apply divide_le. exact Hle. }
  apply roundHalfEven_at_least in Hscaled.
  apply Qle_trans with (y := (inject_Z (2 ^ (e - u)) * 2 ^ u)%Q).
  - rewrite twoTo_inject by lia. rewrite <- Qpower_plus by exact two_nonzero.
    replace (e - u + u) with e by lia. apply Qle_refl.
  - apply Qmult_le_compat_r; [|apply Qlt_le_weak, twoTo_positive].
    rewrite <- Zle_Qle. exact Hscaled.
Qed.

Lemma nearestPositive_monotone (x y : Q) :
  (0 < x)%Q -> (x <= y)%Q -> (nearestPositive x <= nearestPositive y)%Q.
Proof.
  intros Hx Hxy.
  assert (Hy : (0 < y)%Q) by (eapply Qlt_le_trans; eassumption).
  pose proof (ulpExponent_monotone x y Hx Hxy) as Hu.
  destruct (Z.eq_dec (ulpExponent x) (ulpExponent y)) as [Heq | Hne].
  - unfold nearestPositive. rewrite <- Heq.
    apply Qmult_le_compat_r; [|apply Qlt_le_weak, twoTo_positive].
    rewrite <- Zle_Qle. apply roundHalfEven_monotone, divide_le, Hxy.
  - assert (Hlt : ulpExponent x < ulpExponent y) by lia.
    destruct (binade_spec x Hx) as [_ Xhi].
    destruct (binade_spec y Hy) as [Ylo _].
    unfold ulpExponent in Hlt.
    apply Qle_trans with (y := (2 ^ binade y)%Q).
    + apply nearestPositive_below; [exact Hx | | unfold ulpExponent; lia].
      apply Qle_trans with (y := (2 ^ (binade x + 1))%Q);
        [apply Qlt_le_weak; exact Xhi|].
      apply Qpower_le_compat_l; [lia | discriminate].
    + apply nearestPositive_above; [exact Ylo | unfold ulpExponent; lia].
Qed.

Lemma nearestPositive_comp (x y : Q) :
  (0 < x)%Q -> (x == y)%Q -> (nearestPositive x == nearestPositive y)%Q.
Proof.
  intros Hx Hxy.
  assert (Hy : (0 < y)%Q) by (rewrite <- Hxy; exact Hx).
  apply Qle_antisym; apply nearestPositive_monotone; try assumption;
    rewrite Hxy; apply Qle_refl.
Qed.

(** A multiple of the unit in the last place of its own binade is its own
    nearest double. *)
Lemma nearestPositive_on_grid (y : Q) (m u : Z) :
  (y == inject_Z m * 2 ^ u)%Q -> ulpExponent y <= u ->
  (nearestPositive y == y)%Q.
Proof.
  intros Hy Hu. unfold nearestPositive.
  set (v := ulpExponent y) in *.
  assert (Hscaled : (y / 2 ^ v == inject_Z (m * 2 ^ (u - v)))%Q).
  { rewrite inject_Z_mult, twoTo_inject by lia.
    rewrite Hy, <- power_quotient. field. apply Qpower_not_0. exact two_nonzero. }
  rewrite (roundHalfEven_comp _ _ Hscaled), roundHalfEven_integer.
  rewrite <- Hscaled. apply scaled_by_power.
Qed.

Lemma nearestPositive_fixed (x : Q) :
  (0 < x)%Q -> (0 < nearestPositive x)%Q ->
  (nearestPositive (nearestPositive x) == nearestPositive x)%Q.
Proof.
  intros Hx Hy.
  set (u := ulpExponent x).
  set (m := roundHalfEven (x / 2 ^ u)).
  assert (Hgrid : (nearestPositive x == inject_Z m * 2 ^ u)%Q) by reflexivity.
  destruct (binade_spec x Hx) as [Xlo Xhi].
  assert (Hm : m <= 2 ^ 53).
  { unfold m. apply roundHalfEven_at_most.
    rewrite twoTo_inject by lia.
    apply Qle_trans with (y := (2 ^ (binade x + 1) / 2 ^ u)%Q);
      [apply divide_le, Qlt_le_weak, Xhi|].
    rewrite power_quotient. apply Qpower_le_compat_l; [|discriminate].
    unfold u, ulpExponent. lia. }
  destruct (Z.eq_dec m (2 ^ 53)) as [Htop | Hbelow].
  - assert (Hpow : (nearestPositive x == 2 ^ (u + 53))%Q).
    { rewrite Hgrid, Htop, twoTo_inject by lia.
      rewrite <- Qpower_plus by exact two_nonzero.
      replace (53 + u) with (u + 53) by lia. reflexivity. }
    assert (Hb : binade (nearestPositive x) = u + 53).
    { apply binade_unique; rewrite Hpow; [apply Qle_refl|].
      apply Qpower_lt_compat_l; [lia | reflexivity]. }
    apply (nearestPositive_on_grid _ (2 ^ 52) (u + 1)).
    + rewrite Hpow, twoTo_inject by lia.
      rewrite <- Qpower_plus by exact two_nonzero.
      replace (52 + (u + 1)) with (u + 53) by lia. reflexivity.
    + unfold ulpExponent. rewrite Hb. unfold u, ulpExponent. lia.
  - apply (nearestPositive_on_grid _ m u); [exact Hgrid|].
    assert (Hless : (nearestPositive x < 2 ^ (u + 53))%Q).
    { rewrite Hgrid.
      apply Qlt_le_trans with (y := (inject_Z (2 ^ 53) * 2 ^ u)%Q).
      - apply Qmult_lt_r; [apply twoTo_positive|]. rewrite <- Zlt_Qlt. lia.
      - rewrite twoTo_inject by lia. rewrite <- Qpower_plus by exact two_nonzero.
        replace (53 + u) with (u + 53) by lia. apply Qle_refl. }
    destruct (binade_spec _ Hy) as [Ylo _].
    assert (Hb : binade (nearestPositive x) < u + 53).
    { apply (Qpower_lt_compat_l_inv 2); [|reflexivity].
      eapply Qle_lt_trans; eassumption. }
    unfold ulpExponent. unfold u, ulpExponent in Hb |- *. lia.
Qed.

(** *** The nearest double of any rational *)

Lemma nearestDouble_nonnegative (x : Q) : (0 <= x)%Q -> (0 <= nearestDouble x)%Q.
Proof.
  intros Hx. unfold nearestDouble.
  destruct (x ?= 0)%Q eqn:E.
  - apply Qle_refl.
  - apply Qlt_alt in E. exfalso. lra.
  - apply Qgt_alt in E. apply nearestPositive_nonnegative. exact E.
Qed.

Lemma nearestDouble_nonpositive (x : Q) : (x <= 0)%Q -> (nearestDouble x <= 0)%Q.
Proof.
  intros Hx. unfold nearestDouble.
  destruct (x ?= 0)%Q eqn:E.
  - apply Qle_refl.
  - apply Qlt_alt in E.
    assert (H : (0 <= nearestPositive (- x))%Q)
      by (apply nearestPositive_nonnegative; lra).
    lra.
  - apply Qgt_alt in E. exfalso. lra.
Qed.

Lemma nearestDouble_monotone (x y : Q) :
  (x <= y)%Q -> (nearestDouble x <= nearestDouble y)%Q.
Proof.
  intros Hxy.
  destruct (Qlt_le_dec 0 x) as [Hx | Hx].
  - assert (Hy : (0 < y)%Q) by lra.
    unfold nearestDouble.
    replace (x ?= 0)%Q with Gt by (symmetry; apply Qgt_alt; exact Hx).
    replace (y ?= 0)%Q with Gt by (symmetry; apply Qgt_alt; exact Hy).
    apply nearestPositive_monotone; assumption.
  - destruct (Qlt_le_dec y 0) as [Hy | Hy].
    + assert (Hx' : (x < 0)%Q) by lra.
      unfold nearestDouble.
      replace (x ?= 0)%Q with Lt by (symmetry; apply Qlt_alt; exact Hx').
      replace (y ?= 0)%Q with Lt by (symmetry; apply Qlt_alt; exact Hy).
      apply Qopp_le_compat. apply nearestPositive_monotone; lra.
    + apply Qle_trans with (y := 0%Q);
        [apply nearestDouble_nonpositive | apply nearestDouble_nonnegative]; assumption.
Qed.

Lemma nearestDouble_comp (x y : Q) : (x == y)%Q -> (nearestDouble x == nearestDouble y)%Q.
Proof.
  intros H. apply Qle_antisym; apply nearestDouble_monotone; rewrite H; apply Qle_refl.
Qed.

(** Rounding a double again gives the same double. *)
Lemma nearestDouble_of_positive (x : Q) :
  (0 < x)%Q -> nearestDouble x = nearestPositive x.
Proof.
  intros H. unfold nearestDouble.
  replace (x ?= 0)%Q with Gt by (symmetry; apply Qgt_alt; exact H). reflexivity.
Qed.

Lemma nearestDouble_of_negative (x : Q) :
  (x < 0)%Q -> nearestDouble x = (- nearestPositive (- x))%Q.
Proof.
  intros H. unfold nearestDouble.
  replace (x ?= 0)%Q with Lt by (symmetry; apply Qlt_alt; exact H). reflexivity.
Qed.

Lemma nearestDouble_zero (x : Q) : (x == 0)%Q -> (nearestDouble x == 0)%Q.
Proof.
  intros H. unfold nearestDouble.
  replace (x ?= 0)%Q with Eq by (symmetry; apply Qeq_alt; exact H). reflexivity.
Qed.

(** Rounding a double again gives the same double. *)
Lemma nearestDouble_fixed (x : Q) :
  (nearestDouble (nearestDouble x) == nearestDouble x)%Q.
Proof.
  destruct (Q_dec x 0) as [[Hneg | Hpos] | Hzero].
  - rewrite (nearestDouble_of_negative x Hneg).
    assert (Hx : (0 < - x)%Q) by lra.
    pose proof (nearestPositive_nonnegative _ Hx) as Hnn.
    pose proof (nearestPositive_fixed _ Hx) as Hfix.
    set (p := nearestPositive (- x)) in *.
    destruct (Qlt_le_dec 0 p) as [Hy | Hy].
    + assert (Hlt : (- p < 0)%Q) by lra.
      rewrite (nearestDouble_of_negative _ Hlt).
      apply Qopp_comp.
      assert (Hpp : (0 < - - p)%Q) by lra.
      rewrite (nearestPositive_comp (- - p) p Hpp) by ring.
      apply Hfix. exact Hy.
    + assert (Hz : (- p == 0)%Q) by lra.
      rewrite (nearestDouble_zero _ Hz). rewrite Hz. reflexivity.
  - rewrite (nearestDouble_of_positive x Hpos).
    pose proof (nearestPositive_nonnegative _ Hpos) as Hnn.
    pose proof (nearestPositive_fixed _ Hpos) as Hfix.
    set (p := nearestPositive x) in *.
    destruct (Qlt_le_dec 0 p) as [Hy | Hy].
    + rewrite (nearestDouble_of_positive _ Hy). apply Hfix. exact Hy.
    + assert (Hz : (p == 0)%Q) by lra.
      rewrite (nearestDouble_zero _ Hz). rewrite Hz. reflexivity.
  - rewrite (nearestDouble_comp _ _ (nearestDouble_zero x Hzero)).
    rewrite (nearestDouble_zero x Hzero). reflexivity.
Qed.

(** *** The rounding is to nearest *)

(** The rounded integer is within one half of the number. *)
Lemma roundHalfEven_nearest (x : Q) :
  (Qabs (inject_Z (roundHalfEven x) - x) <= 1 # 2)%Q.
Proof.
  pose proof (Qfloor_le x) as Hlo. pose proof (Qlt_floor x) as Hhi.
  rewrite inject_Z_plus in Hhi. change (inject_Z 1) with 1%Q in Hhi.
  apply Qabs_Qle_condition. unfold roundHalfEven.
  destruct (x - inject_Z (Qfloor x) ?= 1 # 2)%Q eqn:E.
  - apply Qeq_alt in E.
    destruct (Z.even (Qfloor x));
      [|rewrite inject_Z_plus; change (inject_Z 1) with 1%Q]; split; lra.
  - apply Qlt_alt in E. split; lra.
  - apply Qgt_alt in E. rewrite inject_Z_plus. change (inject_Z 1) with 1%Q.
    split; lra.
Qed.

(** The nearest double is within half a unit in the last place. *)
Lemma nearestPositive_error (x : Q) :
  (Qabs (nearestPositive x - x) <= (1 # 2) * 2 ^ ulpExponent x)%Q.
Proof.
  unfold nearestPositive. set (u := ulpExponent x).
  pose proof (twoTo_positive u) as Hu.
  setoid_replace (inject_Z (roundHalfEven (x / 2 ^ u)) * 2 ^ u - x)%Q
    with ((inject_Z (roundHalfEven (x / 2 ^ u)) - x / 2 ^ u) * 2 ^ u)%Q
    by (field; apply Qpower_not_0; exact two_nonzero).
  rewrite Qabs_Qmult, (Qabs_pos (2 ^ u)%Q) by (apply Qlt_le_weak; exact Hu).
  apply Qmult_le_compat_r; [apply roundHalfEven_nearest | apply Qlt_le_weak; exact Hu].
Qed.

End Binary64Properties.

(** ** Capture cycle: observations, duplicates and verification *)

Module CaptureProperties.
Import CandleDataModel VisualAnalysisService ScreenCaptureService.

(** *** Direction and prices *)

Lemma scaled_le (a b : Z) (d : positive) : a <= b -> (a # d <= b # d)%Q.
Proof. intros H. unfold Qle. simpl. nia. Qed.

Lemma rounded_nonnegative (x : Q) : (0 <= x)%Q -> 0 <= Qfloor (x * 100000 + (1 # 2))%Q.
Proof.
  intros Hx.
  change 0 with (Qfloor 0). apply Qfloor_resp_le.
  assert (H : (0 <= x * 100000)%Q) by (apply Qmult_le_0_compat; [exact Hx | discriminate]).
  apply Qle_trans with (y := (x * 100000)%Q); [exact H|].
  rewrite <- (Qplus_0_r (x * 100000)) at 1.
  apply Qplus_le_r. discriminate.
Qed.

Lemma rounded_le (x y : Q) :
  (x <= y)%Q ->
  Qfloor (x * 100000 + (1 # 2))%Q <= Qfloor (y * 100000 + (1 # 2))%Q.
Proof.
  intros H. apply Qfloor_resp_le. apply Qplus_le_l.
  apply Qmult_le_compat_r; [exact H | discriminate].
Qed.

(** Rounding to five decimals keeps the order of two prices, though it may
    make them equal. *)
Lemma toFixed5_monotone (x y : Q) : (x <= y)%Q -> (toFixed5 x <= toFixed5 y)%Q.
Proof.
  intros Hxy. unfold toFixed5.
  destruct (Qle_bool 0 x) eqn:Ex; destruct (Qle_bool 0 y) eqn:Ey.
  - apply scaled_le, rounded_le, Hxy.
  - apply Qle_bool_iff in Ex.
    assert (Hy : (0 <= y)%Q) by (apply Qle_trans with (y := x); assumption).
    apply Qle_bool_iff in Hy. congruence.
  - assert (Hx : (0 <= - x)%Q).
    { apply Qnot_lt_le. intros Hlt.
      assert (Hpos : (0 <= x)%Q).
      { apply Qnot_lt_le. intros Hneg.
        apply (Qlt_irrefl 0). apply Qlt_trans with (y := (- x)%Q); [|exact Hlt].
        apply Qopp_lt_compat in Hneg. exact Hneg. }
      apply Qle_bool_iff in Hpos. congruence. }
    apply Qle_bool_iff in Ey.
    pose proof (rounded_nonnegative _ Hx) as Hn.
    pose proof (rounded_nonnegative _ Ey) as Hm.
    unfold Qle. cbn [Qnum Qden Qopp]. lia.
  - apply Qopp_le_compat. apply scaled_le, rounded_le.
    apply Qopp_le_compat. exact Hxy.
Qed.


(** A screenshot whose last candle is read as falling, with a price of
    1.08, and a change draw of three quarters. *)
Definition fallingReading : VisualAnalysis :=
  Analysed (mkAnalysis (Some sees_down) None (Some (108 # 100))) 80.

Definition risingDraws : Draws := mkDraws (1 # 2) (3 # 4) (1 # 2) (1 # 2).

(** *** Duplicate suppression *)

(** An existing observation duplicates a new one: same pair, same session,
    timestamps at most 30 seconds apart. *)
Definition duplicates (candleData c : CandleData) : Prop :=
  tradingPair c = tradingPair candleData
  /\ sessionId c = sessionId candleData
  /\ Z.abs (timestamp c - timestamp candleData) <= 30000.

Lemma duplicateQuery_spec (candleData c : CandleData) :
  duplicateQuery candleData c = true <-> duplicates candleData c.
Proof.
  unfold duplicateQuery, duplicates.
  rewrite !andb_true_iff, !Z.leb_le, !String.eqb_eq.
  split; intros H; repeat split; try tauto; lia.
Qed.

(** What [saveCandleData] does with any candle: a stored duplicate (same
    pair and session, within 30 seconds either way) is returned and nothing
    is written or thrown; without one the candle is appended when it passes
    the schema and the database takes the write, and the call throws
    otherwise. *)
Lemma duplicate_suppression (candleSaved : CandleData -> bool)
    (coll : list CandleData) (candleData : CandleData) :
  ((exists c, In c coll /\ duplicates candleData c) ->
   exists existing,
     saveCandleData candleSaved coll candleData = (Returned existing, coll)
     /\ In existing coll /\ duplicates candleData existing)
  /\ ((forall c, In c coll -> ~ duplicates candleData c) ->
      saveCandleData candleSaved coll candleData
      = if validCandle candleData && candleSaved candleData
        then (Returned candleData, coll ++ [candleData])
        else (Threw, coll)).
Proof.
  split.
  - intros (c & Hin & Hc). unfold saveCandleData.
    destruct (find (duplicateQuery candleData) coll) as [existing|] eqn:Hfind.
    + exists existing. apply find_some in Hfind. destruct Hfind as [Hin' Hq].
      apply duplicateQuery_spec in Hq. repeat split; assumption || apply Hq.
    + apply (find_none _ _ Hfind) in Hin. apply duplicateQuery_spec in Hc. congruence.
  - intros Hnone. unfold saveCandleData.
    destruct (find (duplicateQuery candleData) coll) as [existing|] eqn:Hfind;
      [|reflexivity].
    apply find_some in Hfind. destruct Hfind as [Hin Hq].
    apply duplicateQuery_spec in Hq. exfalso. exact (Hnone existing Hin Hq).
Qed.

(** Every candle the capture service builds names an extraction method,
    [advanced_visual_ml] or [fallback_mock], that the schema does not list. *)
Lemma captured_candle_fails_schema (sid : string) (visualAnalysis : VisualAnalysis)
    (timestamp : Z) (d : Draws) :
  validCandle (extractCandleData sid visualAnalysis timestamp d) = false.
Proof. destruct visualAnalysis; reflexivity. Qed.

(** A database that takes every write. *)
Definition acceptCandle (_ : CandleData) : bool := true.

(** A stored observation at minute 10, and the same [seconds] later. Its
    extraction method is one the schema lists. *)
Definition captureAfter (seconds : Z) : CandleData :=
  mkCandleData (600000 + seconds * 1000) "EUR/USD OTC" 60
    (108 # 100) (1081 # 1000) (1079 # 1000) (10805 # 10000) up "mock" 80
    "quotex-session-1".

(** The candle the capture service builds [seconds] after minute 10. *)
Definition capturedAfter (seconds : Z) : CandleData :=
  extractCandleData "quotex-session-1" fallingReading (600000 + seconds * 1000)
    risingDraws.

(** C7: for a candle built by the capture service, a stored duplicate (same
    pair and session, within 30 seconds either way) is returned and nothing
    is written or thrown, as claimed; but a candle without a stored
    duplicate is not stored: its extraction method fails the schema and the
    save throws, whatever the database does. With one observation stored, a
    capture 25 seconds later is dropped as a duplicate, and a capture 35
    seconds later, which the claim has accepted and stored, throws and
    leaves the store as it was. *)
Theorem capture_beyond_window_is_refused (candleSaved : CandleData -> bool)
    (coll : list CandleData) (sid : string) (visualAnalysis : VisualAnalysis)
    (timestamp : Z) (d : Draws) :
  let candleData := extractCandleData sid visualAnalysis timestamp d in
  ((exists c, In c coll /\ duplicates candleData c) ->
   exists existing,
     saveCandleData candleSaved coll candleData = (Returned existing, coll)
     /\ In existing coll /\ duplicates candleData existing)
  /\ ((forall c, In c coll -> ~ duplicates candleData c) ->
      saveCandleData candleSaved coll candleData = (Threw, coll))
  /\ saveCandleData candleSaved [captureAfter 0] (capturedAfter 25)
     = (Returned (captureAfter 0), [captureAfter 0])
  /\ saveCandleData candleSaved [captureAfter 0] (capturedAfter 35)
     = (Threw, [captureAfter 0]).
Proof.
  intros candleData.
  destruct (duplicate_suppression candleSaved coll candleData) as [Hdup Hnew].
  split; [exact Hdup|].
  split; [|split; reflexivity].
  intros Hnone. rewrite (Hnew Hnone).
  unfold candleData. rewrite captured_candle_fails_schema. reflexivity.
Qed.

(** The window on candles that pass the schema: with one observation
    stored, a second one 25 seconds later is dropped, so is one exactly 30
    seconds later, and one 35 seconds later is stored. *)
Lemma double_capture_examples :
  saveCandleData acceptCandle [captureAfter 0] (captureAfter 25)
  = (Returned (captureAfter 0), [captureAfter 0])
  /\ saveCandleData acceptCandle [captureAfter 0] (captureAfter 30)
     = (Returned (captureAfter 0), [captureAfter 0])
  /\ saveCandleData acceptCandle [captureAfter 0] (captureAfter 35)
     = (Returned (captureAfter 35), [captureAfter 0; captureAfter 35]).
Proof. repeat split; vm_compute; reflexivity. Qed.

(** *** The cycle and verification *)









(** The window the cycle predicts from. [getRecentCandles] returns the
    recent candles oldest first and [generatePrediction], written for an
    array that comes latest first, reverses it: the five candles handed to
    both prediction methods are the five oldest of the recent ones, newest
    first. *)
Lemma cycle_window (recentCandles : list CandleData) :
  (5 <= List.length recentCandles)%nat ->
  sliceLast 5 (rev recentCandles) = rev (firstn 5 recentCandles).
Proof.
  intros Hlen. unfold sliceLast.
  rewrite skipn_rev, length_rev. f_equal. f_equal. lia.
Qed.


(** *** What a cycle writes *)

(** A prediction the generator returns carries the tag of the fusion
    ([pattern_matching_trend_confirmed], [pattern_matching_trend_conflict])
    or of the trend method ([trend_analysis]); the schema lists none of
    them. *)
Lemma generated_tag_fails_schema (coll recentCandles : list CandleData)
    (r : PredictionService.PredictionData) :
  PredictionService.generatePrediction coll recentCandles = Some r ->
  existsb (String.eqb (PredictionService.algorithmUsed r)) PredictionModel.algorithms
  = false.
Proof.
  unfold PredictionService.generatePrediction.
  destruct (List.length recentCandles <? PredictionService.minCandlesRequired)%nat;
    [discriminate|].
  unfold PredictionService.combinePredictions.
  destruct (PredictionService.predictFromPatterns coll _) as [p|].
  - destruct (Direction_eqb _ _); intros H; injection H as <-; reflexivity.
  - intros H. injection H as <-. reflexivity.
Qed.

Lemma generated_prediction_is_refused
    (predictionSaved : PredictionModel.Prediction -> bool) (now : Z)
    (coll : list PredictionModel.Prediction) (candleColl recentCandles : list CandleData)
    (r : PredictionService.PredictionData) (sid : string) :
  PredictionService.generatePrediction candleColl recentCandles = Some r ->
  PredictionService.storePrediction predictionSaved now coll (Some r) sid
  = (Threw, coll).
Proof.
  intros Hr. apply generated_tag_fails_schema in Hr.
  unfold PredictionService.storePrediction, PredictionService.saved,
    PredictionModel.validPrediction.
  cbn [PredictionModel.algorithmUsed]. rewrite Hr. reflexivity.
Qed.

(** No cycle writes to the database: the candle it builds fails the schema
    of the candles and the prediction it generates, if any, fails the
    schema of the predictions. *)
Lemma captureAndProcess_database candleSaved predictionSaved svc env db :
  snd (captureAndProcess candleSaved predictionSaved svc env db) = db.
Proof.
  unfold captureAndProcess.
  destruct (negb (page svc) || negb (isCapturing svc)); [reflexivity|].
  destruct (negb (uploaded env)); [reflexivity|].
  unfold saveCandleData.
  rewrite captured_candle_fails_schema. cbn [andb].
  destruct (find (duplicateQuery _) (candles db)) as [existing|]; [|reflexivity].
  cbn [snd]. destruct db as [candleColl predictionColl]. cbn [candles predictions].
  f_equal.
  destruct (10 <=? List.length _)%nat; [|reflexivity].
  destruct (PredictionService.generatePrediction candleColl _) as [prediction|] eqn:Hp;
    [|reflexivity].
  rewrite (generated_prediction_is_refused _ _ _ _ _ _ _ Hp). reflexivity.
Qed.

(** [captureAndProcess] is the cycle whose accesses to the database no other
    cycle interrupts. *)
Lemma captureAndProcess_uninterrupted candleSaved predictionSaved svc env db :
  advanceBy candleSaved predictionSaved 5 svc env (begin svc env) db
  = (Finished (fst (captureAndProcess candleSaved predictionSaved svc env db)),
     snd (captureAndProcess candleSaved predictionSaved svc env db)).
Proof.
  destruct db as [candleColl predictionColl].
  unfold captureAndProcess, begin.
  destruct (negb (page svc) || negb (isCapturing svc)); [reflexivity|].
  destruct (negb (uploaded env)); [reflexivity|].
  unfold saveCandleData. cbn [candles predictions].
  set (candleData := extractCandleData _ _ _ _).
  cbn [advanceBy advance candles].
  destruct (find (duplicateQuery candleData) candleColl) as [existing|];
    cbn [fst snd advance candles predictions].
  - destruct (10 <=? List.length _)%nat; cbn [fst snd advance candles predictions];
      [|reflexivity].
    destruct (PredictionService.generatePrediction candleColl _);
      cbn [fst snd advance candles predictions]; reflexivity.
  - destruct (validCandle candleData && candleSaved candleData);
      cbn [fst snd advance candles predictions]; [|reflexivity].
    destruct (10 <=? List.length _)%nat; cbn [fst snd advance candles predictions];
      [|reflexivity].
    destruct (PredictionService.generatePrediction (candleColl ++ [candleData]) _);
      cbn [fst snd advance candles predictions]; reflexivity.
Qed.

(** What a cycle of the capture service can be about to save: a candle
    that fails the schema of the candles, a prediction whose tag fails the
    schema of the predictions. *)
Definition refusedOnSave (p : Pending) : Prop :=
  match p with
  | FindDuplicate candleData | SaveCandle candleData => validCandle candleData = false
  | SavePrediction _ prediction =>
      existsb (String.eqb (PredictionService.algorithmUsed prediction))
        PredictionModel.algorithms = false
  | ReadRecent _ | ReadHistory _ _ | Finished _ => True
  end.

Lemma begin_refusedOnSave (svc : Service) (env : Cycle) : refusedOnSave (begin svc env).
Proof.
  unfold begin.
  destruct (negb (page svc) || negb (isCapturing svc)); [exact I|].
  destruct (negb (uploaded env)); [exact I|].
  apply captured_candle_fails_schema.
Qed.

Lemma advance_refusedOnSave candleSaved predictionSaved svc env p db :
  refusedOnSave p ->
  refusedOnSave (fst (advance candleSaved predictionSaved svc env p db))
  /\ snd (advance candleSaved predictionSaved svc env p db) = db.
Proof.
  intros Hp. destruct p as [c | c | saved | saved recent | saved r | result];
    cbn [advance refusedOnSave] in *.
  - destruct (find (duplicateQuery c) (candles db)); split; reflexivity || exact Hp || exact I.
  - rewrite Hp. split; [exact I | reflexivity].
  - destruct (10 <=? List.length _)%nat; split; reflexivity || exact I.
  - destruct (PredictionService.generatePrediction (candles db) recent) as [r|] eqn:Hr;
      cbn [fst snd refusedOnSave]; split; try reflexivity; try exact I.
    apply (generated_tag_fails_schema _ _ _ Hr).
  - split; [exact I|]. cbn [snd].
    unfold PredictionService.storePrediction, PredictionService.saved,
      PredictionModel.validPrediction.
    cbn [PredictionModel.algorithmUsed]. rewrite Hp. cbn [andb snd].
    destruct db; reflexivity.
  - split; [exact I | reflexivity].
Qed.

(** Cycles of the capture service, however they overlap, leave the
    database as it was. *)
Lemma overlapping_cycles_store_nothing candleSaved predictionSaved svc pool db final :
  Forall (fun c => refusedOnSave (pending c)) pool ->
  Overlapping candleSaved predictionSaved svc pool db final ->
  final = db.
Proof.
  intros Hpool Hrun. induction Hrun as [pool db _ | before c after db final _ IH];
    [reflexivity|].
  apply Forall_app in Hpool. destruct Hpool as [Hbefore Hrest].
  inversion Hrest as [|? ? Hc Hafter]; subst.
  destruct (advance_refusedOnSave candleSaved predictionSaved svc (tick c) (pending c) db Hc)
    as [Hnext Hdb].
  rewrite Hdb in IH. apply IH.
  apply Forall_app. split; [exact Hbefore|].
  constructor; [exact Hnext | exact Hafter].
Qed.

Lemma begun_cycles_store_nothing candleSaved predictionSaved svc ticks db final :
  Overlapping candleSaved predictionSaved svc (map (begun svc) ticks) db final ->
  final = db.
Proof.
  apply overlapping_cycles_store_nothing.
  apply Forall_forall. intros c Hc. apply in_map_iff in Hc.
  destruct Hc as (env & <- & _). apply begin_refusedOnSave.
Qed.

(** *** The scenario of eleven ticks *)

(** A capturing service, and one tick per minute whose screenshot
    alternates between a rising and a falling last candle. *)
Definition capturing : Service := mkService true true "quotex-session-1".

Definition tickAt (minute : nat) : Cycle :=
  let rising := Nat.odd minute in
  mkCycle (Z.of_nat minute * 60000) true
    (Analysed (mkAnalysis (Some (if rising then sees_up else sees_down)) None
                 (Some (108 # 100))) 80)
    (mkDraws (1 # 2) (if rising then 3 # 4 else 1 # 4) (1 # 2) (1 # 2))
    (Z.of_nat minute * 60000 + 500).

Definition emptyDatabase : Database := mkDatabase [] [].

(** [final] is a database the eleven ticks can leave behind, starting
    from an empty one, the database taking every write and the cycles
    overlapping or not. *)
Definition afterElevenTicks (final : Database) : Prop :=
  Overlapping acceptCandle PredictionProperties.acceptEvery capturing
    (map (begun capturing) (map tickAt (seq 1 11))) emptyDatabase final.



(** Each of the eleven cycles, run on its own, returns nothing. *)
Example eleven_ticks_return_nothing :
  map (fun minute =>
         captureAndProcess acceptCandle PredictionProperties.acceptEvery
           capturing (tickAt minute) emptyDatabase)
    (seq 1 11)
  = repeat (None, emptyDatabase) 11.
Proof. vm_compute. reflexivity. Qed.

(** The eleven ticks do run to their end: every pool of cycles can be
    advanced until all have finished. *)
Definition accessesLeft (p : Pending) : nat :=
  match p with
  | FindDuplicate _ => 5
  | SaveCandle _ => 4
  | ReadRecent _ => 3
  | ReadHistory _ _ => 2
  | SavePrediction _ _ => 1
  | Finished _ => 0
  end.

Lemma advance_accessesLeft candleSaved predictionSaved svc env p db :
  accessesLeft p <> 0%nat ->
  (accessesLeft (fst (advance candleSaved predictionSaved svc env p db))
   < accessesLeft p)%nat.
Proof.
  intros Hleft. destruct p; cbn [advance accessesLeft] in *.
  - destruct (find _ _); cbn; lia.
  - destruct (_ && _); cbn; lia.
  - destruct (10 <=? _)%nat; cbn; lia.
  - destruct (PredictionService.generatePrediction _ _); cbn; lia.
  - cbn. lia.
  - contradiction.
Qed.

Lemma some_schedule_finishes candleSaved predictionSaved svc pool db :
  exists final, Overlapping candleSaved predictionSaved svc pool db final.
Proof.
  remember (list_sum (map (fun c => accessesLeft (pending c)) pool)) as left eqn:Hleft.
  revert pool db Hleft.
  induction left as [left IH] using lt_wf_ind. intros pool db Hleft.
  destruct (Forall_Exists_dec (fun c => accessesLeft (pending c) = 0%nat)
              (fun c => Nat.eq_dec (accessesLeft (pending c)) 0) pool)
    as [Hdone | Hbusy].
  - exists db. apply all_finished.
    apply Forall_forall. intros c Hc. rewrite Forall_forall in Hdone.
    specialize (Hdone c Hc). destruct (pending c) eqn:Hp; try discriminate Hdone.
    eexists. exact Hp.
  - apply Exists_exists in Hbusy. destruct Hbusy as (c & Hin & Hc).
    apply in_split in Hin. destruct Hin as (before & after & ->).
    pose proof (advance_accessesLeft candleSaved predictionSaved svc (tick c)
                  (pending c) db Hc) as Hless.
    destruct (IH (list_sum
                    (map (fun c => accessesLeft (pending c))
                       (before
                        ++ mkInFlight (tick c)
                             (fst (advance candleSaved predictionSaved svc (tick c)
                                     (pending c) db))
                        :: after)))) with
      (pool := before
               ++ mkInFlight (tick c)
                    (fst (advance candleSaved predictionSaved svc (tick c)
                            (pending c) db))
               :: after)
      (db := snd (advance candleSaved predictionSaved svc (tick c) (pending c) db))
      as [final Hfinal]; [|reflexivity|].
    + subst left. rewrite !map_app, !list_sum_app.
      cbn [map list_sum fold_right pending]. lia.
    + exists final. apply one_advances. exact Hfinal.
Qed.

Lemma eleven_ticks_end_with_empty_database : afterElevenTicks emptyDatabase.
Proof.
  destruct (some_schedule_finishes acceptCandle PredictionProperties.acceptEvery
              capturing (map (begun capturing) (map tickAt (seq 1 11))) emptyDatabase)
    as [final Hfinal].
  unfold afterElevenTicks.
  rewrite <- (begun_cycles_store_nothing _ _ _ _ _ _ Hfinal) at 2.
  exact Hfinal.
Qed.

End CaptureProperties.

(** ** Data routes and authentication *)

Module RouteProperties.
Import SessionManager DataRoutes.

(** A request fails the usability check: it names no session, or the
    session manager does not report the session as logged in. *)
Definition unauthenticated (runPuppeteerValidation : string -> ValidationResult)
    (clk : Clock) (sessionColl : list SessionDataModel.SessionData) (q : Query) : Prop :=
  match givenSession q with
  | None => True
  | Some sid =>
      isLoggedIn (result (validateQuotexSession runPuppeteerValidation clk sessionColl sid))
      = false
  end.

Lemma rejection_carries_nothing (status : Z) (text : string) :
  authenticationRequired (mkResponse status false text true [] [] None)
  <-> status = 401.
Proof. unfold authenticationRequired. simpl. tauto. Qed.

(** The guarded routes: /candles and /prediction reject every request that
    fails the usability check and return no data with the rejection. *)
Lemma guarded_routes_reject pup clk sessionColl candleColl predictionColl q :
  unauthenticated pup clk sessionColl q ->
  (authenticationRequired (fst (getCandles pup clk sessionColl candleColl q))
   /\ ~ carriesData (fst (getCandles pup clk sessionColl candleColl q)))
  /\ (authenticationRequired (fst (getPrediction pup clk sessionColl predictionColl q))
      /\ ~ carriesData (fst (getPrediction pup clk sessionColl predictionColl q))).
Proof.
  unfold unauthenticated, getCandles, getPrediction.
  destruct (givenSession q) as [sid|].
  - intros Hout. rewrite Hout. simpl.
    unfold authenticationRequired, carriesData. simpl. intuition congruence.
  - intros _. simpl.
    unfold authenticationRequired, carriesData. simpl. intuition congruence.
Qed.

(** /predictions never rejects: whatever the session, it answers 200 with
    the stored predictions that match the query. *)
Lemma predictions_route_always_answers (predictionColl : list Prediction) (q : Query) :
  statusCode (getPredictions predictionColl q) = 200
  /\ requiresAuth (getPredictions predictionColl q) = false
  /\ forall p, In p (predictions (getPredictions predictionColl q)) -> In p predictionColl.
Proof.
  unfold getPredictions. cbn [statusCode requiresAuth predictions].
  split; [reflexivity|]. split; [reflexivity|].
  intros p Hin.
  assert (Hsorted : In p (sortDescending PredictionModel.timestamp
                            (filter
                               (fun p0 =>
                                  String.eqb (PredictionModel.tradingPair p0) (tradingPair q)
                                  && match givenSession q with
                                     | Some sid => String.eqb (PredictionModel.sessionId p0) sid
                                     | None => true
                                     end)
                               predictionColl))).
  { unfold limitTo in Hin. destruct (limit q =? 0)%nat; [exact Hin|].
    rewrite <- (firstn_skipn (limit q)). apply in_or_app. left. exact Hin. }
  unfold sortDescending in Hsorted.
  apply PredictionProperties.in_sortAscending in Hsorted.
  apply filter_In in Hsorted. tauto.
Qed.

(** A request for predictions that names no session, and one that names a
    session the browser check reports as not logged in. *)
Definition anonymousQuery : Query := mkQuery 10 "EUR/USD OTC" None None None.

Definition strangerQuery : Query :=
  mkQuery 10 "EUR/USD OTC" (Some "quotex-session-1"%string) None None.

Definition noon : Clock := mkClock 700000 700000 700000 700000.

(** C10 at the failing inputs: asked for predictions without a session, or
    for a session that is not logged in, /predictions answers 200 and
    returns the stored prediction, where the specification requires an
    authentication-required rejection with no data. *)
Theorem predictions_route_serves_unauthenticated :
  (unauthenticated SessionCacheProperties.notLoggedIn noon [] anonymousQuery
   /\ getPredictions [PredictionProperties.openPrediction] anonymousQuery
      = mkResponse 200 true "" false [] [PredictionProperties.openPrediction] None
   /\ ~ authenticationRequired
          (getPredictions [PredictionProperties.openPrediction] anonymousQuery)
   /\ carriesData (getPredictions [PredictionProperties.openPrediction] anonymousQuery))
  /\ (unauthenticated SessionCacheProperties.notLoggedIn noon [] strangerQuery
      /\ getPredictions [PredictionProperties.openPrediction] strangerQuery
         = mkResponse 200 true "" false [] [PredictionProperties.openPrediction] None
      /\ ~ authenticationRequired
             (getPredictions [PredictionProperties.openPrediction] strangerQuery)
      /\ carriesData (getPredictions [PredictionProperties.openPrediction] strangerQuery)).
Proof.
  split.
  - split; [exact I|]. split; [vm_compute; reflexivity|]. split.
    + intros (Hstatus & _). vm_compute in Hstatus. discriminate Hstatus.
    + right. left. vm_compute. discriminate.
  - split; [vm_compute; reflexivity|]. split; [vm_compute; reflexivity|]. split.
    + intros (Hstatus & _). vm_compute in Hstatus. discriminate Hstatus.
    + right. left. vm_compute. discriminate.
Qed.

(** The same two requests are rejected by the guarded routes. *)
Lemma guarded_routes_reject_same_requests :
  fst (getPrediction SessionCacheProperties.notLoggedIn noon []
         [PredictionProperties.openPrediction] anonymousQuery)
  = mkResponse 401 false
      "Session ID required for predictions - please connect to Quotex first"
      true [] [] None
  /\ fst (getPrediction SessionCacheProperties.notLoggedIn noon []
            [PredictionProperties.openPrediction] strangerQuery)
     = mkResponse 401 false "You must be logged into Quotex to view predictions"
         true [] [] None.
Proof. split; vm_compute; reflexivity. Qed.

End RouteProperties.

(** * Further properties of the capture service *)

Module CaptureStoreProperties.
Import CandleDataModel VisualAnalysisService ScreenCaptureService CaptureProperties.
Import Binary64 Binary64Properties.

(** ** Shape of a created candle *)

(** A value that is a double: rounding leaves it as it is. *)
Definition isDouble (x : Q) : Prop := (nearestDouble x == x)%Q.

Lemma number_isDouble (x : Q) : isDouble (number x).
Proof. apply nearestDouble_fixed. Qed.

Lemma wick_nonnegative (r : Q) :
  (0 <= r)%Q -> (0 <= jsMul (number r) (number (1 # 1000)))%Q.
Proof.
  intros Hr. unfold jsMul, number.
  apply nearestDouble_nonnegative, Qmult_le_0_compat;
    apply nearestDouble_nonnegative; [exact Hr | discriminate].
Qed.

Lemma wick_above (a b w : Q) :
  isDouble a -> isDouble b -> (0 <= w)%Q ->
  (a <= jsAdd (Qmax a b) w)%Q /\ (b <= jsAdd (Qmax a b) w)%Q.
Proof.
  unfold isDouble, jsAdd. intros Ha Hb Hw.
  pose proof (Q.le_max_l a b). pose proof (Q.le_max_r a b).
  split.
  - apply Qle_trans with (y := nearestDouble a); [rewrite Ha; apply Qle_refl|].
    apply nearestDouble_monotone. lra.
  - apply Qle_trans with (y := nearestDouble b); [rewrite Hb; apply Qle_refl|].
    apply nearestDouble_monotone. lra.
Qed.

Lemma wick_below (a b w : Q) :
  isDouble a -> isDouble b -> (0 <= w)%Q ->
  (jsSub (Qmin a b) w <= a)%Q /\ (jsSub (Qmin a b) w <= b)%Q.
Proof.
  unfold isDouble, jsSub. intros Ha Hb Hw.
  pose proof (Q.le_min_l a b). pose proof (Q.le_min_r a b).
  split.
  - apply Qle_trans with (y := nearestDouble a); [|rewrite Ha; apply Qle_refl].
    apply nearestDouble_monotone. lra.
  - apply Qle_trans with (y := nearestDouble b); [|rewrite Hb; apply Qle_refl].
    apply nearestDouble_monotone. lra.
Qed.

(** Rounding to five decimals and back to a double keeps the order of two
    prices, though it may make them equal. *)
Lemma storedPrice_monotone (x y : Q) : (x <= y)%Q -> (storedPrice x <= storedPrice y)%Q.
Proof.
  intros H. unfold storedPrice, number.
  apply nearestDouble_monotone, toFixed5_monotone, H.
Qed.

(** The stored prices form a candle: the high is no lower and the low no
    higher than both the open and the close. *)
Definition wellShaped (c : CandleData) : Prop :=
  (open c <= high c)%Q /\ (close c <= high c)%Q
  /\ (low c <= open c)%Q /\ (low c <= close c)%Q.

Lemma shaped (timestamp : Z) (basePrice change hiDraw loDraw : Q) (d : Direction)
    (method : string) (score : Z) (sid : string) :
  isDouble basePrice -> (0 <= hiDraw)%Q -> (0 <= loDraw)%Q ->
  wellShaped
    (mkCandleData timestamp "EUR/USD OTC" 60
       (storedPrice basePrice)
       (storedPrice
          (jsAdd (Qmax basePrice (jsAdd basePrice change))
             (jsMul (number hiDraw) (number (1 # 1000)))))
       (storedPrice
          (jsSub (Qmin basePrice (jsAdd basePrice change))
             (jsMul (number loDraw) (number (1 # 1000)))))
       (storedPrice (jsAdd basePrice change))
       d method score sid).
Proof.
  intros Hbase Hhi Hlo. unfold wellShaped. cbn [open high low close].
  assert (Hclose : isDouble (jsAdd basePrice change)) by apply nearestDouble_fixed.
  destruct (wick_above basePrice (jsAdd basePrice change) _ Hbase Hclose
              (wick_nonnegative hiDraw Hhi)).
  destruct (wick_below basePrice (jsAdd basePrice change) _ Hbase Hclose
              (wick_nonnegative loDraw Hlo)).
  repeat split; apply storedPrice_monotone; assumption.
Qed.

Lemma generateMockPrice_isDouble (r : Q) : isDouble (generateMockPrice r).
Proof. apply nearestDouble_fixed. Qed.

(** The base price of an extraction is a double: the price read from the
    screenshot when there is one that is not zero, a generated one
    otherwise. *)
Lemma basePrice_isDouble (reading : option Q) (r : Q) :
  isDouble match truthyPrice (option_map number reading) with
           | Some p => p
           | None => generateMockPrice r
           end.
Proof.
  destruct reading as [p|]; cbn [option_map truthyPrice];
    [|apply generateMockPrice_isDouble].
  destruct (Qeq_bool (number p) 0);
    [apply generateMockPrice_isDouble | apply number_isDouble].
Qed.

(** X1: Whether built from a visual analysis or from fallback data, a created
    candle has its high at or above, and its low at or below, both its open
    and its close, also after the prices are rounded to five decimals. *)
Theorem created_candle_is_well_shaped (sid : string) (visualAnalysis : VisualAnalysis)
    (timestamp : Z) (d : Draws) :
  (0 <= highDraw d)%Q -> (0 <= lowDraw d)%Q ->
  wellShaped (generateFallbackData sid timestamp d)
  /\ wellShaped (extractCandleData sid visualAnalysis timestamp d).
Proof.
  intros Hhi Hlo.
  assert (Hfallback : wellShaped (generateFallbackData sid timestamp d)).
  { apply shaped; [apply generateMockPrice_isDouble | assumption | assumption]. }
  split; [exact Hfallback|].
  destruct visualAnalysis as [|analysis confidence]; [exact Hfallback|].
  unfold extractCandleData.
  apply shaped; [apply basePrice_isDouble | assumption | assumption].
Qed.

(** ** Direction of a created candle *)




(** A reading of [down] is stored next to a close above the open. *)
Example reading_against_prices :
  let c := extractCandleData "quotex-session-1" fallingReading 660000 risingDraws in
  direction c = down /\ (open c < close c)%Q.
Proof. split; vm_compute; reflexivity. Qed.

(** Rounding to five decimals can leave the stored prices equal: a
    generated change of one millionth gives direction [up] with the open
    and the close stored alike. *)
Example rounding_equalises_prices :
  let c := generateFallbackData "quotex-session-1" 660000
             (mkDraws (1 # 2) (5005 # 10000) (1 # 2) (1 # 2)) in
  direction c = up /\ (open c == close c)%Q.
Proof. split; vm_compute; reflexivity. Qed.

(** A change draw one unit in the last place above one half gives a
    positive change that the addition to a price of 1.08 absorbs: the close
    equals the open before any rounding to decimals and the direction is
    [down]. *)
Example absorbed_change :
  let justAboveHalf := ((1 # 2) + (1 # 4503599627370496))%Q in
  let change := jsMul (jsSub (number justAboveHalf) (number (1 # 2))) (number (2 # 1000)) in
  let c :=
    extractCandleData "quotex-session-1"
      (Analysed (mkAnalysis None None (Some (108 # 100))) 80) 660000
      (mkDraws (1 # 2) justAboveHalf (1 # 2) (1 # 2)) in
  (0 < change)%Q /\ (jsAdd (number (108 # 100)) change == number (108 # 100))%Q
  /\ direction c = down.
Proof. repeat split; vm_compute; reflexivity. Qed.

(** The rounding above is the one of the hardware: on sample operands,
    among them those of the examples, the primitive double operations give
    the values [Binary64] computes. *)
Definition sameValue (f : float) (q : Q) : bool :=
  match doubleValue f with
  | Some v => Qeq_bool v q
  | None => false
  end.

#[warnings="-inexact-float"]
Example rounding_agrees_with_primitive_doubles :
  sameValue 1.08 (number (108 # 100)) = true
  /\ sameValue 0.002 (number (2 # 1000)) = true
  /\ sameValue (1.08 + (0.75 - 0.5) * 0.002)
       (jsAdd (number (108 # 100))
          (jsMul (jsSub (number (3 # 4)) (number (1 # 2))) (number (2 # 1000)))) = true
  /\ sameValue (1 + (0.5625 - 0.5) * 0.002)
       (jsAdd (number 1)
          (jsMul (jsSub (number (5625 # 10000)) (number (1 # 2))) (number (2 # 1000))))
     = true
  /\ sameValue (1.08 + ((0.5 + 0x1p-52) - 0.5) * 0.002)
       (jsAdd (number (108 # 100))
          (jsMul (jsSub (number ((1 # 2) + (1 # 4503599627370496))) (number (1 # 2)))
             (number (2 # 1000)))) = true
  /\ sameValue (0.1 + 0.2) (jsAdd (number (1 # 10)) (number (2 # 10))) = true
  /\ sameValue (0x1p-1074 * 0.5) (jsMul (number (2 ^ (-1074))) (number (1 # 2))) = true
  /\ sameValue (0x1p-1074 * 0.75) (jsMul (number (2 ^ (-1074))) (number (3 # 4))) = true.
Proof. repeat split; vm_compute; reflexivity. Qed.

(** A price of 1 with a change draw of 0.5625: the close, a little under
    1.000125 as a double, is stored as 1.00012. *)
Example close_below_the_tie :
  (toFixed5
     (jsAdd (number 1)
        (jsMul (jsSub (number (5625 # 10000)) (number (1 # 2))) (number (2 # 1000))))
   == 100012 # 100000)%Q.
Proof. vm_compute. reflexivity. Qed.

(** ** A sample of draws *)

Definition unitDraws : Draws := mkDraws (1 # 2) (1 # 4) (3 # 4) (1 # 3).

Lemma created_candle_is_well_shaped_witness :
  ((0 <= highDraw unitDraws)%Q /\ (0 <= lowDraw unitDraws)%Q)
  /\ wellShaped (generateFallbackData "quotex-session-1" 660000 unitDraws)
  /\ wellShaped (extractCandleData "quotex-session-1" fallingReading 660000 unitDraws).
Proof.
  assert (Hhi : (0 <= highDraw unitDraws)%Q) by (vm_compute; discriminate).
  assert (Hlo : (0 <= lowDraw unitDraws)%Q) by (vm_compute; discriminate).
  split; [split; assumption|].
  exact (created_candle_is_well_shaped "quotex-session-1" fallingReading 660000
           unitDraws Hhi Hlo).
Defined.

(** ** A cycle writes nothing *)

(** X2: No capture cycle changes the database, whatever the screenshot, the
    draws and the database's answers: the candle it builds names an
    extraction method the schema of the candles does not list, so its save
    throws, and the prediction it may generate carries an algorithm tag the
    schema of the predictions does not list. A cycle returns a candle only
    when the service is capturing, the screenshot was uploaded and a stored
    candle of the same pair and session lies within 30 seconds of the
    capture: it returns that stored candle. Cycles that overlap, as those
    of [startCapture] can, leave the database as it was too, whatever the
    order of their accesses to it. *)
Theorem capture_cycle_stores_nothing (candleSaved : CandleData -> bool)
    (predictionSaved : PredictionModel.Prediction -> bool) (svc : Service)
    (env : Cycle) (db : Database) :
  let captured :=
    extractCandleData (serviceSession svc) (visual env) (now env) (draws env) in
  snd (captureAndProcess candleSaved predictionSaved svc env db) = db
  /\ validCandle captured = false
  /\ (forall r, PredictionService.generatePrediction (candles db)
                  (getRecentCandles (candles db) (serviceSession svc) 20) = Some r ->
                existsb (String.eqb (PredictionService.algorithmUsed r))
                  PredictionModel.algorithms = false)
  /\ (forall existing,
        fst (captureAndProcess candleSaved predictionSaved svc env db) = Some existing
        <-> page svc = true /\ isCapturing svc = true /\ uploaded env = true
            /\ find (duplicateQuery captured) (candles db) = Some existing)
  /\ (forall ticks final,
        Overlapping candleSaved predictionSaved svc (map (begun svc) ticks) db final ->
        final = db).
Proof.
  intros captured.
  split; [apply captureAndProcess_database|].
  split; [apply captured_candle_fails_schema|].
  split; [intros r; apply generated_tag_fails_schema|].
  split; [|intros ticks final; apply begun_cycles_store_nothing].
  intros existing. unfold captureAndProcess.
  destruct (page svc); cbn [negb orb];
    [|split; [discriminate | intros (H & _); discriminate H]].
  destruct (isCapturing svc); cbn [negb];
    [|split; [discriminate | intros (_ & H & _); discriminate H]].
  destruct (uploaded env); cbn [negb];
    [|split; [discriminate | intros (_ & _ & H & _); discriminate H]].
  unfold saveCandleData. fold captured.
  unfold captured at 2. rewrite captured_candle_fails_schema. cbn [andb].
  destruct (find (duplicateQuery captured) (candles db)) as [found|]; cbn [fst].
  - split.
    + intros H. injection H as <-. repeat split; reflexivity.
    + intros (_ & _ & _ & H). exact H.
  - split; [discriminate|]. intros (_ & _ & _ & H). discriminate H.
Qed.

(** ** What a cycle returns and what it leaves behind *)

(** X3: A cycle that returns nothing has changed nothing, neither candles nor
    predictions; a cycle that returns a candle returns one that is in the
    store afterwards, either stored by this cycle or an earlier duplicate of
    the capture, and the candles stored before are all kept in place. *)
Theorem cycle_outcome (candleSaved : CandleData -> bool)
    (predictionSaved : PredictionModel.Prediction -> bool) (svc : Service)
    (env : Cycle) (db : Database) :
  (fst (captureAndProcess candleSaved predictionSaved svc env db) = None ->
   snd (captureAndProcess candleSaved predictionSaved svc env db) = db)
  /\ (forall saved,
        fst (captureAndProcess candleSaved predictionSaved svc env db) = Some saved ->
        let captured :=
          extractCandleData (serviceSession svc) (visual env) (now env) (draws env) in
        let after := candles (snd (captureAndProcess candleSaved predictionSaved svc env db)) in
        In saved after
        /\ ((saved = captured /\ after = candles db ++ [captured])
            \/ (In saved (candles db) /\ duplicates captured saved /\ after = candles db))).
Proof.
  unfold captureAndProcess.
  destruct (negb (page svc) || negb (isCapturing svc));
    [split; [reflexivity | discriminate]|].
  destruct (negb (uploaded env)); [split; [reflexivity | discriminate]|].
  unfold saveCandleData.
  destruct (find (duplicateQuery _) (candles db)) as [existing|] eqn:Hfind.
  - split; [discriminate|].
    intros saved Hsaved. cbn [fst] in Hsaved. injection Hsaved as <-.
    cbn [snd candles]. apply find_some in Hfind. destruct Hfind as [Hin Hq].
    apply duplicateQuery_spec in Hq.
    split; [exact Hin|]. right. repeat split; assumption || apply Hq.
  - destruct (validCandle _ && candleSaved _); [|split; [reflexivity | discriminate]].
    split; [discriminate|].
    intros saved Hsaved. cbn [fst] in Hsaved. injection Hsaved as <-.
    cbn [snd candles]. split; [apply in_or_app; right; left; reflexivity|].
    left. split; reflexivity.
Qed.

(** ** The recent candles *)

Lemma length_insertBy {A : Type} (key : A -> Z) (x : A) (l : list A) :
  List.length (insertBy key x l) = S (List.length l).
Proof.
  induction l as [|y rest IH]; simpl; [reflexivity|].
  destruct (key y <=? key x); simpl; [rewrite IH|]; reflexivity.
Qed.

Lemma length_sortAscending {A : Type} (key : A -> Z) (l : list A) :
  List.length (sortAscending key l) = List.length l.
Proof.
  unfold sortAscending.
  assert (H : forall acc,
             List.length (fold_left (fun acc x => insertBy key x acc) l acc)
             = (List.length l + List.length acc)%nat).
  { induction l as [|x rest IH]; intros acc; simpl; [reflexivity|].
    rewrite IH, length_insertBy. lia. }
  rewrite H. simpl. lia.
Qed.

(** Non-increasing keys along the list. *)
Definition descending {A : Type} (key : A -> Z) (l : list A) : Prop :=
  StronglySorted (fun a b => key b <= key a) l.

Lemma sortDescending_descending {A : Type} (key : A -> Z) (l : list A) :
  descending key (sortDescending key l).
Proof.
  unfold descending, sortDescending.
  pose proof (PredictionProperties.sortAscending_ascending (fun x => - key x) l) as H.
  unfold PredictionProperties.ascending in H.
  induction H as [|a rest Hrest IH Hall]; constructor; [exact IH|].
  rewrite Forall_forall in Hall |- *. intros b Hb. specialize (Hall b Hb). lia.
Qed.

Lemma descending_rev {A : Type} (key : A -> Z) (l : list A) :
  descending key l -> PredictionProperties.ascending key (rev l).
Proof.
  unfold descending, PredictionProperties.ascending.
  induction 1 as [|a rest Hrest IH Hall]; simpl; [constructor|].
  assert (Hsnoc : forall l', StronglySorted (fun a b => key a <= key b) l' ->
                             Forall (fun b => key b <= key a) l' ->
                             StronglySorted (fun a b => key a <= key b) (l' ++ [a])).
  { clear. induction 1 as [|x l' Hl' IH' Hx]; intros Hle; simpl.
    - constructor; constructor.
    - inversion Hle as [|? ? Hxa Hrest]; subst.
      constructor; [apply IH'; exact Hrest|].
      apply Forall_app. split; [exact Hx | constructor; [exact Hxa | constructor]]. }
  apply Hsnoc; [exact IH|].
  apply Forall_forall. intros b Hb. apply in_rev in Hb.
  rewrite Forall_forall in Hall. apply Hall. exact Hb.
Qed.

Lemma descending_split {A : Type} (key : A -> Z) (n : nat) (l : list A) :
  descending key l ->
  forall kept dropped, In kept (firstn n l) -> In dropped (skipn n l) ->
                       key dropped <= key kept.
Proof.
  intros Hsorted. revert n.
  induction Hsorted as [|a rest Hrest IH Hall]; intros n kept dropped Hk Hd.
  - rewrite firstn_nil in Hk. contradiction.
  - destruct n as [|n]; [contradiction|].
    simpl in Hk, Hd. destruct Hk as [<- | Hk].
    + rewrite Forall_forall in Hall. apply Hall.
      rewrite <- (firstn_skipn n rest). apply in_or_app. right. exact Hd.
    + apply (IH n); assumption.
Qed.

(** The candles of a session and of the fixed pair. *)
Definition ofSession (sid : string) (c : CandleData) : Prop :=
  sessionId c = sid /\ tradingPair c = "EUR/USD OTC"%string.

(** X4: [getRecentCandles] returns the most recent candles of the session,
    oldest first: with a positive [limit] at most [limit] of them and all of
    them when there are fewer, and all of them with a [limit] of zero, which
    the query takes as no limit; each one is a stored candle of the session,
    they come in ascending time order, and no stored candle of the session
    that is left out is newer than a returned one. *)
Theorem recent_candles_are_the_latest (coll : list CandleData) (sid : string)
    (limit : nat) :
  let recent := getRecentCandles coll sid limit in
  let stored :=
    List.length (filter (fun c => String.eqb (sessionId c) sid
                                  && String.eqb (tradingPair c) "EUR/USD OTC") coll) in
  List.length recent = (if (limit =? 0)%nat then stored else Nat.min limit stored)
  /\ (forall c, In c recent -> In c coll /\ ofSession sid c)
  /\ PredictionProperties.ascending timestamp recent
  /\ (forall c, In c coll -> ofSession sid c ->
                In c recent \/ forall r, In r recent -> timestamp c <= timestamp r).
Proof.
  intros recent stored. unfold recent, stored, getRecentCandles.
  set (matching := filter _ coll).
  set (sorted := sortDescending timestamp matching).
  assert (Hin : forall c, In c sorted <-> In c coll /\ ofSession sid c).
  { intros c. unfold sorted, sortDescending, matching, ofSession.
    rewrite PredictionProperties.in_sortAscending, filter_In, andb_true_iff,
      !String.eqb_eq. tauto. }
  assert (Hsorted : descending timestamp sorted) by apply sortDescending_descending.
  assert (Hlength : List.length sorted = List.length matching).
  { unfold sorted, sortDescending. apply length_sortAscending. }
  unfold limitTo. destruct (limit =? 0)%nat.
  - split; [rewrite length_rev; exact Hlength|].
    split; [intros c Hc; apply in_rev in Hc; apply Hin; exact Hc|].
    split; [apply descending_rev; exact Hsorted|].
    intros c Hc Hof. left. apply -> in_rev. apply Hin. tauto.
  - split; [|split; [|split]].
    + rewrite length_rev, length_firstn, Hlength. reflexivity.
    + intros c Hc. apply in_rev in Hc. apply Hin.
      rewrite <- (firstn_skipn limit sorted). apply in_or_app. left. exact Hc.
    + apply descending_rev.
      unfold descending in *.
      rewrite <- (firstn_skipn limit sorted) in Hsorted.
      clear - Hsorted. induction (firstn limit sorted) as [|a rest IH]; [constructor|].
      simpl in Hsorted. inversion Hsorted as [|? ? Hrest Hall]; subst.
      constructor; [apply IH; exact Hrest|].
      apply Forall_app in Hall. tauto.
    + intros c Hc Hof.
      assert (Hcs : In c sorted) by (apply Hin; tauto).
      rewrite <- (firstn_skipn limit sorted) in Hcs. apply in_app_or in Hcs.
      destruct Hcs as [Hkept | Hdropped].
      * left. apply -> in_rev. exact Hkept.
      * right. intros r Hr. apply in_rev in Hr.
        apply (descending_split timestamp limit sorted Hsorted); assumption.
Qed.

(** Three stored candles of the session: a limit of two returns the two
    latest, a limit of zero all three. *)
Example recent_candles_limits :
  let coll := [captureAfter 0; captureAfter 60; captureAfter 120] in
  getRecentCandles coll "quotex-session-1" 2 = [captureAfter 60; captureAfter 120]
  /\ getRecentCandles coll "quotex-session-1" 0 = coll.
Proof. split; vm_compute; reflexivity. Qed.

End CaptureStoreProperties.

(** * Further properties of the prediction service *)

Module PredictionBounds.
Import PredictionService PredictionProperties.

Lemma pattern_confidence_bounds (recentCandles : list CandleData)
    (similar : list SimilarPattern) (r : PredictionData) :
  predictFromSimilar recentCandles similar = Some r ->
  50 <= confidence r <= 95.
Proof.
  unfold predictFromSimilar.
  destruct similar as [|m rest] eqn:Hsim; [discriminate|].
  rewrite <- Hsim.
  replace (List.length similar =? 0)%nat with false by (rewrite Hsim; reflexivity).
  intros Hr. injection Hr as <-. cbn [confidence].
  rewrite tally_counts. cbn [ups downs]. rewrite !Z.add_0_l.
  pose proof (occurrences_total (outcomesOf similar)) as Htotal.
  assert (Hlen : 0 < Z.of_nat (List.length (outcomesOf similar))).
  { rewrite Hsim. simpl. lia. }
  assert (Hup : 0 <= occurrences up (outcomesOf similar)) by (unfold occurrences; lia).
  assert (Hdown : 0 <= occurrences down (outcomesOf similar)) by (unfold occurrences; lia).
  rewrite Htotal, mathRound_ratio by exact Hlen.
  set (t := Z.of_nat (List.length (outcomesOf similar))) in *.
  set (w := Z.max (occurrences up (outcomesOf similar))
                  (occurrences down (outcomesOf similar))).
  assert (Hw : 2 * w >= t) by (unfold w; lia).
  assert (Hdiv : 50 <= (200 * w + t) / (2 * t)).
  { apply Z.div_le_lower_bound; lia. }
  lia.
Qed.

Lemma countConsecutive_at_least (lastDirection : option Direction)
    (earlier : list Direction) (c : Z) :
  c <= countConsecutive lastDirection earlier c.
Proof.
  revert c. induction earlier as [|d older IH]; intros c; simpl; [lia|].
  destruct (sameAsLast lastDirection d); [|lia].
  specialize (IH (c + 1)). lia.
Qed.

Lemma trend_confidence_bounds (directions : list Direction) :
  55 <= confidence (trendOf directions) <= 95.
Proof.
  unfold trendOf. cbn [confidence].
  destruct (3 <=? countConsecutive _ _ 1) eqn:E.
  - apply Z.leb_le in E. lia.
  - lia.
Qed.

(** X5: [generatePrediction] answers exactly when it is given at least ten
    candles, and every prediction it returns has a confidence between 50 and
    95, whatever the history holds. *)
Theorem generated_confidence_in_range (coll recentCandles : list CandleData) :
  match generatePrediction coll recentCandles with
  | None => (List.length recentCandles < 10)%nat
  | Some r => (10 <= List.length recentCandles)%nat /\ 50 <= confidence r <= 95
  end.
Proof.
  unfold generatePrediction, minCandlesRequired.
  destruct (List.length recentCandles <? 10)%nat eqn:Hlen.
  - apply Nat.ltb_lt in Hlen. exact Hlen.
  - apply Nat.ltb_ge in Hlen.
    set (window := sliceLast 5 (rev recentCandles)).
    pose proof (trend_confidence_bounds (directionsOf window)) as Htrend.
    unfold predictFromPatterns, predictFromTrend, combinePredictions.
    destruct (predictFromSimilar window (findSimilarPatterns coll window))
      as [p|] eqn:Hp.
    + apply pattern_confidence_bounds in Hp.
      destruct (Direction_eqb (direction p) (direction (trendOf (directionsOf window))));
        cbn [confidence withConfidence]; split; try exact Hlen; lia.
    + split; [exact Hlen | lia].
Qed.

(** ** Verification touches one record *)

(** What verification may do to one stored record: leave it, or, for the
    record with the given id, write the three grading fields
    ([actualResult], [accuracy] and [isProcessed]) and keep every other
    field as it is. *)
Definition gradedOrKept (predictionId : nat) (before after : PredictionModel.Prediction)
  : Prop :=
  after = before
  \/ (PredictionModel._id before = predictionId
      /\ exists result accuracy,
           after
           = PredictionModel.mkPrediction (PredictionModel._id before)
               (PredictionModel.timestamp before) (PredictionModel.tradingPair before)
               (PredictionModel.direction before) (PredictionModel.confidence before)
               (PredictionModel.algorithmUsed before) (PredictionModel.patternId before)
               (PredictionModel.similarPatternsFound before)
               (PredictionModel.sessionId before)
               (Some result) (Some accuracy) true).

Lemma updateFirst_graded (predictionId : nat) (now : Z) (actualCandle : CandleData)
    (p : PredictionModel.Prediction) (coll : list PredictionModel.Prediction) :
  find (hasId predictionId) coll = Some p ->
  Forall2 (gradedOrKept predictionId) coll
    (updateFirst (hasId predictionId) (fun _ => graded now p actualCandle) coll).
Proof.
  induction coll as [|x rest IH]; intros Hfind; [discriminate|].
  simpl in *. destruct (hasId predictionId x) eqn:Hx.
  - injection Hfind as ->. constructor.
    + right. unfold hasId in Hx. apply Nat.eqb_eq in Hx.
      split; [exact Hx|]. eexists. eexists. reflexivity.
    + clear. induction rest; constructor; [left; reflexivity | assumption].
  - constructor; [left; reflexivity | apply IH; exact Hfind].
Qed.

(** X6: Verification keeps the collection record for record: each stored
    prediction is either untouched or is the one with the given id, of which
    only the grading fields change; an unknown id, or a refused save (the
    grading fails the schema or the database refuses the write), returns
    nothing and changes nothing. *)
Theorem verification_touches_one_record
    (saveSucceeds : PredictionModel.Prediction -> bool) (now : Z)
    (coll : list PredictionModel.Prediction) (predictionId : nat)
    (actualCandle : CandleData) :
  Forall2 (gradedOrKept predictionId) coll
    (snd (verifyPrediction saveSucceeds now coll predictionId actualCandle))
  /\ (fst (verifyPrediction saveSucceeds now coll predictionId actualCandle) = None ->
      snd (verifyPrediction saveSucceeds now coll predictionId actualCandle) = coll)
  /\ ((forall p, In p coll -> PredictionModel._id p <> predictionId) ->
      verifyPrediction saveSucceeds now coll predictionId actualCandle = (None, coll))
  /\ (forall p, find (hasId predictionId) coll = Some p ->
                PredictionModel.validPrediction (graded now p actualCandle)
                && saveSucceeds (graded now p actualCandle) = false ->
                verifyPrediction saveSucceeds now coll predictionId actualCandle
                = (None, coll)).
Proof.
  assert (Hkept : Forall2 (gradedOrKept predictionId) coll coll).
  { clear. induction coll; constructor; [left; reflexivity | assumption]. }
  unfold verifyPrediction, saved.
  destruct (find (hasId predictionId) coll) as [p|] eqn:Hfind.
  - assert (Hknown : ~ (forall q, In q coll -> PredictionModel._id q <> predictionId)).
    { intros Hnone. apply find_some in Hfind. destruct Hfind as [Hin Hid].
      apply (Hnone p Hin). unfold hasId in Hid. apply Nat.eqb_eq in Hid. exact Hid. }
    destruct (PredictionModel.validPrediction (graded now p actualCandle)
              && saveSucceeds (graded now p actualCandle)) eqn:Hsave; cbn [fst snd].
    + split; [apply updateFirst_graded; exact Hfind|].
      split; [discriminate|].
      split; [intros Hnone; exfalso; exact (Hknown Hnone)|].
      intros q Hq Hrefused. injection Hq as <-. congruence.
    + split; [exact Hkept|]. split; [reflexivity|].
      split; [intros Hnone; exfalso; exact (Hknown Hnone)|].
      intros q _ _. reflexivity.
  - cbn [fst snd]. split; [exact Hkept|]. split; [reflexivity|].
    split; [reflexivity|]. intros p Hp. discriminate Hp.
Qed.

End PredictionBounds.

(** * Further properties of the data routes *)

(** ** routes/data.js: the statistics of GET /api/data/prediction *)

Module PredictionRouteStats.


(** [p.actualResult.correct === true] *)
Definition isCorrect (p : PredictionModel.Prediction) : bool :=
  match PredictionModel.actualResult p with
  | Some graded => PredictionModel.correct graded
  | None => false
  end.




End PredictionRouteStats.

Module RouteDataProperties.
Import SessionManager DataRoutes PredictionRouteStats.
Import CaptureStoreProperties.

(** A candle the query of /candles selects for a session. *)
Definition candleOf (q : Query) (sid : string) (c : CandleData) : Prop :=
  CandleDataModel.tradingPair c = tradingPair q
  /\ CandleDataModel.sessionId c = sid
  /\ (forall b, startDate q = Some b -> b <= CandleDataModel.timestamp c)
  /\ (forall b, endDate q = Some b -> CandleDataModel.timestamp c <= b).

Lemma limitTo_incl {A : Type} (n : nat) (l : list A) (x : A) :
  In x (limitTo n l) -> In x l.
Proof.
  unfold limitTo. destruct (n =? 0)%nat; [tauto|].
  intros H. rewrite <- (firstn_skipn n l). apply in_or_app. left. exact H.
Qed.

Lemma limitTo_descending {A : Type} (key : A -> Z) (n : nat) (l : list A) :
  descending key l -> descending key (limitTo n l).
Proof.
  unfold limitTo. destruct (n =? 0)%nat; [tauto|].
  unfold descending. intros H. rewrite <- (firstn_skipn n l) in H.
  induction (firstn n l) as [|a rest IH]; [constructor|].
  simpl in H. inversion H as [|? ? Hrest Hall]; subst.
  constructor; [apply IH; exact Hrest|].
  apply Forall_app in Hall. tauto.
Qed.

(** X7: Every candle /candles returns belongs to the session that asked, which
    the session manager reports as logged in, and to the pair and the dates
    of the query; the candles come newest first, and no more than the limit
    when one is given. A logged-in session is answered with status 200 and
    with every stored candle of the query, except that a limit cuts off the
    oldest ones: a candle left out is never newer than a returned one. *)
Theorem candles_route_serves_own_session
    (runPuppeteerValidation : string -> ValidationResult) (clk : Clock)
    (sessionColl : list SessionDataModel.SessionData) (candleColl : list CandleData)
    (q : Query) :
  let answer := fst (getCandles runPuppeteerValidation clk sessionColl candleColl q) in
  Forall
    (fun c =>
       In c candleColl
       /\ exists sid,
            givenSession q = Some sid
            /\ isLoggedIn
                 (result (validateQuotexSession runPuppeteerValidation clk sessionColl sid))
               = true
            /\ candleOf q sid c)
    (candles answer)
  /\ descending CandleDataModel.timestamp (candles answer)
  /\ (limit q <> 0%nat -> (List.length (candles answer) <= limit q)%nat)
  /\ (forall sid,
        givenSession q = Some sid ->
        isLoggedIn
          (result (validateQuotexSession runPuppeteerValidation clk sessionColl sid))
        = true ->
        statusCode answer = 200
        /\ forall c,
             In c candleColl -> candleOf q sid c ->
             In c (candles answer)
             \/ (List.length (candles answer) = limit q
                 /\ forall r, In r (candles answer) ->
                              CandleDataModel.timestamp c
                              <= CandleDataModel.timestamp r)).
Proof.
  intros answer. unfold answer, getCandles.
  destruct (givenSession q) as [sid|];
    [|cbn [fst candles];
      split; [constructor | split; [constructor | split; [simpl; lia | discriminate]]]].
  destruct (isLoggedIn (result (validateQuotexSession _ clk sessionColl sid))) eqn:Hlog;
    cbn [negb fst candles];
    [|split; [constructor | split; [constructor | split; [simpl; lia|]]];
      intros sid' H Hlog'; injection H as <-; congruence].
  split; [|split; [|split; [|intros sid' Hsid' _; injection Hsid' as <-;
                              split; [reflexivity|]]]].
  - apply Forall_forall. intros c Hc.
    apply limitTo_incl in Hc. unfold sortDescending in Hc.
    apply PredictionProperties.in_sortAscending in Hc.
    apply filter_In in Hc. destruct Hc as [Hin Hq].
    rewrite !andb_true_iff, !String.eqb_eq in Hq.
    destruct Hq as (((Hpair & Hsid) & Hfrom) & Hto).
    split; [exact Hin|]. exists sid. split; [reflexivity|]. split; [exact Hlog|].
    unfold candleOf, atLeast, atMost in *.
    repeat split; try assumption.
    + intros b Hb. rewrite Hb in Hfrom. apply Z.leb_le. exact Hfrom.
    + intros b Hb. rewrite Hb in Hto. apply Z.leb_le. exact Hto.
  - apply limitTo_descending, sortDescending_descending.
  - intros Hlimit. unfold limitTo.
    replace (limit q =? 0)%nat with false by (symmetry; apply Nat.eqb_neq; exact Hlimit).
    rewrite length_firstn. lia.
  - intros c Hin (Hpair & Hsid & Hfrom & Hto).
    set (sorted := sortDescending CandleDataModel.timestamp _).
    assert (Hc : In c sorted).
    { unfold sorted, sortDescending.
      apply PredictionProperties.in_sortAscending. apply filter_In.
      split; [exact Hin|].
      rewrite !andb_true_iff, !String.eqb_eq.
      repeat split; try assumption.
      - unfold atLeast. destruct (startDate q) as [b|]; [|reflexivity].
        apply Z.leb_le. apply Hfrom. reflexivity.
      - unfold atMost. destruct (endDate q) as [b|]; [|reflexivity].
        apply Z.leb_le. apply Hto. reflexivity. }
    unfold limitTo. destruct (limit q =? 0)%nat; [left; exact Hc|].
    rewrite <- (firstn_skipn (limit q) sorted) in Hc. apply in_app_or in Hc.
    destruct Hc as [Hkept | Hdropped]; [left; exact Hkept|].
    right. split.
    + apply firstn_length_le.
      destruct (Nat.le_gt_cases (limit q) (List.length sorted)) as [Hle | Hgt];
        [exact Hle|].
      rewrite skipn_all2 in Hdropped by lia. contradiction.
    + intros r Hr.
      apply (descending_split CandleDataModel.timestamp (limit q) sorted
               (sortDescending_descending _ _)); assumption.
Qed.

Lemma descending_head {A : Type} (key : A -> Z) (l : list A) (x : A) :
  descending key l -> hd_error l = Some x -> forall y, In y l -> key y <= key x.
Proof.
  intros Hsorted Hhd y Hy.
  destruct l as [|a rest]; [discriminate|].
  injection Hhd as ->. inversion Hsorted as [|? ? _ Hall]; subst.
  destruct Hy as [<- | Hy]; [lia|].
  rewrite Forall_forall in Hall. apply Hall. exact Hy.
Qed.

(** X8: The prediction /prediction returns is a stored prediction of the session
    that asked, a session reported as logged in, and of the pair asked for,
    and no stored prediction of that session and pair is more recent; a
    logged-in session that has a stored prediction of the pair always gets
    one. *)
Theorem prediction_route_serves_latest_of_session
    (runPuppeteerValidation : string -> ValidationResult) (clk : Clock)
    (sessionColl : list SessionDataModel.SessionData) (predictionColl : list Prediction)
    (q : Query) :
  match prediction (fst (getPrediction runPuppeteerValidation clk sessionColl
                           predictionColl q)) with
  | None => True
  | Some p =>
      In p predictionColl
      /\ PredictionModel.tradingPair p = tradingPair q
      /\ exists sid,
           givenSession q = Some sid
           /\ PredictionModel.sessionId p = sid
           /\ isLoggedIn
                (result (validateQuotexSession runPuppeteerValidation clk sessionColl sid))
              = true
           /\ forall p',
                In p' predictionColl ->
                PredictionModel.tradingPair p' = tradingPair q ->
                PredictionModel.sessionId p' = sid ->
                PredictionModel.timestamp p' <= PredictionModel.timestamp p
  end
  /\ (forall sid,
        givenSession q = Some sid ->
        isLoggedIn
          (result (validateQuotexSession runPuppeteerValidation clk sessionColl sid))
        = true ->
        (exists p', In p' predictionColl
                    /\ PredictionModel.tradingPair p' = tradingPair q
                    /\ PredictionModel.sessionId p' = sid) ->
        prediction (fst (getPrediction runPuppeteerValidation clk sessionColl
                           predictionColl q)) <> None).
Proof.
  unfold getPrediction.
  destruct (givenSession q) as [sid|]; [|split; [exact I | discriminate]].
  destruct (isLoggedIn (result (validateQuotexSession _ clk sessionColl sid))) eqn:Hlog;
    cbn [negb]; [|split; [exact I | intros ? H; injection H as <-; congruence]].
  set (matching := filter _ predictionColl).
  assert (Hin : forall p, In p (sortDescending PredictionModel.timestamp matching)
                          <-> In p predictionColl
                              /\ PredictionModel.tradingPair p = tradingPair q
                              /\ PredictionModel.sessionId p = sid).
  { intros p. unfold sortDescending, matching.
    rewrite PredictionProperties.in_sortAscending, filter_In, andb_true_iff,
      !String.eqb_eq. tauto. }
  destruct (hd_error (sortDescending PredictionModel.timestamp matching))
    as [p|] eqn:Hhd; cbn [fst prediction].
  - split; [|discriminate].
    assert (Hp : In p (sortDescending PredictionModel.timestamp matching)).
    { destruct (sortDescending PredictionModel.timestamp matching); [discriminate|].
      injection Hhd as ->. left. reflexivity. }
    apply Hin in Hp. destruct Hp as (Hcoll & Hpair & Hsid).
    split; [exact Hcoll|]. split; [exact Hpair|].
    exists sid. repeat split; try assumption.
    intros p' Hcoll' Hpair' Hsid'.
    apply (descending_head PredictionModel.timestamp _ p
             (sortDescending_descending _ _) Hhd).
    apply Hin. tauto.
  - split; [exact I|].
    intros sid' Hsid' _ (p' & Hcoll' & Hpair' & Hp'). injection Hsid' as <-.
    exfalso.
    assert (Hp : In p' (sortDescending PredictionModel.timestamp matching))
      by (apply Hin; tauto).
    destruct (sortDescending PredictionModel.timestamp matching);
      [contradiction | discriminate].
Qed.

(** ** The accuracy shown with a prediction *)





End RouteDataProperties.

(** * Further properties of the session cache *)

(** ** models/SessionData.js: the reaper *)

Module SessionMaintenance.
Import SessionDataModel.

(** The filter of [cleanupExpiredSessions]: expired, or idle for more than
    seven days while not active. The query reads the clock twice, once for
    each branch. *)
Definition reaped (atExpiry atIdle : Z) (d : SessionData) : bool :=
  (expiresAt d <? atExpiry)
  || ((lastActivity d <? atIdle - 7 * 24 * 60 * 60 * 1000)
      && negb (Status_eqb (status d) active)).

(** [cleanupExpiredSessions]: the number of deleted records and the
    collection afterwards. *)
Definition cleanupExpiredSessions (coll : list SessionData) (atExpiry atIdle : Z)
  : nat * list SessionData :=
  (List.length (filter (reaped atExpiry atIdle) coll),
   filter (fun d => negb (reaped atExpiry atIdle d)) coll).

End SessionMaintenance.

Module SessionLifeProperties.
Import SessionDataModel SessionManager SessionMaintenance SessionCacheProperties.

(** A browser validation that finds every session logged in. *)
Definition alwaysLoggedIn (_ : string) : ValidationResult :=
  mkValidationResult true true "User is logged into Quotex"
    (Some fresh_puppeteer_validation).

Lemma find_filter_kept {A : Type} (q keep : A -> bool) (l : list A) :
  (forall x, q x = true -> keep x = true) ->
  find q (filter keep l) = find q l.
Proof.
  intros Himp. induction l as [|x rest IH]; [reflexivity|].
  simpl. destruct (keep x) eqn:Hk; simpl.
  - destruct (q x); [reflexivity | exact IH].
  - destruct (q x) eqn:Hq; [|exact IH].
    apply Himp in Hq. congruence.
Qed.

Lemma length_filter_split {A : Type} (f : A -> bool) (l : list A) :
  (List.length (filter f l) + List.length (filter (fun x => negb (f x)) l)
   = List.length l)%nat.
Proof.
  induction l as [|x rest IH]; [reflexivity|].
  simpl. destruct (f x); simpl; lia.
Qed.

(** X10: The reaper deletes exactly the records that are expired or idle for
    over seven days without being active, and a cleanup never changes what
    a later validation does: the cache lookup finds the same record, so the
    answer and the calls to the browser are the same as without it. *)
Theorem cleanup_spares_usable_sessions
    (runPuppeteerValidation : string -> ValidationResult) (clk : Clock)
    (coll : list SessionData) (sid : string) (atExpiry atIdle : Z) :
  atExpiry <= atLookup clk ->
  let swept := cleanupExpiredSessions coll atExpiry atIdle in
  (fst swept + List.length (snd swept) = List.length coll)%nat
  /\ (forall d, In d (snd swept)
                <-> In d coll
                    /\ atExpiry <= expiresAt d
                    /\ (atIdle - 604800000 <= lastActivity d \/ status d = active))
  /\ findValidatedSession (snd swept) sid (atLookup clk)
     = findValidatedSession coll sid (atLookup clk)
  /\ result (validateQuotexSession runPuppeteerValidation clk (snd swept) sid)
     = result (validateQuotexSession runPuppeteerValidation clk coll sid)
  /\ calls (validateQuotexSession runPuppeteerValidation clk (snd swept) sid)
     = calls (validateQuotexSession runPuppeteerValidation clk coll sid).
Proof.
  intros Hlater swept. unfold swept, cleanupExpiredSessions. cbn [fst snd].
  assert (Hfind : findValidatedSession
                    (filter (fun d => negb (reaped atExpiry atIdle d)) coll) sid
                    (atLookup clk)
                  = findValidatedSession coll sid (atLookup clk)).
  { unfold findValidatedSession. apply find_filter_kept.
    intros d Hq. apply validatedQuery_true in Hq.
    destruct Hq as (_ & _ & Hactive & Hexp).
    unfold reaped. rewrite Hactive. simpl. rewrite andb_false_r, orb_false_r.
    apply negb_true_iff, Z.ltb_ge. lia. }
  split; [apply length_filter_split|].
  split.
  { intros d. rewrite filter_In. unfold reaped.
    rewrite negb_true_iff, orb_false_iff, andb_false_iff, negb_false_iff,
      Status_eqb_eq, !Z.ltb_ge.
    split; intros (Hin & H); (split; [exact Hin|]).
    - destruct H as [H1 [H2|H2]]; (split; [lia|]); [left; lia | right; exact H2].
    - destruct H as [H1 [H2|H2]]; (split; [lia|]); [left; lia | right; exact H2]. }
  split; [exact Hfind|].
  unfold validateQuotexSession. rewrite Hfind.
  destruct (findValidatedSession coll sid (atLookup clk)) as [d|].
  - destruct (negb (needsRevalidation d (atAgeCheck clk))); [split; reflexivity|].
    destruct (isLoggedIn (runPuppeteerValidation sid)); split; reflexivity.
  - destruct (isLoggedIn (runPuppeteerValidation sid)); split; reflexivity.
Qed.

Definition staleAndLive : list SessionData :=
  [mkSessionData "old" true 0 0 0 0 active [] 1000;
   mkSessionData "live" true 5000 0 5000 5000 active [] 90000000].

Definition laterClock : Clock := mkClock 6000 6000 6000 6000.

Lemma cleanup_spares_usable_sessions_witness :
  fst (cleanupExpiredSessions staleAndLive 5500 5500) = 1%nat
  /\ calls (validateQuotexSession alwaysLoggedIn laterClock
              (snd (cleanupExpiredSessions staleAndLive 5500 5500)) "live")
     = calls (validateQuotexSession alwaysLoggedIn laterClock staleAndLive "live").
Proof.
  split; [reflexivity|].
  apply (cleanup_spares_usable_sessions alwaysLoggedIn laterClock staleAndLive
           "live" 5500 5500).
  vm_compute. discriminate.
Defined.

(** Running the reaper again at the same instants deletes nothing more. *)
Lemma cleanup_twice (coll : list SessionData) (atExpiry atIdle : Z) :
  cleanupExpiredSessions (snd (cleanupExpiredSessions coll atExpiry atIdle))
    atExpiry atIdle
  = (0%nat, snd (cleanupExpiredSessions coll atExpiry atIdle)).
Proof.
  unfold cleanupExpiredSessions. cbn [snd].
  induction coll as [|d rest IH]; [reflexivity|].
  simpl. destruct (reaped atExpiry atIdle d) eqn:Hr; simpl; [exact IH|].
  rewrite Hr. simpl. injection IH as Hn Hl. rewrite Hn, Hl. reflexivity.
Qed.

(** *** A fresh validation is never cached *)

(** X11: A validation that consults the browser leaves the session store as
    it was and never answers that the user is logged in. When the browser
    finds the user not logged in, its answer is returned; when it finds the
    user logged in, the store of the session throws (its update writes
    [validationDetails] and pushes into [validationDetails.validationHistory])
    and the answer is that the validation failed. A later validation finds
    the store unchanged, so it consults the browser again unless another
    record of the session is served from the cache. *)
Theorem fresh_validation_is_never_cached
    (runPuppeteerValidation : string -> ValidationResult) (clk : Clock)
    (coll : list SessionData) (sid : string) :
  calls (validateQuotexSession runPuppeteerValidation clk coll sid)
    = [RunPuppeteerValidation sid] ->
  sessions (validateQuotexSession runPuppeteerValidation clk coll sid) = coll
  /\ isLoggedIn (result (validateQuotexSession runPuppeteerValidation clk coll sid))
     = false
  /\ (isLoggedIn (runPuppeteerValidation sid) = false ->
      result (validateQuotexSession runPuppeteerValidation clk coll sid)
      = runPuppeteerValidation sid)
  /\ (isLoggedIn (runPuppeteerValidation sid) = true ->
      result (validateQuotexSession runPuppeteerValidation clk coll sid)
      = validationFailed)
  /\ storeValidatedSession coll
       (mkSessionInput sid (atStore clk)
          (Some (resultMessage (runPuppeteerValidation sid))))
       (atStore clk)
     = Threw.
Proof.
  intros Hslow.
  destruct (validateQuotexSession_cases runPuppeteerValidation clk coll sid)
    as [(d & _ & _ & Hout) | (_ & Hout)]; rewrite Hout in *; [discriminate Hslow|].
  cbn [sessions result].
  split; [reflexivity|].
  split; [apply freshAnswer_not_logged_in|].
  unfold freshAnswer.
  split; [intros ->; reflexivity|].
  split; [intros ->; reflexivity | reflexivity].
Qed.

Lemma fresh_validation_is_never_cached_witness :
  sessions (validateQuotexSession alwaysLoggedIn (mkClock 0 0 0 0) [] "s") = []
  /\ result (validateQuotexSession alwaysLoggedIn (mkClock 0 0 0 0) [] "s")
     = validationFailed.
Proof.
  destruct (fresh_validation_is_never_cached alwaysLoggedIn (mkClock 0 0 0 0) [] "s"
              eq_refl) as (Hkept & _ & _ & Hfailed & _).
  split; [exact Hkept | exact (Hfailed eq_refl)].
Defined.

(** The store succeeds when the given object has no [validationDetails]:
    the record then serves the next validation from the cache. *)
Example store_without_details :
  storeValidatedSession [] (mkSessionInput "s" 0 None) 0
  = Returned [mkSessionData "s" true 0 0 0 0 active [validatedEntry 0] 86400000].
Proof. reflexivity. Qed.

(** *** What a cache hit writes *)

(** The record after [updateActivity] and [refreshExpiration(24)]. *)
Definition touched (now : Z) (d : SessionData) : SessionData :=
  mkSessionData (sessionId d) (isValidated d) (lastValidationCheck d)
    (validationAttempts d + 1) now (loginTimestamp d) (status d)
    (validationHistory d) (now + 86400000).

Lemma updateFirst_compose {A : Type} (p : A -> bool) (f g : A -> A) (l : list A) :
  (forall x, p x = true -> p (g x) = true) ->
  updateFirst p f (updateFirst p g l) = updateFirst p (fun x => f (g x)) l.
Proof.
  intros Hg. induction l as [|x rest IH]; simpl; [reflexivity|].
  destruct (p x) eqn:Hp; simpl.
  - rewrite (Hg x Hp). reflexivity.
  - rewrite Hp, IH. reflexivity.
Qed.

Lemma updateFirst_split {A : Type} (p : A -> bool) (f : A -> A) (l : list A) :
  existsb p l = true ->
  exists l1 x l2,
    l = l1 ++ x :: l2 /\ updateFirst p f l = l1 ++ f x :: l2
    /\ p x = true /\ forallb (fun y => negb (p y)) l1 = true.
Proof.
  induction l as [|y rest IH]; simpl; [discriminate|].
  destruct (p y) eqn:Hp; simpl.
  - intros _. exists [], y, rest. repeat split; assumption || reflexivity.
  - intros Hex. destruct (IH Hex) as (l1 & x & l2 & Hl & Hu & Hx & Hl1).
    exists (y :: l1), x, l2. simpl. rewrite Hp, Hl1, Hu.
    repeat split; try assumption. rewrite Hl at 1. reflexivity.
Qed.

(** X12: A validation answered from the cache writes to one record only, the
    first one of the session: its activity time becomes the time of the
    hit, its attempt counter goes up by one and its expiry moves to 24
    hours after the hit. The time of the last validation is not touched, so
    cache hits prolong the life of the record but never the two-hour
    window after which the browser is consulted again. *)
Theorem cache_hit_slides_expiry_only
    (runPuppeteerValidation : string -> ValidationResult) (clk : Clock)
    (coll : list SessionData) (sid : string) :
  calls (validateQuotexSession runPuppeteerValidation clk coll sid) = [] ->
  exists earlier record later,
    coll = earlier ++ record :: later
    /\ sessions (validateQuotexSession runPuppeteerValidation clk coll sid)
       = earlier ++ touched (atTouch clk) record :: later
    /\ sessionId record = sid
    /\ (forall d, In d earlier -> sessionId d <> sid)
    /\ lastValidationCheck (touched (atTouch clk) record) = lastValidationCheck record
    /\ expiresAt (touched (atTouch clk) record) = atTouch clk + hours 24.
Proof.
  intros Hhit.
  destruct (validateQuotexSession_cases runPuppeteerValidation clk coll sid)
    as [(d & Hfind & _ & Hout) | (_ & Hout)]; rewrite Hout in *;
    [|discriminate Hhit].
  cbn [sessions].
  apply find_some in Hfind. destruct Hfind as [Hin Hq].
  apply validatedQuery_true in Hq. destruct Hq as (Hsid & _).
  unfold refreshExpiration, updateActivity. rewrite Hsid.
  rewrite updateFirst_compose by (intros x Hx; exact Hx).
  assert (Hex : existsb (hasSessionId sid) coll = true).
  { apply existsb_exists. exists d. split; [exact Hin|].
    unfold hasSessionId. apply String.eqb_eq. exact Hsid. }
  destruct (updateFirst_split (hasSessionId sid)
              (fun x => mkSessionData (sessionId x) (isValidated x)
                          (lastValidationCheck x) (validationAttempts x + 1)
                          (atTouch clk) (loginTimestamp x) (status x)
                          (validationHistory x) (atTouch clk + hours 24))
              coll Hex) as (l1 & x & l2 & Hl & Hu & Hx & Hl1).
  exists l1, x, l2.
  split; [exact Hl|].
  split; [exact Hu|].
  split; [apply String.eqb_eq; exact Hx|].
  split; [|split; reflexivity].
  intros y Hy Hsame.
  rewrite forallb_forall in Hl1. specialize (Hl1 y Hy).
  apply negb_true_iff in Hl1. unfold hasSessionId in Hl1.
  apply String.eqb_neq in Hl1. exact (Hl1 Hsame).
Qed.

Lemma cache_hit_slides_expiry_only_witness :
  exists earlier record later,
    staleAndLive = earlier ++ record :: later
    /\ sessions (validateQuotexSession alwaysLoggedIn laterClock staleAndLive "live")
       = earlier ++ touched 6000 record :: later
    /\ sessionId record = "live"%string
    /\ (forall d, In d earlier -> sessionId d <> "live"%string)
    /\ lastValidationCheck (touched 6000 record) = lastValidationCheck record
    /\ expiresAt (touched 6000 record) = 6000 + hours 24.
Proof.
  apply (cache_hit_slides_expiry_only alwaysLoggedIn laterClock staleAndLive "live").
  reflexivity.
Defined.

End SessionLifeProperties.

From Stdlib Require Import Ascii.

(** * The pattern predictor *)

(** The three values of [direction] in db/candleModel.js and
    shared/utils.js. *)
Module DirectionText.

Inductive DirectionValue : Type := up | down | unknown.

Definition sameDirection (a b : DirectionValue) : bool :=
  match a, b with
  | up, up | down, down | unknown, unknown => true
  | _, _ => false
  end.

Definition text (d : DirectionValue) : string :=
  match d with up => "up" | down => "down" | unknown => "unknown" end.

Fixpoint samePattern (a b : list DirectionValue) : bool :=
  match a, b with
  | [], [] => true
  | x :: a', y :: b' => sameDirection x y && samePattern a' b'
  | _, _ => false
  end.

Lemma sameDirection_eq (a b : DirectionValue) : sameDirection a b = true <-> a = b.
Proof. destruct a, b; simpl; split; intro H; try reflexivity; discriminate H. Qed.

Lemma samePattern_eq (a b : list DirectionValue) : samePattern a b = true <-> a = b.
Proof.
  revert b. induction a as [|x a IH]; intros [|y b]; simpl;
    try (split; [reflexivity || discriminate | reflexivity || discriminate]).
  rewrite andb_true_iff, sameDirection_eq, IH.
  split; [intros [-> ->]; reflexivity | intros H; injection H; auto].
Qed.

End DirectionText.

(** ** shared/utils.js *)

Module SharedUtils.

(** [calculateConfidence(matches, total)], on counts. *)
Definition calculateConfidence (matches total : Z) : Z :=
  if total =? 0 then 50
  else mathRound (inject_Z matches / inject_Z total * 100)%Q.

(** The same on doubles: [Math.round((matches / total) * 100)]. *)
Definition calculateConfidenceOnDoubles (matches total : Z) : option Z :=
  if total =? 0 then Some 50
  else
    option_map mathRound
      (doubleValue
         (PrimFloat.mul (PrimFloat.div (doubleOfCount matches) (doubleOfCount total))
            (doubleOfCount 100))).

(** ToInt32: the signed 32-bit integer congruent to [x]. *)
Definition toInt32 (x : Z) : Z := (x + 2147483648) mod 4294967296 - 2147483648.

(** One turn of the loop of [generatePatternId]:
    [hash = ((hash << 5) - hash) + char; hash = hash & hash]. *)
Definition hashStep (hash char : Z) : Z :=
  let shifted := toInt32 (Z.shiftl (toInt32 hash) 5) in
  toInt32 (shifted - hash + char).

(** [charCodeAt] over the whole string. *)
Definition charCodes (s : string) : list Z :=
  map (fun a => Z.of_nat (nat_of_ascii a)) (list_ascii_of_string s).

Definition hexDigit (d : Z) : ascii :=
  nth (Z.to_nat d)
    ["0"; "1"; "2"; "3"; "4"; "5"; "6"; "7"; "8"; "9"; "a"; "b"; "c"; "d"; "e"; "f"]%char
    "0"%char.

Fixpoint toRadix16 (fuel : nat) (n : Z) (digits : string) : string :=
  match fuel with
  | O => digits
  | S fuel' =>
      let digits' := String (hexDigit (n mod 16)) digits in
      if n / 16 =? 0 then digits' else toRadix16 fuel' (n / 16) digits'
  end.

(** [n.toString(16)] for an integer [n >= 0]. *)
Definition toString16 (n : Z) : string :=
  toRadix16 (S (Z.to_nat (Z.log2 n))) n "".

(** [generatePatternId] on the directions of its candles:
    [candleData.map(c => c.direction).join('')] is hashed and the absolute
    value printed in hexadecimal. *)
Definition patternText (directions : list DirectionText.DirectionValue) : string :=
  String.concat "" (map DirectionText.text directions).

Definition patternHash (directions : list DirectionText.DirectionValue) : Z :=
  fold_left hashStep (charCodes (patternText directions)) 0.

Definition generatePatternId (directions : list DirectionText.DirectionValue) : string :=
  toString16 (Z.abs (patternHash directions)).

End SharedUtils.

Module SharedUtilsProperties.
Import SharedUtils.
Import DirectionText.

Lemma toInt32_range (x : Z) : -2147483648 <= toInt32 x < 2147483648.
Proof.
  unfold toInt32.
  pose proof (Z.mod_pos_bound (x + 2147483648) 4294967296 ltac:(lia)). lia.
Qed.

Lemma toInt32_mod (x : Z) : toInt32 x mod 4294967296 = x mod 4294967296.
Proof.
  unfold toInt32.
  rewrite Zminus_mod, Zmod_mod, <- Zminus_mod.
  f_equal. lia.
Qed.

Lemma toInt32_congruent (x y : Z) :
  x mod 4294967296 = y mod 4294967296 -> toInt32 x = toInt32 y.
Proof.
  intros H. unfold toInt32.
  rewrite (Zplus_mod x), (Zplus_mod y), H. reflexivity.
Qed.

Lemma toInt32_small (x : Z) : -2147483648 <= x < 2147483648 -> toInt32 x = x.
Proof.
  intros H. unfold toInt32. rewrite Z.mod_small by lia. lia.
Qed.

Lemma toInt32_offset (x : Z) : exists k, toInt32 x = x + k * 4294967296.
Proof.
  exists (- ((x + 2147483648) / 4294967296)). unfold toInt32.
  pose proof (Z.div_mod (x + 2147483648) 4294967296 ltac:(lia)). lia.
Qed.

(** One turn of the loop multiplies by 31 and adds the character code,
    modulo 2^32. *)
Lemma hashStep_congruent (h g c : Z) :
  h mod 4294967296 = g mod 4294967296 ->
  hashStep h c = toInt32 (31 * g + c).
Proof.
  intros H. unfold hashStep. apply toInt32_congruent.
  rewrite Z.shiftl_mul_pow2 by lia.
  change (2 ^ 5) with 32.
  destruct (toInt32_offset h) as [k2 E2].
  destruct (toInt32_offset (toInt32 h * 32)) as [k3 E3].
  assert (E1 : h = g + (h / 4294967296 - g / 4294967296) * 4294967296).
  { pose proof (Z.div_mod h 4294967296 ltac:(lia)).
    pose proof (Z.div_mod g 4294967296 ltac:(lia)). lia. }
  rewrite E3, E2.
  set (k1 := h / 4294967296 - g / 4294967296) in E1.
  replace ((h + k2 * 4294967296) * 32 + k3 * 4294967296 - h + c)
    with (31 * g + c + (31 * k1 + 32 * k2 + k3) * 4294967296) by lia.
  apply Z_mod_plus_full.
Qed.

Definition polynomial (codes : list Z) : Z :=
  fold_left (fun h c => 31 * h + c) codes 0.

Lemma fold_hashStep (codes : list Z) (h g : Z) :
  h = toInt32 g ->
  fold_left hashStep codes h = toInt32 (fold_left (fun h c => 31 * h + c) codes g).
Proof.
  revert h g. induction codes as [|c rest IH]; intros h g Hh; simpl.
  - exact Hh.
  - apply IH. apply hashStep_congruent. rewrite Hh. apply toInt32_mod.
Qed.

Definition digitValue (a : ascii) : Z :=
  let n := Z.of_nat (nat_of_ascii a) in
  if n <? 58 then n - 48 else n - 87.

(** The number a hexadecimal numeral denotes. *)
Definition hexValue (s : string) : Z :=
  fold_left (fun v a => 16 * v + digitValue a) (list_ascii_of_string s) 0.

Lemma digitValue_hexDigit (d : Z) : 0 <= d < 16 -> digitValue (hexDigit d) = d.
Proof.
  intros H.
  assert (Hcases : d = 0 \/ d = 1 \/ d = 2 \/ d = 3 \/ d = 4 \/ d = 5 \/ d = 6 \/ d = 7
                   \/ d = 8 \/ d = 9 \/ d = 10 \/ d = 11 \/ d = 12 \/ d = 13
                   \/ d = 14 \/ d = 15) by lia.
  repeat (destruct Hcases as [-> | Hcases]; [reflexivity|]).
  subst d. reflexivity.
Qed.

Lemma toRadix16_value (fuel : nat) :
  forall (n : Z) (digits : string),
    0 <= n < 16 ^ Z.of_nat fuel -> (0 < fuel)%nat ->
    exists k, forall v,
      fold_left (fun v a => 16 * v + digitValue a)
        (list_ascii_of_string (toRadix16 fuel n digits)) v
      = fold_left (fun v a => 16 * v + digitValue a)
          (list_ascii_of_string digits) (v * 16 ^ k + n)
      /\ 0 <= k.
Proof.
  induction fuel as [|fuel IH]; intros n digits Hn Hfuel; [lia|].
  simpl toRadix16.
  assert (Hdigit : digitValue (hexDigit (n mod 16)) = n mod 16)
    by (apply digitValue_hexDigit; apply Z.mod_pos_bound; lia).
  destruct (n / 16 =? 0) eqn:Hq.
  - apply Z.eqb_eq in Hq. exists 1. intros v. split; [|lia].
    cbn [list_ascii_of_string fold_left]. rewrite Hdigit. f_equal.
    change (16 ^ 1) with 16.
    pose proof (Z.div_mod n 16 ltac:(lia)). lia.
  - apply Z.eqb_neq in Hq.
    assert (Hpos : (0 < fuel)%nat).
    { destruct fuel; [|lia]. simpl in Hn.
      assert (n / 16 = 0) by (apply Z.div_small; lia). contradiction. }
    destruct (IH (n / 16) (String (hexDigit (n mod 16)) digits)) as (k & Hk).
    + split; [apply Z.div_pos; lia|].
      apply Z.div_lt_upper_bound; [lia|].
      rewrite Nat2Z.inj_succ, Z.pow_succ_r in Hn by lia. lia.
    + exact Hpos.
    + exists (k + 1). intros v. destruct (Hk v) as [Hv Hk0]. split; [|lia].
      rewrite Hv. cbn [list_ascii_of_string fold_left]. rewrite Hdigit. f_equal.
      rewrite Z.pow_add_r by lia. change (16 ^ 1) with 16.
      pose proof (Z.div_mod n 16 ltac:(lia)). lia.
Qed.

Lemma hexValue_toString16 (n : Z) : 0 <= n -> hexValue (toString16 n) = n.
Proof.
  intros Hn. unfold hexValue, toString16.
  destruct (toRadix16_value (S (Z.to_nat (Z.log2 n))) n "") as (k & Hk).
  - split; [exact Hn|].
    destruct (Z.eq_dec n 0) as [->|Hne]; [simpl; lia|].
    rewrite Nat2Z.inj_succ, Z2Nat.id by apply Z.log2_nonneg.
    pose proof (Z.log2_spec n ltac:(lia)) as [_ Hup].
    eapply Z.lt_le_trans; [exact Hup|].
    apply Z.pow_le_mono_l. lia.
  - lia.
  - destruct (Hk 0) as [H _]. rewrite H. simpl. lia.
Qed.

(** X13: The pattern id is the hexadecimal numeral of the absolute value of the
    signed 32-bit integer congruent to the polynomial hash
    [c1 * 31^(n-1) + ... + cn] of the character codes of the concatenated
    directions; its value never exceeds 2^31. *)
Theorem pattern_id_is_polynomial_hash (directions : list DirectionValue) :
  hexValue (generatePatternId directions)
  = Z.abs (toInt32 (polynomial (charCodes (patternText directions))))
  /\ 0 <= hexValue (generatePatternId directions) <= 2147483648
  /\ (toInt32 (polynomial (charCodes (patternText directions)))
      - polynomial (charCodes (patternText directions))) mod 4294967296 = 0.
Proof.
  unfold generatePatternId, patternHash, polynomial.
  rewrite hexValue_toString16 by apply Z.abs_nonneg.
  rewrite (fold_hashStep _ 0 0) by reflexivity.
  split; [reflexivity|].
  split.
  - pose proof (toInt32_range
                  (fold_left (fun h c => 31 * h + c)
                     (charCodes (patternText directions)) 0)). lia.
  - rewrite Zminus_mod, toInt32_mod, <- Zminus_mod, Z.sub_diag. reflexivity.
Qed.

Example pattern_id_of_three_up_two_down :
  generatePatternId [up; up; up; down; down] = "148732d5"%string.
Proof. vm_compute. reflexivity. Qed.

(** Every sequence of [k] directions. *)
Fixpoint patternsOfLength (k : nat) : list (list DirectionValue) :=
  match k with
  | O => [[]]
  | S k' => flat_map (fun p => [up :: p; down :: p; unknown :: p]) (patternsOfLength k')
  end.

Lemma in_patternsOfLength (p : list DirectionValue) :
  In p (patternsOfLength (List.length p)).
Proof.
  induction p as [|d rest IH]; simpl; [left; reflexivity|].
  apply in_flat_map. exists rest. split; [exact IH|].
  destruct d; simpl; tauto.
Qed.

Definition idsSeparate (k : nat) : bool :=
  let table := map (fun p => (p, generatePatternId p)) (patternsOfLength k) in
  forallb
    (fun a => forallb
                (fun b => implb (String.eqb (snd a) (snd b))
                            (samePattern (fst a) (fst b)))
                table)
    table.

Lemma idsSeparate_sound (k : nat) (a b : list DirectionValue) :
  idsSeparate k = true ->
  List.length a = k -> List.length b = k ->
  generatePatternId a = generatePatternId b -> a = b.
Proof.
  intros Hall Ha Hb Hid.
  unfold idsSeparate in Hall. cbv zeta in Hall. rewrite forallb_forall in Hall.
  assert (Hin : forall p, List.length p = k ->
                          In (p, generatePatternId p)
                            (map (fun p => (p, generatePatternId p)) (patternsOfLength k))).
  { intros p Hp. apply in_map_iff. exists p. split; [reflexivity|].
    rewrite <- Hp. apply in_patternsOfLength. }
  specialize (Hall _ (Hin a Ha)). rewrite forallb_forall in Hall.
  specialize (Hall _ (Hin b Hb)). cbn [fst snd] in Hall.
  rewrite Hid, String.eqb_refl in Hall.
  apply samePattern_eq. exact Hall.
Qed.

Lemma five_candle_ids_separate : idsSeparate 5 = true.
Proof. vm_compute. reflexivity. Qed.

(** X14: With the default pattern length of five candles, two patterns have the
    same id only when they are the same sequence of directions: none of the
    243 patterns collide, although the id drops the sign of the hash. *)
Theorem pattern_id_separates_five_candle_patterns (a b : list DirectionValue) :
  List.length a = 5%nat -> List.length b = 5%nat ->
  generatePatternId a = generatePatternId b -> a = b.
Proof.
  apply idsSeparate_sound. exact five_candle_ids_separate.
Qed.

Lemma pattern_id_separates_five_candle_patterns_witness :
  [up; down; up; down; up] = [up; down; up; down; up].
Proof.
  exact (pattern_id_separates_five_candle_patterns
           [up; down; up; down; up] [up; down; up; down; up]
           eq_refl eq_refl eq_refl).
Defined.

End SharedUtilsProperties.

(** ** db/candleModel.js *)

Module CandleModel.
Import DirectionText.

Record Candle : Type := mkCandle {
  timestamp : Z;
  tradingPair : string;
  direction : DirectionValue;
  open : Q;
  close : Q;
  high : Q;
  low : Q
}.

(** [a > b] on numbers. *)
Definition greater (a b : Q) : bool := negb (Qle_bool a b).

(** The pre-save hook. *)
Definition preSave (c : Candle) : Candle :=
  let direction' :=
    if greater (close c) (open c) then up
    else if greater (open c) (close c) then down
    else direction c in
  mkCandle (timestamp c) (tradingPair c) direction' (open c) (close c)
    (Qmax (Qmax (high c) (open c)) (close c))
    (Qmin (Qmin (low c) (open c)) (close c)).

(** A candle as the search reads it:
    [.select('timestamp direction open close high low').lean()]. *)
Record Selected : Type := mkSelected {
  seenTimestamp : Z;
  seenDirection : DirectionValue;
  seenOpen : Q;
  seenClose : Q;
  seenHigh : Q;
  seenLow : Q
}.

Definition select (c : Candle) : Selected :=
  mkSelected (timestamp c) (direction c) (open c) (close c) (high c) (low c).

(** One element of the array the static [findSimilarPatterns] returns. *)
Record SimilarCandles : Type := mkSimilarCandles {
  patternCandles : list Selected;
  nextCandle : Selected;
  matchTimestamp : Z
}.

(** [patternDirections.every((dir, index) =>
       allCandles[i + index].direction === dir)]; the loop bound keeps
    every index inside the array. *)
Fixpoint sequenceMatches (allCandles : list Selected) (i : nat)
    (patternDirections : list DirectionValue) : bool :=
  match patternDirections with
  | [] => true
  | dir :: rest =>
      match nth_error allCandles i with
      | Some c => sameDirection (seenDirection c) dir
      | None => false
      end
      && sequenceMatches allCandles (S i) rest
  end.

(** The loop [for (let i = ...; i <= allCandles.length - patternLength; i++)]
    from index [i] on, with [steps] indices left and [similarPatterns]
    collected so far; [break] ends it as soon as [limit] is reached. *)
Fixpoint scan (allCandles : list Selected) (patternDirections : list DirectionValue)
    (limit : Z) (steps i : nat) (similarPatterns : list SimilarCandles)
  : list SimilarCandles :=
  match steps with
  | O => similarPatterns
  | S steps' =>
      let patternLength := List.length patternDirections in
      if sequenceMatches allCandles i patternDirections
         && (i + patternLength <? List.length allCandles)%nat
      then
        match nth_error allCandles (i + patternLength), nth_error allCandles i with
        | Some next, Some first =>
            let similarPatterns' :=
              similarPatterns
              ++ [mkSimilarCandles (slice i (i + patternLength) allCandles) next
                    (seenTimestamp first)] in
            if limit <=? Z.of_nat (List.length similarPatterns')
            then similarPatterns'
            else scan allCandles patternDirections limit steps' (S i) similarPatterns'
        | _, _ => scan allCandles patternDirections limit steps' (S i) similarPatterns
        end
      else scan allCandles patternDirections limit steps' (S i) similarPatterns
  end.

(** [this.find({ tradingPair }).sort({ timestamp: 1 })] *)
Definition candlesOfPair (coll : list Candle) (pair : string) : list Selected :=
  map select
    (sortAscending timestamp (filter (fun c => String.eqb (tradingPair c) pair) coll)).

(** The static [findSimilarPatterns(patternCandles, limit)]. *)
Definition findSimilarPatterns (coll : list Candle) (patternCandles : list Candle)
    (limit : Z) : Attempt (list SimilarCandles) :=
  match patternCandles with
  | [] => Threw
  | first :: _ =>
      let patternDirections := map direction patternCandles in
      let patternLength := List.length patternDirections in
      let pair := if String.eqb (tradingPair first) "" then "EUR/USD OTC"%string
                  else tradingPair first in
      let allCandles := candlesOfPair coll pair in
      Returned
        (scan allCandles patternDirections limit
           (if (patternLength <=? List.length allCandles)%nat
            then S (List.length allCandles - patternLength) else 0%nat)
           0%nat [])
  end.

End CandleModel.

Module CandleModelProperties.
Import DirectionText CandleModel.

Lemma greater_true (a b : Q) : greater a b = true <-> (b < a)%Q.
Proof.
  unfold greater. rewrite negb_true_iff.
  split.
  - intros H. apply Qnot_le_lt. intros Hle. apply Qle_bool_iff in Hle. congruence.
  - intros H. destruct (Qle_bool a b) eqn:E; [|reflexivity].
    apply Qle_bool_iff in E. exfalso. exact (Qlt_not_le _ _ H E).
Qed.

Lemma greater_false (a b : Q) : greater a b = false <-> (a <= b)%Q.
Proof.
  unfold greater. rewrite negb_false_iff. apply Qle_bool_iff.
Qed.

Lemma Qmax_keeps (a b : Q) : (b <= a)%Q -> Qmax a b = a.
Proof.
  intros H. unfold Qmax, GenericMinMax.gmax.
  destruct (a ?= b)%Q eqn:E; try reflexivity.
  apply Qlt_alt in E. exfalso. exact (Qlt_not_le _ _ E H).
Qed.

Lemma Qmin_keeps (a b : Q) : (a <= b)%Q -> Qmin a b = a.
Proof.
  intros H. unfold Qmin, GenericMinMax.gmin.
  destruct (a ?= b)%Q eqn:E; try reflexivity.
  apply Qgt_alt in E. exfalso. exact (Qlt_not_le _ _ E H).
Qed.

(** A candle whose fields agree with each other, as the hook understands
    it. *)
Definition consistent (c : Candle) : Prop :=
  (low c <= open c)%Q /\ (low c <= close c)%Q
  /\ (open c <= high c)%Q /\ (close c <= high c)%Q
  /\ ((open c < close c)%Q -> direction c = up)
  /\ ((close c < open c)%Q -> direction c = down).

(** X15: What the pre-save hook guarantees of every candle it lets through: the
    high is the largest and the low the smallest of the four prices, the
    direction follows open and close whenever they differ (and is left as
    it was when they are equal), open and close are never changed, the high
    is only ever raised and the low only ever lowered, a second pass
    changes nothing, and a candle that was consistent already keeps its
    high and low. *)
Theorem saved_candle_is_consistent (c : Candle) :
  consistent (preSave c)
  /\ open (preSave c) = open c /\ close (preSave c) = close c
  /\ timestamp (preSave c) = timestamp c /\ tradingPair (preSave c) = tradingPair c
  /\ (high c <= high (preSave c))%Q /\ (low (preSave c) <= low c)%Q
  /\ ((open c == close c)%Q -> direction (preSave c) = direction c)
  /\ preSave (preSave c) = preSave c
  /\ (consistent c -> preSave c = c).
Proof.
  destruct c as [t pair dir o cl h l].
  unfold consistent, preSave.
  cbn [timestamp tradingPair direction open close high low].
  pose proof (Q.le_max_l (Qmax h o) cl) as H1.
  pose proof (Q.le_max_r (Qmax h o) cl) as H2.
  pose proof (Q.le_max_l h o) as H3.
  pose proof (Q.le_max_r h o) as H4.
  pose proof (Q.le_min_l (Qmin l o) cl) as H5.
  pose proof (Q.le_min_r (Qmin l o) cl) as H6.
  pose proof (Q.le_min_l l o) as H7.
  pose proof (Q.le_min_r l o) as H8.
  assert (Hup : forall d, (o < cl)%Q ->
                  (if greater cl o then up else if greater o cl then down else d) = up).
  { intros d Hlt. apply greater_true in Hlt. rewrite Hlt. reflexivity. }
  assert (Hdown : forall d, (cl < o)%Q ->
                  (if greater cl o then up else if greater o cl then down else d) = down).
  { intros d Hlt.
    assert (Hno : greater cl o = false) by (apply greater_false; lra).
    apply greater_true in Hlt. rewrite Hno, Hlt. reflexivity. }
  assert (Hsame : forall d, (o <= cl)%Q -> (cl <= o)%Q ->
                  (if greater cl o then up else if greater o cl then down else d) = d).
  { intros d Ha Hb.
    assert (Hno1 : greater cl o = false) by (apply greater_false; exact Hb).
    assert (Hno2 : greater o cl = false) by (apply greater_false; exact Ha).
    rewrite Hno1, Hno2. reflexivity. }
  split; [repeat split; try lra; auto|].
  split; [reflexivity|]. split; [reflexivity|].
  split; [reflexivity|]. split; [reflexivity|].
  split; [lra|]. split; [lra|].
  split; [intros Heq; apply Hsame; lra|].
  split.
  - f_equal.
    + destruct (greater cl o) eqn:E1; [reflexivity|].
      destruct (greater o cl) eqn:E2; reflexivity.
    + rewrite (Qmax_keeps (Qmax (Qmax h o) cl) o) by lra.
      apply Qmax_keeps. lra.
    + rewrite (Qmin_keeps (Qmin (Qmin l o) cl) o) by lra.
      apply Qmin_keeps. lra.
  - intros (Ha & Hb & Hc & Hd & He & Hf). f_equal.
    + destruct (greater cl o) eqn:E1.
      * apply greater_true in E1. symmetry. exact (He E1).
      * destruct (greater o cl) eqn:E2; [|reflexivity].
        apply greater_true in E2. symmetry. exact (Hf E2).
    + rewrite (Qmax_keeps h o) by exact Hc. apply Qmax_keeps. exact Hd.
    + rewrite (Qmin_keeps l o) by exact Ha. apply Qmin_keeps. exact Hb.
Qed.

(** *** The pattern search *)

Lemma skipn_nth_error {A : Type} (l : list A) (i : nat) :
  skipn i l = match nth_error l i with
              | Some x => x :: skipn (S i) l
              | None => []
              end.
Proof.
  revert i. induction l as [|y rest IH]; intros [|i]; try reflexivity.
  simpl. rewrite IH. reflexivity.
Qed.

Lemma sequenceMatches_window (allCandles : list Selected) (pattern : list DirectionValue) :
  forall i,
    sequenceMatches allCandles i pattern = true
    <-> firstn (List.length pattern) (skipn i (map seenDirection allCandles)) = pattern.
Proof.
  induction pattern as [|dir rest IH]; intros i; simpl.
  - tauto.
  - rewrite andb_true_iff, IH.
    rewrite (skipn_nth_error (map seenDirection allCandles) i), nth_error_map.
    destruct (nth_error allCandles i) as [c|]; simpl.
    + rewrite sameDirection_eq.
      split; [intros [-> ->]; reflexivity | intros H; injection H; auto].
    + split; [intros [H _]; discriminate H | intros H; discriminate H].
Qed.

(** The match the search records at position [i], if there is one: the
    window of directions that starts there is the pattern and a candle
    follows it. *)
Definition matchAt (allCandles : list Selected) (pattern : list DirectionValue) (i : nat)
  : option SimilarCandles :=
  let k := List.length pattern in
  match nth_error allCandles i, nth_error allCandles (i + k) with
  | Some first, Some next =>
      if samePattern (map seenDirection (slice i (i + k) allCandles)) pattern
      then Some (mkSimilarCandles (slice i (i + k) allCandles) next (seenTimestamp first))
      else None
  | _, _ => None
  end.

(** Every match in the history, oldest first. *)
Definition allMatches (allCandles : list Selected) (pattern : list DirectionValue)
  : list SimilarCandles :=
  flat_map (fun i => match matchAt allCandles pattern i with
                     | Some s => [s]
                     | None => []
                     end)
    (seq 0 (List.length allCandles - List.length pattern)).

Definition pushed (allCandles : list Selected) (pattern : list DirectionValue) (i : nat)
  : list SimilarCandles :=
  match matchAt allCandles pattern i with Some s => [s] | None => [] end.

Lemma window_directions (allCandles : list Selected) (i k : nat) :
  map seenDirection (slice i (i + k) allCandles)
  = firstn k (skipn i (map seenDirection allCandles)).
Proof.
  unfold slice. replace (i + k - i)%nat with k by lia.
  rewrite skipn_map, firstn_map. reflexivity.
Qed.

Lemma scan_step (allCandles : list Selected) (pattern : list DirectionValue) (limit : Z)
    (steps i : nat) (found : list SimilarCandles) :
  (1 <= List.length pattern)%nat ->
  scan allCandles pattern limit (S steps) i found
  = match matchAt allCandles pattern i with
    | Some s =>
        if limit <=? Z.of_nat (List.length (found ++ [s])) then found ++ [s]
        else scan allCandles pattern limit steps (S i) (found ++ [s])
    | None => scan allCandles pattern limit steps (S i) found
    end.
Proof.
  intros Hk. cbn [scan]. unfold matchAt.
  rewrite window_directions.
  destruct (sequenceMatches allCandles i pattern) eqn:Hseq.
  - pose proof (proj1 (sequenceMatches_window allCandles pattern i) Hseq) as Hwin.
    rewrite Hwin.
    replace (samePattern pattern pattern) with true
      by (symmetry; apply samePattern_eq; reflexivity).
    destruct (i + List.length pattern <? List.length allCandles)%nat eqn:Hlt; simpl.
    + destruct (nth_error allCandles (i + List.length pattern)) as [next|];
        destruct (nth_error allCandles i) as [first|]; reflexivity.
    + apply Nat.ltb_ge in Hlt.
      assert (Hnone : nth_error allCandles (i + List.length pattern) = None)
        by (apply nth_error_None; lia).
      rewrite Hnone. destruct (nth_error allCandles i); reflexivity.
  - simpl.
    destruct (samePattern
                (firstn (List.length pattern) (skipn i (map seenDirection allCandles)))
                pattern) eqn:Hsame.
    + apply samePattern_eq in Hsame.
      apply sequenceMatches_window in Hsame. congruence.
    + destruct (nth_error allCandles i);
        destruct (nth_error allCandles (i + List.length pattern)); reflexivity.
Qed.

Lemma scan_firstn (allCandles : list Selected) (pattern : list DirectionValue) (limit : Z)
    (steps : nat) :
  (1 <= List.length pattern)%nat ->
  forall (i : nat) (found : list SimilarCandles),
    (List.length found < Z.to_nat (Z.max 1 limit))%nat ->
    scan allCandles pattern limit steps i found
    = firstn (Z.to_nat (Z.max 1 limit))
        (found ++ flat_map (pushed allCandles pattern) (seq i steps)).
Proof.
  intros Hk. induction steps as [|steps IH]; intros i found Hroom.
  - simpl. rewrite app_nil_r. symmetry. apply firstn_all2. lia.
  - rewrite scan_step by exact Hk.
    cbn [seq flat_map]. unfold pushed at 1.
    destruct (matchAt allCandles pattern i) as [s|].
    + assert (Hlen : List.length (found ++ [s]) = S (List.length found))
        by (rewrite length_app; simpl; lia).
      destruct (limit <=? Z.of_nat (List.length (found ++ [s]))) eqn:Hfull.
      * apply Z.leb_le in Hfull.
        assert (Hm : Z.to_nat (Z.max 1 limit) = List.length (found ++ [s])) by lia.
        rewrite Hm.
        change (found ++ [s] ++ flat_map (pushed allCandles pattern) (seq (S i) steps))
          with (found ++ ([s] ++ flat_map (pushed allCandles pattern) (seq (S i) steps))).
        rewrite app_assoc.
        rewrite firstn_app, firstn_all, Nat.sub_diag. simpl.
        rewrite app_nil_r. reflexivity.
      * apply Z.leb_gt in Hfull.
        rewrite IH by lia.
        rewrite <- app_assoc. reflexivity.
    + simpl. apply IH. exact Hroom.
Qed.

Definition pairOf (first : Candle) : string :=
  if String.eqb (tradingPair first) "" then "EUR/USD OTC"%string
  else tradingPair first.

Lemma findSimilarPatterns_firstn (coll : list Candle) (first : Candle)
    (rest : list Candle) (limit : Z) :
  findSimilarPatterns coll (first :: rest) limit
  = Returned (firstn (Z.to_nat (Z.max 1 limit))
                (allMatches (candlesOfPair coll (pairOf first))
                   (map direction (first :: rest)))).
Proof.
  set (pattern := map direction (first :: rest)).
  set (allCandles := candlesOfPair coll (pairOf first)).
  assert (Hk : (1 <= List.length pattern)%nat) by (unfold pattern; simpl; lia).
  unfold findSimilarPatterns. fold (pairOf first). fold allCandles.
  change (map direction (first :: rest)) with pattern.
  f_equal. rewrite scan_firstn by (exact Hk || (simpl; lia)).
  cbn [app]. f_equal. unfold allMatches.
  destruct (List.length pattern <=? List.length allCandles)%nat eqn:Hfits.
  - apply Nat.leb_le in Hfits.
    rewrite seq_S, flat_map_app. cbn [flat_map].
    replace (pushed allCandles pattern
               (0 + (List.length allCandles - List.length pattern))) with
      (@nil SimilarCandles); [rewrite !app_nil_r; reflexivity|].
    unfold pushed, matchAt.
    assert (Hnone : nth_error allCandles
                      (0 + (List.length allCandles - List.length pattern)
                       + List.length pattern) = None)
      by (apply nth_error_None; lia).
    rewrite Hnone.
    destruct (nth_error allCandles
                (0 + (List.length allCandles - List.length pattern)));
      reflexivity.
  - apply Nat.leb_gt in Hfits.
    replace (List.length allCandles - List.length pattern)%nat with 0%nat by lia.
    reflexivity.
Qed.

Lemma candle_search_bound (coll pattern : list Candle) (limit : Z)
    (similar : list SimilarCandles) :
  findSimilarPatterns coll pattern limit = Returned similar ->
  Z.of_nat (List.length similar) <= Z.max 1 limit.
Proof.
  destruct pattern as [|first rest]; [discriminate|].
  rewrite findSimilarPatterns_firstn. intros H. injection H as <-.
  rewrite length_firstn. lia.
Qed.

(** X16: The static search throws on an empty pattern. Otherwise it reads the
    candles of the pattern's trading pair in ascending time order and
    returns the oldest matches, each with the candle that follows it: as
    many as [limit] asks for, and one even when [limit] is zero or
    negative, because the limit is only tested after a match has been
    recorded. A window at the very end of the history, with no candle
    after it, is never a match. *)
Theorem candle_search_returns_oldest_matches
    (coll : list Candle) (patternCandles : list Candle) (limit : Z) :
  match patternCandles with
  | [] => findSimilarPatterns coll patternCandles limit = Threw
  | first :: _ =>
      let allCandles := candlesOfPair coll (pairOf first) in
      let pattern := map direction patternCandles in
      findSimilarPatterns coll patternCandles limit
      = Returned (firstn (Z.to_nat (Z.max 1 limit)) (allMatches allCandles pattern))
      /\ forall found,
           findSimilarPatterns coll patternCandles limit = Returned found ->
           (Z.of_nat (List.length found) <= Z.max 1 limit)
           /\ forall s, In s found ->
                exists i,
                  (i + List.length pattern < List.length allCandles)%nat
                  /\ CandleModel.patternCandles s
                     = slice i (i + List.length pattern) allCandles
                  /\ map seenDirection (CandleModel.patternCandles s) = pattern
                  /\ nth_error allCandles (i + List.length pattern) = Some (nextCandle s)
                  /\ option_map seenTimestamp (nth_error allCandles i)
                     = Some (matchTimestamp s)
  end.
Proof.
  destruct patternCandles as [|first rest]; [reflexivity|].
  intros allCandles pattern.
  pose proof (findSimilarPatterns_firstn coll first rest limit) as Hres.
  fold allCandles in Hres. fold pattern in Hres.
  split; [exact Hres|].
  intros found Hfound. rewrite Hres in Hfound. injection Hfound as <-.
  split.
  - rewrite length_firstn. lia.
  - intros s Hin.
    assert (Hall : In s (allMatches allCandles pattern)).
    { rewrite <- (firstn_skipn (Z.to_nat (Z.max 1 limit))
                    (allMatches allCandles pattern)).
      apply in_or_app. left. exact Hin. }
    unfold allMatches in Hall. apply in_flat_map in Hall.
    destruct Hall as (i & Hi & Hs).
    apply in_seq in Hi.
    unfold matchAt in Hs.
    destruct (nth_error allCandles i) as [c0|] eqn:H0; [|destruct Hs].
    destruct (nth_error allCandles (i + List.length pattern)) as [next|] eqn:Hn;
      [|destruct Hs].
    destruct (samePattern
                (map seenDirection (slice i (i + List.length pattern) allCandles))
                pattern) eqn:Hsame; [|destruct Hs].
    destruct Hs as [<- | []].
    apply samePattern_eq in Hsame.
    exists i. cbn [patternCandles nextCandle matchTimestamp].
    split; [lia|]. split; [reflexivity|]. split; [exact Hsame|].
    split; [exact Hn|]. rewrite H0. reflexivity.
Qed.

(** Ten rising candles: the pattern [up; up] matches at eight positions. *)
Definition risingCandles : list Candle :=
  map (fun i => mkCandle (Z.of_nat i) "EUR/USD OTC" up 1 2 2 1) (seq 0 10).

Example candle_search_limits :
  option_map (@List.length _)
    (match findSimilarPatterns risingCandles (firstn 2 risingCandles) 3 with
     | Returned found => Some found | Threw => None end) = Some 3%nat
  /\ option_map (@List.length _)
       (match findSimilarPatterns risingCandles (firstn 2 risingCandles) 0 with
        | Returned found => Some found | Threw => None end) = Some 1%nat
  /\ option_map (@List.length _)
       (match findSimilarPatterns risingCandles (firstn 2 risingCandles) 100 with
        | Returned found => Some found | Threw => None end) = Some 8%nat.
Proof. vm_compute. repeat split; reflexivity. Qed.

End CandleModelProperties.

(** ** The predictor's vote over similar patterns *)

Module Predictor.
Import DirectionText CandleModel SharedUtils.

(** What [predictFromSimilarPatterns] returns: the object [predict] built
    from the network, or the result of the vote. *)
Inductive Answer (Neural : Type) : Type :=
| FromNetwork (prediction : Neural)
| Voted (direction : DirectionValue) (confidence : Z) (patternId : string)
    (similarPatternsCount : nat) (neuralPrediction : option Neural).
Arguments FromNetwork {Neural} prediction.
Arguments Voted {Neural} direction confidence patternId similarPatternsCount
  neuralPrediction.

(** [nextDirections], the tally of the candles that followed the
    matches. *)
Record NextDirections : Type := mkNextDirections { ups : Z; downs : Z }.

(** [nextDirections[pattern.nextCandle.direction]++]: a follower whose
    direction is [unknown] touches neither counter. *)
Definition tallyNext (nextDirections : NextDirections) (p : SimilarCandles)
  : NextDirections :=
  match seenDirection (nextCandle p) with
  | up => mkNextDirections (ups nextDirections + 1) (downs nextDirections)
  | down => mkNextDirections (ups nextDirections) (downs nextDirections + 1)
  | unknown => nextDirections
  end.

Section Predict.

(** [config.patternLength] and [isTrained]. *)
Variable patternLength : nat.
Variable isTrained : bool.

(** The object [predict] builds from the output of the network on the
    normalised pattern; the network may throw. *)
Variable Neural : Type.
Variable network : list Z -> Attempt Neural.

Definition normalizeData (candles : list Candle) : list Z :=
  map (fun c => if sameDirection (direction c) up then 1 else 0) candles.

(** [recentCandles.slice(-patternLength)]; [slice(-0)] is the whole
    array. *)
Definition recentPattern (recentCandles : list Candle) : list Candle :=
  if (patternLength =? 0)%nat then recentCandles
  else sliceLast patternLength recentCandles.

Definition predict (recentCandles : list Candle) : Attempt Neural :=
  if negb isTrained then Threw
  else if (List.length recentCandles <? patternLength)%nat then Threw
  else network (normalizeData (recentPattern recentCandles)).

Definition fromNetwork (recentCandles : list Candle) : Attempt (Answer Neural) :=
  match predict recentCandles with
  | Returned prediction => Returned (FromNetwork prediction)
  | Threw => Threw
  end.

Definition predictFromSimilarPatterns (coll : list Candle) (recentCandles : list Candle)
  : Attempt (Answer Neural) :=
  if (List.length recentCandles <? patternLength)%nat then Threw
  else
    let attempt :=
      match findSimilarPatterns coll (recentPattern recentCandles) 10 with
      | Threw => Threw
      | Returned similarPatterns =>
          if (List.length similarPatterns =? 0)%nat then fromNetwork recentCandles
          else
            let nextDirections :=
              fold_left tallyNext similarPatterns (mkNextDirections 0 0) in
            let direction :=
              if downs nextDirections <? ups nextDirections then up else down in
            let winningCount := Z.max (ups nextDirections) (downs nextDirections) in
            let confidence :=
              calculateConfidence winningCount
                (Z.of_nat (List.length similarPatterns)) in
            let patternId :=
              generatePatternId
                (map CandleModel.direction (recentPattern recentCandles)) in
            if isTrained then
              match predict recentCandles with
              | Returned prediction =>
                  Returned (Voted direction confidence patternId
                              (List.length similarPatterns) (Some prediction))
              | Threw => Threw
              end
            else
              Returned (Voted direction confidence patternId
                          (List.length similarPatterns) None)
      end in
    (* catch: fall back to the network when it is trained *)
    match attempt with
    | Returned answer => Returned answer
    | Threw => if isTrained then fromNetwork recentCandles else Threw
    end.

End Predict.

End Predictor.

Module PredictorProperties.
Import DirectionText CandleModel SharedUtils Predictor.

Definition followers (d : DirectionValue) (similar : list SimilarCandles) : Z :=
  Z.of_nat (List.length
              (filter (fun s => sameDirection (seenDirection (nextCandle s)) d) similar)).

Lemma tallyNext_counts (similar : list SimilarCandles) (start : NextDirections) :
  ups (fold_left tallyNext similar start) = ups start + followers up similar
  /\ downs (fold_left tallyNext similar start) = downs start + followers down similar.
Proof.
  revert start. induction similar as [|s rest IH]; intros start.
  - unfold followers. simpl. lia.
  - cbn [fold_left]. destruct (IH (tallyNext start s)) as [Hu Hd].
    rewrite Hu, Hd. unfold tallyNext, followers. cbn [filter].
    destruct (seenDirection (nextCandle s)); cbn [sameDirection ups downs List.length];
      lia.
Qed.

Lemma followers_total (similar : list SimilarCandles) :
  followers up similar + followers down similar + followers unknown similar
  = Z.of_nat (List.length similar).
Proof.
  unfold followers. induction similar as [|s rest IH]; [reflexivity|].
  cbn [filter]. destruct (seenDirection (nextCandle s));
    cbn [sameDirection List.length]; lia.
Qed.

Definition voteCase (total winning : Z) : bool :=
  let c := calculateConfidence winning total in
  (0 <=? c) && (c <=? 100)
  && implb (total <=? 2 * winning) (50 <=? c)
  && Bool.eqb (c =? 0) (winning =? 0)
  && match calculateConfidenceOnDoubles winning total with
     | Some onDoubles => onDoubles =? c
     | None => false
     end.

Lemma vote_cases (total winning : Z) :
  1 <= total <= 10 -> 0 <= winning <= total -> voteCase total winning = true.
Proof.
  intros Ht Hw.
  assert (Hall : forallb
                   (fun t => forallb (voteCase t)
                               (map Z.of_nat (seq 0 (S (Z.to_nat t)))))
                   (map Z.of_nat (seq 1 10)) = true) by (vm_compute; reflexivity).
  rewrite forallb_forall in Hall.
  assert (Hin : In total (map Z.of_nat (seq 1 10))).
  { apply in_map_iff. exists (Z.to_nat total). split; [lia|]. apply in_seq. lia. }
  specialize (Hall total Hin). rewrite forallb_forall in Hall.
  apply Hall. apply in_map_iff. exists (Z.to_nat winning).
  split; [lia|]. apply in_seq. lia.
Qed.

(** X17: The vote of [predictFromSimilarPatterns]. Whenever it answers with a
    vote, between one and ten matches were found; the direction is [up]
    exactly when more matches were followed by a rising candle than by a
    falling one (a tie gives [down]); the confidence is the share of the
    larger side among all matches, rounded to a whole percentage, on exact
    numbers and on doubles alike. Followers of unknown direction count in
    the total but for neither side, so the confidence can fall below 50 and
    is 0 exactly when every follower is unknown; without unknown followers
    it is at least 50. An untrained predictor with at least one match
    always answers with a vote, and too few recent candles make it
    throw. *)
Theorem vote_over_similar_patterns
    (patternLength : nat) (isTrained : bool) (Neural : Type)
    (network : list Z -> Attempt Neural) (coll recentCandles : list Candle) :
  let answer :=
    predictFromSimilarPatterns patternLength isTrained Neural network coll
      recentCandles in
  let search :=
    findSimilarPatterns coll (recentPattern patternLength recentCandles) 10 in
  (forall d c id n np,
      answer = Returned (Voted d c id n np) ->
      exists similar,
        search = Returned similar
        /\ n = List.length similar /\ (1 <= n <= 10)%nat
        /\ (d = up <-> followers down similar < followers up similar)
        /\ (d = down <-> followers up similar <= followers down similar)
        /\ (let winning := Z.max (followers up similar) (followers down similar) in
            c = (200 * winning + Z.of_nat n) / (2 * Z.of_nat n)
            /\ calculateConfidenceOnDoubles winning (Z.of_nat n) = Some c)
        /\ 0 <= c <= 100
        /\ (followers unknown similar = 0 -> 50 <= c)
        /\ (c = 0 <-> followers unknown similar = Z.of_nat n)
        /\ (np = None <-> isTrained = false))
  /\ (forall similar,
        (patternLength <= List.length recentCandles)%nat ->
        search = Returned similar -> similar <> [] -> isTrained = false ->
        exists d c id, answer = Returned (Voted d c id (List.length similar) None))
  /\ ((List.length recentCandles < patternLength)%nat -> answer = Threw).
Proof.
  intros answer search. unfold answer, predictFromSimilarPatterns. fold search.
  split; [|split].
  - intros d c id n np Hanswer.
    destruct (List.length recentCandles <? patternLength)%nat; [discriminate|].
    assert (Hnet : forall a : Attempt (Answer Neural),
               (if isTrained
                then fromNetwork patternLength isTrained Neural network recentCandles
                else Threw) = a ->
               a <> Returned (Voted d c id n np)).
    { intros a <-. destruct isTrained; [|discriminate].
      unfold fromNetwork.
      destruct (predict patternLength true Neural network recentCandles);
        discriminate. }
    destruct search as [similar|] eqn:Hsearch;
      [|exfalso; exact (Hnet _ eq_refl Hanswer)].
    exists similar. split; [reflexivity|].
    destruct (List.length similar =? 0)%nat eqn:Hempty.
    { exfalso. unfold fromNetwork in Hanswer.
      destruct (predict patternLength isTrained Neural network recentCandles);
        [discriminate|].
      destruct isTrained; discriminate. }
    apply Nat.eqb_neq in Hempty.
    pose proof (CandleModelProperties.candle_search_bound _ _ _ _ Hsearch) as Hbound.
    destruct (tallyNext_counts similar (mkNextDirections 0 0)) as [Hups Hdowns].
    cbn [ups downs] in Hups, Hdowns. rewrite Z.add_0_l in Hups, Hdowns.
    pose proof (followers_total similar) as Htotal.
    assert (Hnonneg : 0 <= followers up similar /\ 0 <= followers down similar
                      /\ 0 <= followers unknown similar)
      by (unfold followers; lia).
    set (winning := Z.max (followers up similar) (followers down similar)).
    assert (Hcase := vote_cases (Z.of_nat (List.length similar)) winning
                       ltac:(lia) ltac:(unfold winning; lia)).
    unfold voteCase in Hcase.
    rewrite !andb_true_iff in Hcase.
    destruct Hcase as ((((Hlow & Hhigh) & Hhalf) & Hzero) & Hdouble).
    apply Z.leb_le in Hlow. apply Z.leb_le in Hhigh.
    apply Bool.eqb_prop in Hzero.
    assert (Hvote : forall np',
               Returned (Voted
                 (if downs (fold_left tallyNext similar (mkNextDirections 0 0))
                     <? ups (fold_left tallyNext similar (mkNextDirections 0 0))
                  then up else down)
                 (calculateConfidence
                    (Z.max (ups (fold_left tallyNext similar (mkNextDirections 0 0)))
                       (downs (fold_left tallyNext similar (mkNextDirections 0 0))))
                    (Z.of_nat (List.length similar)))
                 (generatePatternId
                    (map direction (recentPattern patternLength recentCandles)))
                 (List.length similar) np')
               = Returned (Voted d c id n np) ->
               n = List.length similar
               /\ d = (if followers down similar <? followers up similar
                       then up else down)
               /\ c = calculateConfidence winning (Z.of_nat (List.length similar))
               /\ np = np').
    { intros np' H. rewrite Hups, Hdowns in H. injection H as <- <- _ <- <-.
      repeat split; reflexivity. }
    assert (Hfields : n = List.length similar
                      /\ d = (if followers down similar <? followers up similar
                              then up else down)
                      /\ c = calculateConfidence winning
                               (Z.of_nat (List.length similar))
                      /\ (np = None <-> isTrained = false)).
    { destruct isTrained.
      - destruct (predict patternLength true Neural network recentCandles)
          as [prediction|].
        + destruct (Hvote _ Hanswer) as (Hn & Hd & Hc & Hnp).
          repeat split; try assumption; intros H; [congruence | discriminate].
        + exfalso. exact (Hnet _ eq_refl Hanswer).
      - destruct (Hvote _ Hanswer) as (Hn & Hd & Hc & Hnp).
        repeat split; try assumption; intros; assumption || reflexivity. }
    destruct Hfields as (Hn & Hd & Hc & Hnp).
    split; [exact Hn|]. split; [lia|].
    split.
    { rewrite Hd. destruct (followers down similar <? followers up similar) eqn:E.
      - apply Z.ltb_lt in E. tauto.
      - apply Z.ltb_ge in E. split; [discriminate | lia]. }
    split.
    { rewrite Hd. destruct (followers down similar <? followers up similar) eqn:E.
      - apply Z.ltb_lt in E. split; [discriminate | lia].
      - apply Z.ltb_ge in E. tauto. }
    split.
    { cbv zeta. fold winning. rewrite Hn. split.
      - rewrite Hc. unfold calculateConfidence.
        replace (Z.of_nat (List.length similar) =? 0) with false
          by (symmetry; apply Z.eqb_neq; lia).
        apply PredictionProperties.mathRound_ratio. lia.
      - destruct (calculateConfidenceOnDoubles winning
                    (Z.of_nat (List.length similar))) as [onDoubles|];
          [|discriminate].
        apply Z.eqb_eq in Hdouble. congruence. }
    rewrite Hc, Hn.
    split; [lia|].
    split.
    { intros Hnone.
      assert (Hmost : (Z.of_nat (List.length similar) <=? 2 * winning) = true)
        by (apply Z.leb_le; unfold winning; lia).
      rewrite Hmost in Hhalf. simpl in Hhalf. apply Z.leb_le in Hhalf. exact Hhalf. }
    split; [|exact Hnp].
    rewrite <- Z.eqb_eq, Hzero, Z.eqb_eq. unfold winning. lia.
  - intros similar Hlen Hsearch Hsome Huntrained.
    replace (List.length recentCandles <? patternLength)%nat with false
      by (symmetry; apply Nat.ltb_ge; exact Hlen).
    rewrite Hsearch, Huntrained.
    replace (List.length similar =? 0)%nat with false
      by (symmetry; apply Nat.eqb_neq; destruct similar; [congruence | discriminate]).
    eexists _, _, _. reflexivity.
  - intros Hshort.
    replace (List.length recentCandles <? patternLength)%nat with true
      by (symmetry; apply Nat.ltb_lt; exact Hshort).
    reflexivity.
Qed.

(** Three histories of the pattern [up; up]: followed by rising candles,
    and followed only by candles of unknown direction. *)
Definition followedBy (d : DirectionValue) : list Candle :=
  map (fun i => mkCandle (Z.of_nat i) "EUR/USD OTC"
                  (if (Nat.modulo i 3 =? 2)%nat then d else up) 1 2 2 1)
    (seq 0 9).

Definition latest : list Candle :=
  [mkCandle 100 "EUR/USD OTC" up 1 2 2 1; mkCandle 101 "EUR/USD OTC" up 1 2 2 1].

Example votes :
  predictFromSimilarPatterns 2 false unit (fun _ => Threw) (followedBy down) latest
  = Returned (Voted down 100 "36e276" 3 None)
  /\ predictFromSimilarPatterns 2 false unit (fun _ => Threw) (followedBy unknown) latest
     = Returned (Voted down 0 "36e276" 3 None).
Proof. vm_compute. split; reflexivity. Qed.

End PredictorProperties.

(** * The visual analysis *)

(** ** services/visualAnalysisService.js: colours and the trading signal *)

Module VisualSignals.
Import DirectionText.

Record Range : Type := mkRange { min : Z; max : Z }.

Record Threshold : Type := mkThreshold { red : Range; green : Range; blue : Range }.

(** [colorThresholds] *)
Definition bullish : Threshold :=
  mkThreshold (mkRange 0 80) (mkRange 100 255) (mkRange 0 80).

Definition bearish : Threshold :=
  mkThreshold (mkRange 150 255) (mkRange 0 100) (mkRange 0 100).

(** [v >= range.min && v <= range.max]; a read past the end of the buffer
    is undefined and every comparison with it is false. *)
Definition within (v : option Z) (range : Range) : bool :=
  match v with
  | Some x => (min range <=? x) && (x <=? max range)
  | None => false
  end.

Definition isColorInRange (r g b : option Z) (threshold : Threshold) : bool :=
  within r (red threshold) && within g (green threshold) && within b (blue threshold).

Record Counts : Type := mkCounts { redCount : Z; greenCount : Z; totalCount : Z }.

(** The loop of [analyzePixelColors],
    [for (let i = 0; i < buffer.length; i += channels)], from index [i] on.
    With [channels >= 1] it ends within [buffer.length] turns, the fuel it
    is started with; with [channels = 0] the loop of the source does not
    end. *)
Fixpoint pixelLoop (fuel : nat) (buffer : list Z) (channels i : nat) (counts : Counts)
  : Counts :=
  match fuel with
  | O => counts
  | S fuel' =>
      if (i <? List.length buffer)%nat then
        let r := nth_error buffer i in
        let g := nth_error buffer (i + 1) in
        let b := nth_error buffer (i + 2) in
        let counted :=
          if isColorInRange r g b bullish then
            mkCounts (redCount counts) (greenCount counts + 1) (totalCount counts)
          else if isColorInRange r g b bearish then
            mkCounts (redCount counts + 1) (greenCount counts) (totalCount counts)
          else counts in
        pixelLoop fuel' buffer channels (i + channels)
          (mkCounts (redCount counted) (greenCount counted) (totalCount counted + 1))
      else counts
  end.

Record ColorStats : Type := mkColorStats {
  redPixels : Z;
  greenPixels : Z;
  totalPixels : Z;
  statsConfidence : option Z   (* [None]: NaN, for an empty buffer *)
}.

(** [Math.round(Math.max(redCount, greenCount) / totalPixels * 100)], on
    doubles. *)
Definition shareOnDoubles (part whole : Z) : option Z :=
  option_map mathRound
    (doubleValue
       (PrimFloat.mul (PrimFloat.div (doubleOfCount part) (doubleOfCount whole))
          (doubleOfCount 100))).

Definition analyzePixelColors (buffer : list Z) (channels : nat) : ColorStats :=
  let counts := pixelLoop (List.length buffer) buffer channels 0 (mkCounts 0 0 0) in
  mkColorStats (redCount counts) (greenCount counts) (totalCount counts)
    (shareOnDoubles (Z.max (redCount counts) (greenCount counts)) (totalCount counts)).

Definition determineCandleDirection (colorStats : ColorStats) : DirectionValue :=
  if redPixels colorStats <? greenPixels colorStats then up
  else if greenPixels colorStats <? redPixels colorStats then down
  else unknown.

(** What [getResultValue] leaves of the colour and of the trend analysis:
    either [{ success: false }] or the successful result. *)
Inductive ColorsResult : Type :=
| colorsFailed
| colorsSucceeded (direction : DirectionValue) (colorStats : ColorStats).

Inductive Trend : Type := upward | downward | sideways.

Inductive TrendsResult : Type :=
| trendsFailed
| trendsSucceeded (trend : Trend).

(** [analyzeColors]: the raw pixels of the last-candle region and their
    channel count come from the image library, which may throw. *)
Definition analyzeColors (region : Attempt (list Z * nat)) : ColorsResult :=
  match region with
  | Threw => colorsFailed
  | Returned (candleRegion, channels) =>
      let colorStats := analyzePixelColors candleRegion channels in
      colorsSucceeded (determineCandleDirection colorStats) colorStats
  end.

(** [analyzeTrends] reports an upward trend whatever the image. *)
Definition analyzeTrends : TrendsResult := trendsSucceeded upward.

Record Signal : Type := mkSignal {
  signalDirection : DirectionValue;
  strength : float;
  signalConfidence : option Z   (* [None]: NaN *)
}.

Record Tally : Type := mkTally {
  bullishSignals : float;
  bearishSignals : float;
  totalWeight : float
}.

(** [generateTradingSignal], on doubles. Only the colour and the trend
    components are read. *)
#[warnings="-inexact-float"]
Definition generateTradingSignal (colors : ColorsResult) (trends : TrendsResult)
  : Signal :=
  let start := mkTally 0 0 0 in
  let afterColors :=
    match colors with
    | colorsSucceeded direction _ =>
        let weight := 0.3%float in
        match direction with
        | up => mkTally (bullishSignals start + weight) (bearishSignals start)
                  (totalWeight start + weight)
        | _ => mkTally (bullishSignals start) (bearishSignals start + weight)
                 (totalWeight start + weight)
        end
    | colorsFailed => start
    end in
  let afterTrends :=
    match trends with
    | trendsSucceeded trend =>
        let weight := 0.15%float in
        match trend with
        | upward => mkTally (bullishSignals afterColors + weight)
                      (bearishSignals afterColors) (totalWeight afterColors + weight)
        | downward => mkTally (bullishSignals afterColors)
                        (bearishSignals afterColors + weight)
                        (totalWeight afterColors + weight)
        | sideways => mkTally (bullishSignals afterColors) (bearishSignals afterColors)
                        (totalWeight afterColors + weight)
        end
    | trendsFailed => afterColors
    end in
  let netSignal := (bullishSignals afterTrends - bearishSignals afterTrends)%float in
  let confidence :=
    option_map mathRound
      (doubleValue (PrimFloat.abs netSignal / totalWeight afterTrends * 100)%float) in
  mkSignal (if PrimFloat.ltb 0 netSignal then up else down)
    (PrimFloat.abs netSignal)
    (option_map (Z.min 95) confidence).

(** The [analysis] object [analyzeScreenshot] hands to the capture service,
    as far as the capture service reads it. The trading signal is attached
    beside [analysis], not inside it, so [analysis.signal] is absent. *)
Definition reading (d : DirectionValue) : VisualAnalysisService.Reading :=
  match d with
  | up => VisualAnalysisService.sees_up
  | down => VisualAnalysisService.sees_down
  | unknown => VisualAnalysisService.unknown
  end.

Definition analysisOf (colors : ColorsResult) (currentPrice : option Q)
  : VisualAnalysisService.Analysis :=
  VisualAnalysisService.mkAnalysis
    (match colors with
     | colorsSucceeded direction _ => Some (reading direction)
     | colorsFailed => None
     end)
    None
    currentPrice.

End VisualSignals.

Module VisualSignalProperties.
Import DirectionText VisualSignals.

(** *** The trading signal *)

(** X18: The trading signal in every case the code distinguishes. When the
    colour analysis succeeded the signal follows the colours whatever the
    trend, a colour direction other than [up] ([unknown] included) counting
    as bearish; its confidence is 95 when the trend agrees or is missing, 67
    when the trend is neither upward nor downward and 33 when it points the
    other way. Without colours the signal is [up] only for an upward trend;
    with neither component the confidence is not a number. *)
Theorem trading_signal_table (colors : ColorsResult) (trends : TrendsResult) :
  let signal := generateTradingSignal colors trends in
  match colors with
  | colorsSucceeded direction _ =>
      (signalDirection signal = up <-> direction = up)
      /\ (signalDirection signal = down <-> direction <> up)
      /\ signalConfidence signal
         = match trends with
           | trendsFailed => Some 95
           | trendsSucceeded sideways => Some 67
           | trendsSucceeded upward => Some (if sameDirection direction up then 95 else 33)
           | trendsSucceeded downward =>
               Some (if sameDirection direction up then 33 else 95)
           end
  | colorsFailed =>
      (signalDirection signal = up <-> trends = trendsSucceeded upward)
      /\ (signalDirection signal = down <-> trends <> trendsSucceeded upward)
      /\ signalConfidence signal
         = match trends with
           | trendsFailed => None
           | trendsSucceeded sideways => Some 0
           | trendsSucceeded _ => Some 95
           end
  end.
Proof.
  destruct colors as [|[| |] stats]; destruct trends as [|[| |]];
    vm_compute; repeat split; intros; congruence.
Qed.

(** *** Counting pixels *)

(** A pixel is green (bullish) or red (bearish) by its first three
    channels. *)
Definition looksGreen (pixel : list Z) : bool :=
  match pixel with
  | r :: g :: b :: _ =>
      (0 <=? r) && (r <=? 80) && (100 <=? g) && (g <=? 255) && (0 <=? b) && (b <=? 80)
  | _ => false
  end.

Definition looksRed (pixel : list Z) : bool :=
  match pixel with
  | r :: g :: b :: _ =>
      (150 <=? r) && (r <=? 255) && (0 <=? g) && (g <=? 100) && (0 <=? b) && (b <=? 100)
  | _ => false
  end.

Definition count (f : list Z -> bool) (pixels : list (list Z)) : Z :=
  Z.of_nat (List.length (filter f pixels)).

Lemma never_both (pixel : list Z) : looksGreen pixel && looksRed pixel = false.
Proof.
  destruct pixel as [|r [|g [|b rest]]]; try reflexivity.
  unfold looksGreen, looksRed.
  destruct (r <=? 80) eqn:E1; destruct (150 <=? r) eqn:E2;
    rewrite ?andb_false_r, ?andb_true_r; simpl; try reflexivity.
  apply Z.leb_le in E1. apply Z.leb_le in E2. lia.
Qed.

Lemma pixelLoop_counts (channels : nat) (pixels : list (list Z)) :
  (3 <= channels)%nat ->
  Forall (fun pixel => List.length pixel = channels) pixels ->
  forall (fuel : nat) (done : list Z) (counts : Counts),
    (List.length pixels <= fuel)%nat ->
    pixelLoop fuel (done ++ List.concat pixels) channels (List.length done) counts
    = mkCounts (redCount counts + count looksRed pixels)
        (greenCount counts + count looksGreen pixels)
        (totalCount counts + Z.of_nat (List.length pixels)).
Proof.
  intros Hchannels Hshape.
  induction Hshape as [|pixel rest Hpixel Hrest IH]; intros fuel done counts Hfuel.
  - unfold count. cbn [List.concat filter List.length]. rewrite app_nil_r.
    destruct fuel; cbn [pixelLoop].
    + destruct counts. cbn. f_equal; lia.
    + rewrite Nat.ltb_irrefl. destruct counts. cbn. f_equal; lia.
  - destruct fuel as [|fuel]; [simpl in Hfuel; lia|].
    destruct pixel as [|r [|g [|b tail]]]; try (simpl in Hpixel; lia).
    cbn [pixelLoop List.concat].
    replace (List.length done <? List.length (done ++ (r :: g :: b :: tail) ++ List.concat rest))%nat
      with true by (symmetry; apply Nat.ltb_lt; rewrite length_app; simpl; lia).
    assert (Hr : nth_error (done ++ (r :: g :: b :: tail) ++ List.concat rest)
                   (List.length done) = Some r).
    { rewrite nth_error_app2 by lia. rewrite Nat.sub_diag. reflexivity. }
    assert (Hg : nth_error (done ++ (r :: g :: b :: tail) ++ List.concat rest)
                   (List.length done + 1) = Some g).
    { rewrite nth_error_app2 by lia.
      replace (List.length done + 1 - List.length done)%nat with 1%nat by lia.
      reflexivity. }
    assert (Hb : nth_error (done ++ (r :: g :: b :: tail) ++ List.concat rest)
                   (List.length done + 2) = Some b).
    { rewrite nth_error_app2 by lia.
      replace (List.length done + 2 - List.length done)%nat with 2%nat by lia.
      reflexivity. }
    rewrite Hr, Hg, Hb.
    replace (done ++ (r :: g :: b :: tail) ++ List.concat rest)
      with ((done ++ r :: g :: b :: tail) ++ List.concat rest)
      by (rewrite <- app_assoc; reflexivity).
    replace (List.length done + channels)%nat
      with (List.length (done ++ r :: g :: b :: tail))
      by (rewrite length_app, Hpixel; reflexivity).
    rewrite IH by (simpl in Hfuel; lia).
    pose proof (never_both (r :: g :: b :: tail)) as Hexclusive.
    assert (Hgreen : isColorInRange (Some r) (Some g) (Some b) bullish
                     = looksGreen (r :: g :: b :: tail)).
    { unfold isColorInRange, within, bullish, looksGreen. cbn [red green blue min max].
      rewrite <- !andb_assoc. reflexivity. }
    assert (Hred : isColorInRange (Some r) (Some g) (Some b) bearish
                   = looksRed (r :: g :: b :: tail)).
    { unfold isColorInRange, within, bearish, looksRed. cbn [red green blue min max].
      rewrite <- !andb_assoc. reflexivity. }
    rewrite Hgreen, Hred. unfold count. cbn [filter].
    destruct (looksGreen (r :: g :: b :: tail)) eqn:Eg;
      destruct (looksRed (r :: g :: b :: tail)) eqn:Er;
      try discriminate Hexclusive;
      cbn [redCount greenCount totalCount List.length]; f_equal; lia.
Qed.

(** X19: On a buffer that holds whole pixels of at least three channels,
    [analyzePixelColors] counts every pixel once, as green when its first
    three channels lie in the bullish ranges and as red when they lie in
    the bearish ranges; no pixel is both, so the order of the two tests
    does not matter and the two counts never exceed the total. The
    direction derived from the counts is [up] exactly when green pixels
    outnumber red ones, [down] when red ones outnumber green ones, and
    [unknown] on a tie. *)
Theorem pixels_are_counted_once (channels : nat) (pixels : list (list Z)) :
  (3 <= channels)%nat ->
  Forall (fun pixel => List.length pixel = channels) pixels ->
  let colorStats := analyzePixelColors (List.concat pixels) channels in
  greenPixels colorStats = count looksGreen pixels
  /\ redPixels colorStats = count looksRed pixels
  /\ totalPixels colorStats = Z.of_nat (List.length pixels)
  /\ greenPixels colorStats + redPixels colorStats <= totalPixels colorStats
  /\ (forall pixel, In pixel pixels -> looksGreen pixel && looksRed pixel = false)
  /\ (determineCandleDirection colorStats = up
      <-> count looksRed pixels < count looksGreen pixels)
  /\ (determineCandleDirection colorStats = down
      <-> count looksGreen pixels < count looksRed pixels)
  /\ (determineCandleDirection colorStats = unknown
      <-> count looksGreen pixels = count looksRed pixels).
Proof.
  intros Hchannels Hshape colorStats.
  assert (Hlen : (List.length pixels <= List.length (List.concat pixels))%nat).
  { clear colorStats. induction Hshape as [|pixel rest Hpixel Hrest IH]; [simpl; lia|].
    cbn [List.concat]. rewrite length_app. simpl. lia. }
  pose proof (pixelLoop_counts channels pixels Hchannels Hshape
                (List.length (List.concat pixels)) [] (mkCounts 0 0 0) Hlen) as Hloop.
  cbn [app List.length redCount greenCount totalCount] in Hloop.
  assert (Hg : greenPixels colorStats = count looksGreen pixels)
    by (unfold colorStats, analyzePixelColors; rewrite Hloop; reflexivity).
  assert (Hr : redPixels colorStats = count looksRed pixels)
    by (unfold colorStats, analyzePixelColors; rewrite Hloop; reflexivity).
  assert (Ht : totalPixels colorStats = Z.of_nat (List.length pixels))
    by (unfold colorStats, analyzePixelColors; rewrite Hloop; reflexivity).
  assert (Hsum : count looksGreen pixels + count looksRed pixels
                 <= Z.of_nat (List.length pixels)).
  { unfold count. clear. induction pixels as [|p rest IH]; [simpl; lia|].
    cbn [filter]. pose proof (never_both p) as Hex.
    destruct (looksGreen p); destruct (looksRed p); try discriminate Hex;
      cbn [List.length]; lia. }
  split; [exact Hg|]. split; [exact Hr|]. split; [exact Ht|].
  split; [lia|].
  split; [intros pixel _; apply never_both|].
  unfold determineCandleDirection. rewrite Hg, Hr.
  destruct (count looksRed pixels <? count looksGreen pixels) eqn:E1.
  - apply Z.ltb_lt in E1.
    repeat split; intros; try reflexivity; try discriminate; try lia; assumption.
  - apply Z.ltb_ge in E1.
    destruct (count looksGreen pixels <? count looksRed pixels) eqn:E2.
    + apply Z.ltb_lt in E2.
      repeat split; intros; try reflexivity; try discriminate; try lia; assumption.
    + apply Z.ltb_ge in E2.
      repeat split; intros; try reflexivity; try discriminate; lia.
Qed.

(** Two green pixels and a red one, with an alpha channel. *)
Definition threePixels : list (list Z) :=
  [[20; 200; 30; 255]; [200; 40; 40; 255]; [10; 180; 60; 255]].

Lemma pixels_are_counted_once_witness :
  greenPixels (analyzePixelColors (List.concat threePixels) 4) = 2
  /\ redPixels (analyzePixelColors (List.concat threePixels) 4) = 1
  /\ determineCandleDirection (analyzePixelColors (List.concat threePixels) 4) = up.
Proof.
  destruct (pixels_are_counted_once 4 threePixels) as (Hg & Hr & _ & _ & _ & Hup & _).
  - lia.
  - repeat constructor.
  - split; [exact Hg|]. split; [exact Hr|]. apply Hup. vm_compute. reflexivity.
Defined.

End VisualSignalProperties.

(** ** From the pixels to the stored candle *)

Module CaptureFromPixels.
Import VisualSignals.

(** X20: The direction of the candle the capture service builds from a
    screenshot whose colour analysis succeeded depends on the pixel counts
    alone: it is [up] when green pixels outnumber red ones and [down] when
    red ones outnumber green ones, whatever the trading signal says. On a
    tie it is drawn from the generated prices, although the trading signal
    then reads [down]: the signal is attached beside the analysis and the
    capture service never finds it. *)
Theorem candle_direction_from_pixels
    (sid : string) (timestamp : Z) (draws : ScreenCaptureService.Draws)
    (confidence : Z) (currentPrice : option Q) (candleRegion : list Z) (channels : nat) :
  let colors := analyzeColors (Returned (candleRegion, channels)) in
  let colorStats := analyzePixelColors candleRegion channels in
  let candle :=
    ScreenCaptureService.extractCandleData sid
      (VisualAnalysisService.Analysed (analysisOf colors currentPrice) confidence)
      timestamp draws in
  let fallback :=
    ScreenCaptureService.extractCandleData sid
      (VisualAnalysisService.Analysed (analysisOf colorsFailed currentPrice) confidence)
      timestamp draws in
  (redPixels colorStats < greenPixels colorStats ->
   CandleDataModel.direction candle = up
   /\ signalDirection (generateTradingSignal colors analyzeTrends) = DirectionText.up)
  /\ (greenPixels colorStats < redPixels colorStats ->
      CandleDataModel.direction candle = down
      /\ signalDirection (generateTradingSignal colors analyzeTrends) = DirectionText.down)
  /\ (greenPixels colorStats = redPixels colorStats ->
      candle = fallback
      /\ signalDirection (generateTradingSignal colors analyzeTrends) = DirectionText.down
      /\ signalConfidence (generateTradingSignal colors analyzeTrends) = Some 33).
Proof.
  intros colors colorStats candle fallback.
  unfold candle, fallback, colors, analyzeColors. fold colorStats.
  unfold determineCandleDirection.
  split; [|split].
  - intros H. apply Z.ltb_lt in H. rewrite H. split; reflexivity.
  - intros H.
    replace (redPixels colorStats <? greenPixels colorStats) with false
      by (symmetry; apply Z.ltb_ge; lia).
    apply Z.ltb_lt in H. rewrite H. split; reflexivity.
  - intros H. rewrite H, Z.ltb_irrefl. repeat split; reflexivity.
Qed.

End CaptureFromPixels.

(** * The browser validation *)

(** ** services/sessionManager.js: the slow path *)

Module BrowserValidation.
Import SessionManager.

(** [s.includes(needle)] *)
Fixpoint includes (needle s : string) : bool :=
  String.prefix needle s
  || match s with
     | EmptyString => false
     | String _ rest => includes needle rest
     end.

(** What [page.evaluate] reports of the page, as far as it is used. *)
Record LoginIndicators : Type := mkLoginIndicators {
  hasChart : bool;
  currentUrl : string
}.

(** [checkIfLoggedIn]: the wait or the evaluation may throw, which counts
    as not logged in. *)
Definition checkIfLoggedIn (probe : Attempt LoginIndicators) : bool :=
  match probe with
  | Returned loginIndicators =>
      hasChart loginIndicators
      && negb (includes "sign-in" (currentUrl loginIndicators))
      && negb (includes "login" (currentUrl loginIndicators))
  | Threw => false
  end.

(** What the browser does during one validation: whether it launches and
    opens a page, whether the session file is read and applied and the
    trading page reached, and what the two looks at the page report. *)
Record Browser : Type := mkBrowser {
  launched : bool;
  applied : bool;
  firstLook : Attempt LoginIndicators;    (* in [applySessionToPuppeteer] *)
  secondLook : Attempt LoginIndicators    (* in [runPuppeteerValidation] *)
}.

Definition applySessionToPuppeteer (browser : Browser) : bool :=
  if applied browser then checkIfLoggedIn (firstLook browser) else false.

Definition runPuppeteerValidation (browser : Browser) : ValidationResult :=
  if negb (launched browser) then
    mkValidationResult false false "Puppeteer validation failed" None
  else
    let sessionApplied := applySessionToPuppeteer browser in
    if negb sessionApplied then
      mkValidationResult false false "Could not apply session to browser" None
    else
      let loginStatus := checkIfLoggedIn (secondLook browser) in
      mkValidationResult loginStatus true
        (if loginStatus then "User is logged into Quotex"
         else "User is not logged into Quotex")
        (Some fresh_puppeteer_validation).

End BrowserValidation.

Module BrowserValidationProperties.
Import SessionDataModel SessionManager BrowserValidation.

(** [needle] occurs somewhere in [s]. *)
Definition occursIn (needle s : string) : Prop :=
  exists before after, s = (before ++ needle ++ after)%string.

Lemma prefix_append (needle s : string) :
  String.prefix needle s = true <-> exists after, s = (needle ++ after)%string.
Proof.
  revert s. induction needle as [|a needle IH]; intros s.
  - split; [intros _; exists s; reflexivity | intros _; destruct s; reflexivity].
  - destruct s as [|b s]; [split; [discriminate | intros [after H]; discriminate H]|].
    cbn [String.prefix append].
    destruct (Ascii.ascii_dec a b) as [<- | Hne].
    + rewrite IH. split; intros [after H]; exists after.
      * rewrite H. reflexivity.
      * injection H as H. exact H.
    + split; [discriminate|]. intros [after H]. injection H as H _. congruence.
Qed.

Lemma includes_occursIn (needle s : string) :
  includes needle s = true <-> occursIn needle s.
Proof.
  unfold occursIn. induction s as [|b s IH].
  - cbn [includes]. rewrite orb_false_r, prefix_append. split.
    + intros [after H]. exists ""%string, after. exact H.
    + intros (before & after & H). destruct before as [|c before]; [|discriminate H].
      exists after. exact H.
  - cbn [includes]. rewrite orb_true_iff, IH, prefix_append. split.
    + intros [[after H] | (before & after & H)].
      * exists ""%string, after. exact H.
      * exists (String b before), after. rewrite H. reflexivity.
    + intros (before & after & H). destruct before as [|c before].
      * left. exists after. exact H.
      * right. injection H as _ H. exists before, after. exact H.
Qed.

(** A look at the page that shows the user logged in: the chart is there
    and the address contains neither [sign-in] nor [login]. *)
Definition showsLoggedIn (look : Attempt LoginIndicators) : Prop :=
  exists loginIndicators,
    look = Returned loginIndicators
    /\ hasChart loginIndicators = true
    /\ ~ occursIn "sign-in" (currentUrl loginIndicators)
    /\ ~ occursIn "login" (currentUrl loginIndicators).

Lemma checkIfLoggedIn_true (look : Attempt LoginIndicators) :
  checkIfLoggedIn look = true <-> showsLoggedIn look.
Proof.
  unfold checkIfLoggedIn, showsLoggedIn.
  destruct look as [loginIndicators|].
  - rewrite !andb_true_iff, !negb_true_iff.
    rewrite <- !not_true_iff_false, !includes_occursIn.
    split.
    + intros ((Hchart & Hsign) & Hlogin). exists loginIndicators. tauto.
    + intros (ind & Heq & Hchart & Hsign & Hlogin). injection Heq as <-. tauto.
  - split; [discriminate|]. intros (ind & Heq & _). discriminate Heq.
Qed.

(** X21: The browser validation reports a session as logged in exactly when the
    browser launched, the session was applied and both looks at the page,
    the one while applying the session and the one after it, show the chart
    on an address that contains neither [sign-in] nor [login]. Logged in
    implies a valid session, and the session is reported valid exactly when
    the first look succeeded, so a stored session whose first look fails is
    reported as one that could not be applied. Through
    [validateQuotexSession], a validation that consults the browser returns
    the browser's answer unless both looks were clean; after two clean looks
    the session is handed to the store, whose update throws, and the answer
    is that the validation failed. The session store is unchanged either
    way. *)
Theorem logged_in_needs_two_clean_looks
    (browserFor : string -> Browser) (clk : Clock) (coll : list SessionData)
    (sid : string) :
  let browser := browserFor sid in
  let answer := runPuppeteerValidation browser in
  let outcome :=
    validateQuotexSession (fun s => runPuppeteerValidation (browserFor s)) clk coll
      sid in
  (isLoggedIn answer = true
   <-> launched browser = true /\ applied browser = true
       /\ showsLoggedIn (firstLook browser) /\ showsLoggedIn (secondLook browser))
  /\ (sessionValid answer = true
      <-> launched browser = true /\ applied browser = true
          /\ showsLoggedIn (firstLook browser))
  /\ (isLoggedIn answer = true -> sessionValid answer = true)
  /\ (calls outcome = [RunPuppeteerValidation sid] ->
      sessions outcome = coll
      /\ (isLoggedIn answer = false -> result outcome = answer)
      /\ (isLoggedIn answer = true -> result outcome = validationFailed)).
Proof.
  intros browser answer outcome.
  assert (Hlogged : isLoggedIn answer = true
                    <-> launched browser = true /\ applied browser = true
                        /\ showsLoggedIn (firstLook browser)
                        /\ showsLoggedIn (secondLook browser)).
  { unfold answer, runPuppeteerValidation, applySessionToPuppeteer.
    rewrite <- !checkIfLoggedIn_true.
    destruct (launched browser); cbn [negb];
      [|split; [discriminate | intros (H & _); discriminate H]].
    destruct (applied browser); cbn [negb];
      [|split; [discriminate | intros (_ & H & _); discriminate H]].
    destruct (checkIfLoggedIn (firstLook browser)); cbn [negb isLoggedIn];
      [|split; [discriminate | intros (_ & _ & H & _); discriminate H]].
    tauto. }
  assert (Hvalid : sessionValid answer = true
                   <-> launched browser = true /\ applied browser = true
                       /\ showsLoggedIn (firstLook browser)).
  { unfold answer, runPuppeteerValidation, applySessionToPuppeteer.
    rewrite <- !checkIfLoggedIn_true.
    destruct (launched browser); cbn [negb];
      [|split; [discriminate | intros (H & _); discriminate H]].
    destruct (applied browser); cbn [negb];
      [|split; [discriminate | intros (_ & H & _); discriminate H]].
    destruct (checkIfLoggedIn (firstLook browser)); cbn [negb sessionValid];
      [|split; [discriminate | intros (_ & _ & H); discriminate H]].
    tauto. }
  split; [exact Hlogged|]. split; [exact Hvalid|].
  split; [intros H; apply Hvalid; apply Hlogged in H; tauto|].
  intros Hslow.
  destruct (SessionCacheProperties.validateQuotexSession_cases
              (fun s => runPuppeteerValidation (browserFor s)) clk coll sid)
    as [(d & _ & _ & Hout) | (_ & Hout)];
    unfold outcome in *; rewrite Hout in *; [discriminate Hslow|].
  cbn [sessions result]. fold browser. fold answer.
  unfold SessionCacheProperties.freshAnswer.
  split; [reflexivity|].
  split; intros ->; reflexivity.
Qed.

(** The first look lands on the sign-in page, the second one on the
    trading page: reported as a session that could not be applied. *)
Example redirected_first_look :
  runPuppeteerValidation
    (mkBrowser true true
       (Returned (mkLoginIndicators true "https://quotex.com/sign-in"))
       (Returned (mkLoginIndicators true "https://quotex.com/trading")))
  = mkValidationResult false false "Could not apply session to browser" None.
Proof. reflexivity. Qed.

End BrowserValidationProperties.
